(** * Release-version resolution: [scripts/get-release-version.js]

    A shallow embedding of the script that computes the next release
    version of the package from three external sources (the npm registry,
    the git tag store and the GitHub release host), and the properties its
    specification states about it.

    Conventions of the embedding.
    - The texts that the script reads and builds are [string]s:
      sequences of code units below 256.  The strings inside a JSON text,
      where a [\u] escape can name any code unit, are lists of code
      units.
    - [execSync] is an oracle of the [World]: a command line is mapped to
      the text the process prints, or to the message of the error it
      throws.  One resolution reads one snapshot of the sources, so the
      oracle is a function of the command line alone.  Every command that
      is run is recorded, in order, in a trace.
    - A thrown [Error] is its message.
    - A plain object used as a table ([args], [versionRegex]) is the map
      of its own properties, together with what it inherits from
      [Object.prototype] where the script can reach it.
    - A JavaScript number is [NaN] or an integer of [Z]; the source only
      builds numbers with [parseInt] and [+ 1], and on integers up to
      2^53 the double arithmetic of the runtime is exact. *)

From Stdlib Require Import ZArith NArith Lia Ascii String List.
From Stdlib Require Import DecimalString DecimalN DecimalFacts Sorted Permutation.
From Stdlib Require OrdersEx.
From stdpp Require Import base option list strings gmap.

#[local] Open Scope Z_scope.

(** ** Strings of the runtime *)

Module JsString.

(** [WhiteSpace] and [LineTerminator] code units below 256: TAB, LF, VT,
    FF, CR, SP and NBSP.  These are what [String.prototype.trim] strips. *)
Definition is_space (c : ascii) : bool :=
  let n := N_of_ascii c in
  ((9 <=? n)%N && (n <=? 13)%N) || (n =? 32)%N || (n =? 160)%N.

(** The characters that the regular-expression atom [.] does not match. *)
Definition is_line_terminator (c : ascii) : bool :=
  let n := N_of_ascii c in (n =? 10)%N || (n =? 13)%N.

(** [\d] and [[0-9]]. *)
Definition is_digit (c : ascii) : bool :=
  let n := N_of_ascii c in (48 <=? n)%N && (n <=? 57)%N.

Fixpoint trimStart (s : string) : string :=
  match s with
  | String c s' => if is_space c then trimStart s' else s
  | EmptyString => EmptyString
  end.

Fixpoint trimEnd (s : string) : string :=
  match s with
  | String c s' =>
      match trimEnd s' with
      | EmptyString => if is_space c then EmptyString else String c EmptyString
      | t => String c t
      end
  | EmptyString => EmptyString
  end.

(** [s.trim()] *)
Definition trim (s : string) : string := trimEnd (trimStart s).

(** [s.split(sep)] for a separator of one character.  The result is never
    empty: [''.split(sep)] is [['']]. *)
Fixpoint split (sep : ascii) (s : string) : list string :=
  match s with
  | EmptyString => [EmptyString]
  | String c s' =>
      if Ascii.eqb c sep then EmptyString :: split sep s'
      else match split sep s' with
           | p :: ps => String c p :: ps
           | [] => [String c EmptyString]
           end
  end.

(** [s.startsWith(p)] *)
Fixpoint startsWith (p s : string) : bool :=
  match p, s with
  | EmptyString, _ => true
  | String a p', String b s' => Ascii.eqb a b && startsWith p' s'
  | String _ _, EmptyString => false
  end.

(** [s.substring(n)] for [n] within the string, and the tail of [slice]. *)
Fixpoint drop (n : nat) (s : string) : string :=
  match n, s with
  | S n', String _ s' => drop n' s'
  | _, _ => s
  end.

(** [s.slice(0, n)] *)
Fixpoint take (n : nat) (s : string) : string :=
  match n, s with
  | S n', String c s' => String c (take n' s')
  | _, _ => EmptyString
  end.

(** [s.replace(/^v/, '')] *)
Definition strip_v (s : string) : string :=
  match s with
  | String c s' => if Ascii.eqb c "v" then s' else s
  | EmptyString => EmptyString
  end.

(** The text left after [.*] has consumed what it can: from the first
    line terminator on. *)
Fixpoint after_dot_star (s : string) : string :=
  match s with
  | String c s' => if is_line_terminator c then s else after_dot_star s'
  | EmptyString => EmptyString
  end.

(** [s.replace(/<lit>.*/, '')] for a literal [lit] without regular
    expression operators: the first occurrence of [lit] and the rest of
    its line are removed. *)
Fixpoint replace_lit_dot_star (lit s : string) : string :=
  if startsWith lit s then after_dot_star (drop (String.length lit) s)
  else match s with
       | String c s' => String c (replace_lit_dot_star lit s')
       | EmptyString => EmptyString
       end.

(** [s.replace(/c/g, '')] for one character [c]. *)
Fixpoint remove_all (c : ascii) (s : string) : string :=
  match s with
  | String d s' => if Ascii.eqb d c then remove_all c s' else String d (remove_all c s')
  | EmptyString => EmptyString
  end.

(** [s.includes(t)] *)
Fixpoint includes (t s : string) : bool :=
  startsWith t s ||
  match s with
  | String _ s' => includes t s'
  | EmptyString => false
  end.

(** [l.join(sep)] *)
Definition join (sep : string) (l : list string) : string := String.concat sep l.

(** Truthiness of a string: [Boolean(s)], [!s]. *)
Definition truthy (s : string) : bool :=
  match s with EmptyString => false | _ => true end.

(** The longest prefix of characters that satisfy [p], and what follows. *)
Fixpoint span (p : ascii -> bool) (s : string) : string * string :=
  match s with
  | String c s' =>
      if p c then let '(a, b) := span p s' in (String c a, b)
      else (EmptyString, s)
  | EmptyString => (EmptyString, EmptyString)
  end.

Definition all (p : ascii -> bool) (s : string) : bool :=
  forallb p (list_ascii_of_string s).

(** The code units of a string, and [===], [startsWith] and [includes]
    on strings that are given by their code units. *)
Definition units (s : string) : list N := List.map N_of_ascii (list_ascii_of_string s).

Fixpoint units_eqb (a b : list N) : bool :=
  match a, b with
  | [], [] => true
  | x :: a', y :: b' => (x =? y)%N && units_eqb a' b'
  | _, _ => false
  end.

Fixpoint units_startsWith (p s : list N) : bool :=
  match p, s with
  | [], _ => true
  | x :: p', y :: s' => (x =? y)%N && units_startsWith p' s'
  | _ :: _, [] => false
  end.

Fixpoint units_includes (t s : list N) : bool :=
  units_startsWith t s ||
  match s with
  | _ :: s' => units_includes t s'
  | [] => false
  end.

End JsString.

(** ** Numbers of the runtime *)

Module JsNumber.
Import JsString.

(** The Number values that the script computes with: [NaN] and integers.
    [parseInt], [+ 1] and [String] are modelled on the integers
    themselves, which is what the runtime does up to magnitude 2^53, where
    every integer is a double; the properties below keep within this
    range.  Beyond it the runtime rounds what [parseInt] and [+ 1] give,
    and prints the shortest digits that read back as the same double. *)
Inductive number : Type :=
| NaN
| Num (z : Z).

(** Decimal text of a natural number, without leading zeros. *)
Definition show_N (n : N) : string := NilEmpty.string_of_uint (N.to_uint n).

(** The Number value of a natural number, which is what [+text] gives for
    a text of decimal digits: the nearest double, and of two nearest ones
    the one with the even mantissa.  A double has 53 binary digits; the
    numbers up to 2^53 are their own value.  Doubles end below 2^1024,
    which is more than a text of 256 digits can say. *)
Definition to_double (n : N) : N :=
  let size := N.size n in
  if (size <=? 53)%N then n
  else
    let dropped := (size - 53)%N in
    let mantissa := N.shiftr n dropped in
    let rest := N.land n (N.ones dropped) in
    let half := N.shiftl 1 (dropped - 1) in
    let mantissa :=
      if (half <? rest)%N || ((rest =? half)%N && N.odd mantissa)
      then (mantissa + 1)%N else mantissa in
    N.shiftl mantissa dropped.

(** [String(x)] and [`${x}`] for a number. *)
Definition toString (x : number) : string :=
  match x with
  | NaN => "NaN"
  | Num z => if z <? 0 then "-" +:+ show_N (Z.abs_N z) else show_N (Z.abs_N z)
  end.

(** [x + 1] *)
Definition succ (x : number) : number :=
  match x with
  | NaN => NaN
  | Num z => Num (z + 1)
  end.

Definition isNaN (x : number) : bool :=
  match x with NaN => true | Num _ => false end.

Definition hex_value (c : ascii) : option N :=
  let n := N_of_ascii c in
  if (48 <=? n)%N && (n <=? 57)%N then Some (n - 48)%N
  else if (65 <=? n)%N && (n <=? 70)%N then Some (n - 55)%N
  else if (97 <=? n)%N && (n <=? 102)%N then Some (n - 87)%N
  else None.

Definition is_hex_digit (c : ascii) : bool :=
  match hex_value c with Some _ => true | None => false end.

Definition hex_to_N (s : string) : N :=
  fold_left (fun acc c => (16 * acc + default 0 (hex_value c))%N)
            (list_ascii_of_string s) 0%N.

(** The value of a string of decimal digits. *)
Definition dec_to_N (s : string) : N :=
  match NilEmpty.uint_of_string s with
  | Some d => N.of_uint d
  | None => 0%N
  end.

(** [parseInt(s)], with no radix: leading white space is skipped, a sign
    is read, a [0x] or [0X] prefix selects radix 16, and the longest run
    of digits that follows is the value; no digit at all gives [NaN]. *)
Definition parseInt (s : string) : number :=
  let s := trimStart s in
  let '(neg, s) :=
    match s with
    | String "-" s' => (true, s')
    | String "+" s' => (false, s')
    | _ => (false, s)
    end in
  let signed (n : N) := Num (if neg then - Z.of_N n else Z.of_N n) in
  match s with
  | String "0" (String "x" s') | String "0" (String "X" s') =>
      match fst (span is_hex_digit s') with
      | EmptyString => NaN
      | ds => signed (hex_to_N ds)
      end
  | _ =>
      match fst (span is_digit s) with
      | EmptyString => NaN
      | ds => signed (dec_to_N ds)
      end
  end.

End JsNumber.

(** ** The [semver] package

    [semver.valid] and [semver.rcompare] belong to the [semver] package,
    which the script imports.  They are modelled after Semantic Versioning
    2.0.0 as the package reads it in strict mode: a version is
    [MAJOR.MINOR.PATCH], an optional [-] and dot-separated prerelease
    identifiers, an optional [+] and dot-separated build identifiers; a
    leading [v] and surrounding white space are tolerated.  A comparison
    result is a [comparison]: [Lt] is -1, [Eq] is 0 and [Gt] is 1. *)

Module SemVer.
Import JsString JsNumber.

Inductive identifier : Type :=
| IdNum (n : N)
| IdStr (s : string).

Record t : Type := mk {
  major : N;
  minor : N;
  patch : N;
  prerelease : list identifier;
  build : list string
}.

Definition MAX_LENGTH : nat := 256.
Definition MAX_SAFE_INTEGER : N := 9007199254740991.

(** [0|[1-9]\d*] *)
Definition is_numeric_identifier (s : string) : bool :=
  match s with
  | EmptyString => false
  | String "0" EmptyString => true
  | String "0" _ => false
  | _ => all is_digit s
  end.

(** [[a-zA-Z0-9-]] *)
Definition is_letter_dash_number (c : ascii) : bool :=
  let n := N_of_ascii c in
  is_digit c || ((65 <=? n)%N && (n <=? 90)%N) || ((97 <=? n)%N && (n <=? 122)%N)
  || (n =? 45)%N.

(** [0|[1-9]\d*|\d*[a-zA-Z-][a-zA-Z0-9-]*] *)
Definition is_prerelease_identifier (s : string) : bool :=
  truthy s && all is_letter_dash_number s
  && (negb (all is_digit s) || is_numeric_identifier s).

(** [[a-zA-Z0-9-]+] *)
Definition is_build_identifier (s : string) : bool :=
  truthy s && all is_letter_dash_number s.

(** The text before the first [c], and the text after it when there is one. *)
Fixpoint cut (c : ascii) (s : string) : string * option string :=
  match s with
  | EmptyString => (EmptyString, None)
  | String d s' =>
      if Ascii.eqb d c then (EmptyString, Some s')
      else let '(a, b) := cut c s' in (String d a, b)
  end.

Definition main_number (s : string) : option N :=
  if is_numeric_identifier s then
    let n := dec_to_N s in
    if (n <=? MAX_SAFE_INTEGER)%N then Some n else None
  else None.

Definition prerelease_identifier (s : string) : option identifier :=
  if is_prerelease_identifier s then
    Some (if all is_digit s then IdNum (dec_to_N s) else IdStr s)
  else None.

Definition build_identifier (s : string) : option string :=
  if is_build_identifier s then Some s else None.

(** [mapM]: every element must be accepted. *)
Fixpoint traverse {A B : Type} (f : A -> option B) (l : list A) : option (list B) :=
  match l with
  | [] => Some []
  | x :: l' =>
      match f x, traverse f l' with
      | Some y, Some ys => Some (y :: ys)
      | _, _ => None
      end
  end.

(** [semver.parse(version)]: [None] is [null]. *)
Definition parse (version : string) : option t :=
  if (MAX_LENGTH <? String.length version)%nat then None else
  let s := strip_v (trim version) in
  let '(s, b) := cut "+" s in
  let '(s, p) := cut "-" s in
  match split "." s with
  | [x; y; z] =>
      match main_number x, main_number y, main_number z,
            traverse prerelease_identifier (from_option (split ".") [] p),
            traverse build_identifier (from_option (split ".") [] b) with
      | Some x, Some y, Some z, Some p, Some b => Some (mk x y z p b)
      | _, _, _, _, _ => None
      end
  | _ => None
  end.

(** [semver.valid(version)], as a condition: the version parses. *)
Definition valid (version : string) : bool :=
  match parse version with Some _ => true | None => false end.

(** Lexicographic combination: [a || b] on comparison results. *)
Definition lexi (a b : comparison) : comparison :=
  match a with Eq => b | _ => a end.

(** [compareIdentifiers]: numbers sort below text, numbers by their value
    as doubles (two numbers from 2^53 on that round alike are equal), text
    by code units. *)
Definition compareIdentifiers (a b : identifier) : comparison :=
  match a, b with
  | IdNum x, IdNum y => (to_double x ?= to_double y)%N
  | IdNum _, IdStr _ => Lt
  | IdStr _, IdNum _ => Gt
  | IdStr x, IdStr y => OrdersEx.String_as_OT.compare x y
  end.

Fixpoint compareIdentifierLists (a b : list identifier) : comparison :=
  match a, b with
  | [], [] => Eq
  | _ :: _, [] => Gt
  | [], _ :: _ => Lt
  | x :: a', y :: b' => lexi (compareIdentifiers x y) (compareIdentifierLists a' b')
  end.

(** [SemVer.prototype.comparePre]: a version without a prerelease sorts
    above every prerelease of it. *)
Definition comparePre (a b : list identifier) : comparison :=
  match a, b with
  | _ :: _, [] => Lt
  | [], _ :: _ => Gt
  | [], [] => Eq
  | _, _ => compareIdentifierLists a b
  end.

Definition compareMain (a b : t) : comparison :=
  lexi (major a ?= major b)%N
    (lexi (minor a ?= minor b)%N (patch a ?= patch b)%N).

(** [SemVer.prototype.compare]; build identifiers take no part. *)
Definition compare (a b : t) : comparison :=
  lexi (compareMain a b) (comparePre (prerelease a) (prerelease b)).

(** [semver.rcompare(a, b)] is [compare(b, a)].  The package throws on an
    argument that does not parse; the script only compares strings that
    passed [valid] (see [getLatestTag]), and the model answers [Eq] where
    the package would throw. *)
Definition rcompare (a b : string) : comparison :=
  match parse b, parse a with
  | Some y, Some x => compare y x
  | _, _ => Eq
  end.

End SemVer.

(** ** [JSON.parse]

    The values of JSON.  A string is the list of its code units: a [\u]
    escape names any code unit, also one above 255 that a [string] cannot
    hold.  A number keeps its text.  [parse] is [None] where the runtime
    throws a [SyntaxError]. *)

Module JSON.
Import JsString JsNumber.

#[local] Unset Elimination Schemes.
Inductive json : Type :=
| JNull
| JBool (b : bool)
| JNumber (text : string)
| JString (units : list N)
| JArray (l : list json)
| JObject (l : list (list N * json)).
#[local] Set Elimination Schemes.

Definition is_ws (c : ascii) : bool :=
  let n := N_of_ascii c in (n =? 32)%N || (n =? 9)%N || (n =? 10)%N || (n =? 13)%N.

Fixpoint skip_ws (s : string) : string :=
  match s with
  | String c s' => if is_ws c then skip_ws s' else s
  | EmptyString => EmptyString
  end.

Definition lit (l s : string) : option string :=
  if startsWith l s then Some (drop (String.length l) s) else None.

(** The four hexadecimal digits of a [\u] escape, which name a code
    unit. *)
Definition unicode_escape (s : string) : option (N * string) :=
  let h := take 4 s in
  if (String.length h =? 4)%nat && all is_hex_digit h then Some (hex_to_N h, drop 4 s)
  else None.

Definition simple_escape (c : ascii) : option ascii :=
  match c with
  | "034"%char => Some "034"%char
  | "\"%char => Some "\"%char
  | "/"%char => Some "/"%char
  | "b"%char => Some "008"%char
  | "f"%char => Some "012"%char
  | "n"%char => Some "010"%char
  | "r"%char => Some "013"%char
  | "t"%char => Some "009"%char
  | _ => None
  end.

(** The code units of a string literal after its opening quote, and the
    text after its closing quote. *)
Fixpoint string_body (fuel : nat) (s : string) : option (list N * string) :=
  match fuel, s with
  | S fuel, String c s' =>
      if Ascii.eqb c "034" then Some ([], s')
      else if Ascii.eqb c "\" then
        match s' with
        | String "u" s'' =>
            '(e, r) ← unicode_escape s'';
            '(a, r) ← string_body fuel r;
            Some (e :: a, r)
        | String d s'' =>
            e ← simple_escape d;
            '(a, r) ← string_body fuel s'';
            Some (N_of_ascii e :: a, r)
        | EmptyString => None
        end
      else if (N_of_ascii c <? 32)%N then None
      else '(a, r) ← string_body fuel s'; Some (N_of_ascii c :: a, r)
  | _, _ => None
  end.

Definition digits1 (s : string) : option (string * string) :=
  match span is_digit s with
  | (EmptyString, _) => None
  | r => Some r
  end.

(** A number: an optional [-], the integer part [0] or [[1-9]\d*], an
    optional fraction [\.\d+] and an optional exponent [[eE][+-]?\d+]. *)
Definition number_text (s : string) : option (string * string) :=
  let '(sg, s) := match s with String "-" r => ("-", r) | _ => ("", s) end in
  '(int, s) ← match s with
              | String "0" r => Some ("0", r)
              | _ => digits1 s
              end;
  '(frac, s) ← match s with
               | String "." r => '(d, r) ← digits1 r; Some ("." +:+ d, r)
               | _ => Some ("", s)
               end;
  '(ex, s) ← match s with
             | String "e" r | String "E" r =>
                 let '(sg, r) := match r with
                                 | String "+" r' => ("+", r')
                                 | String "-" r' => ("-", r')
                                 | _ => ("", r)
                                 end in
                 '(d, r) ← digits1 r; Some ("e" +:+ sg +:+ d, r)
             | _ => Some ("", s)
             end;
  Some (sg +:+ int +:+ frac +:+ ex, s).

(** One value, the elements of an array after its first bracket, and the
    members of an object after its first brace.  [fuel] bounds the depth
    of the calls. *)
Fixpoint value (fuel : nat) (s : string) : option (json * string) :=
  match fuel with
  | O => None
  | S fuel =>
      match skip_ws s with
      | String "n" _ as s => r ← lit "null" s; Some (JNull, r)
      | String "t" _ as s => r ← lit "true" s; Some (JBool true, r)
      | String "f" _ as s => r ← lit "false" s; Some (JBool false, r)
      | String "034" s' =>
          '(a, r) ← string_body (String.length s') s'; Some (JString a, r)
      | String "[" s' =>
          match skip_ws s' with
          | String "]" r => Some (JArray [], r)
          | _ => '(l, r) ← elements fuel s'; Some (JArray l, r)
          end
      | String "{" s' =>
          match skip_ws s' with
          | String "}" r => Some (JObject [], r)
          | _ => '(l, r) ← members fuel s'; Some (JObject l, r)
          end
      | s => '(n, r) ← number_text s; Some (JNumber n, r)
      end
  end
with elements (fuel : nat) (s : string) : option (list json * string) :=
  match fuel with
  | O => None
  | S fuel =>
      '(v, r) ← value fuel s;
      match skip_ws r with
      | String "," r => '(l, r) ← elements fuel r; Some (v :: l, r)
      | String "]" r => Some ([v], r)
      | _ => None
      end
  end
with members (fuel : nat) (s : string) : option (list (list N * json) * string) :=
  match fuel with
  | O => None
  | S fuel =>
      match skip_ws s with
      | String "034" s' =>
          '(k, r) ← string_body (String.length s') s';
          match skip_ws r with
          | String ":" r =>
              '(v, r) ← value fuel r;
              match skip_ws r with
              | String "," r => '(l, r) ← members fuel r; Some ((k, v) :: l, r)
              | String "}" r => Some ([(k, v)], r)
              | _ => None
              end
          | _ => None
          end
      | _ => None
      end
  end.

(** [JSON.parse(text)] *)
Definition parse (text : string) : option json :=
  '(v, r) ← value (2 * String.length text + 2) text;
  match skip_ws r with
  | EmptyString => Some v
  | _ => None
  end.

End JSON.

(** ** The world outside the script, and effects *)

(** The UTC fields of an instant, as [Date.prototype.getUTCFullYear] and
    its siblings read them; [month] counts from 1. *)
Record Date : Type := mkDate {
  year : Z;
  month : N;
  day : N;
  hours : N;
  minutes : N;
  seconds : N;
  milliseconds : N
}.

Record World : Type := mkWorld {
  (** what a command prints ([inl]), or the message of the error that
      [execSync] throws for it ([inr]) *)
  process_output : string -> string + string;
  (** the instant [new Date()] reads *)
  clock : Date;
  (** [process.argv] *)
  argv : list string
}.

Inductive result (A : Type) : Type :=
| Ok (a : A)
| Throw (message : string).
Arguments Ok {A} a.
Arguments Throw {A} message.

(** A computation reads the world and gives its result together with the
    commands it ran, in order. *)
Definition Eff (A : Type) : Type := World -> result A * list string.

Definition ret {A : Type} (a : A) : Eff A := fun _ => (Ok a, []).

Definition throw {A : Type} (message : string) : Eff A := fun _ => (Throw message, []).

Definition bind {A B : Type} (m : Eff A) (k : A -> Eff B) : Eff B :=
  fun w =>
    match m w with
    | (Ok a, t) => let '(r, t') := k a w in (r, t ++ t')
    | (Throw e, t) => (Throw e, t)
    end.

(** [try { m } catch (error) { handler(error.message) }] *)
Definition try_catch {A : Type} (m : Eff A) (handler : string -> Eff A) : Eff A :=
  fun w =>
    match m w with
    | (Ok a, t) => (Ok a, t)
    | (Throw e, t) => let '(r, t') := handler e w in (r, t ++ t')
    end.

(** [execSync(command).toString()] *)
Definition execSync (command : string) : Eff string :=
  fun w =>
    (match process_output w command with
     | inl out => Ok out
     | inr e => Throw e
     end, [command]).

Definition now : Eff Date := fun w => (Ok (clock w), []).

Definition process_argv : Eff (list string) := fun w => (Ok (argv w), []).

#[global] Instance Eff_ret : MRet Eff := @ret.
#[global] Instance Eff_bind : MBind Eff := fun A B k m => bind m k.

(** The outcome of a computation in a world, and the commands it ran. *)
Definition outcome {A : Type} (w : World) (m : Eff A) : result A := fst (m w).
Definition queries {A : Type} (w : World) (m : Eff A) : list string := snd (m w).

Module JsDate.
Import JsString JsNumber.

(** Decimal text padded with zeros on the left to [width] characters. *)
Definition pad (width : nat) (n : N) : string :=
  let d := show_N n in
  string_of_list_ascii (List.repeat "0"%char (width - String.length d)) +:+ d.

(** [Date.prototype.toISOString]: [YYYY-MM-DDTHH:mm:ss.sssZ], and a sign
    with six digits for a year outside 0..9999. *)
Definition toISOString (d : Date) : string :=
  (if (0 <=? year d) && (year d <=? 9999) then pad 4 (Z.to_N (year d))
   else (if year d <? 0 then "-" else "+") +:+ pad 6 (Z.abs_N (year d)))
  +:+ "-" +:+ pad 2 (month d) +:+ "-" +:+ pad 2 (day d)
  +:+ "T" +:+ pad 2 (hours d) +:+ ":" +:+ pad 2 (minutes d)
  +:+ ":" +:+ pad 2 (seconds d) +:+ "." +:+ pad 3 (milliseconds d) +:+ "Z".

End JsDate.

(** ** The script *)

Import JsString JsNumber.

(** The double quote and the line feed. *)
Definition dq : string := String "034" EmptyString.
Definition LF : ascii := "010"%char.

(** What a property of [args] holds: [true] for a flag without [=], or
    the text after [=]. *)
Inductive value : Type :=
| VTrue
| VStr (s : string).

(** Truthiness of [args.key], which is [undefined] when [key] is absent. *)
Definition is_truthy (v : option value) : bool :=
  match v with
  | Some VTrue => true
  | Some (VStr s) => truthy s
  | None => false
  end.

(** [`${v}`] *)
Definition value_text (v : value) : string :=
  match v with
  | VTrue => "true"
  | VStr s => s
  end.

(** [v === s] for a string [s]. *)
Definition is_string (s : string) (v : option value) : bool :=
  match v with
  | Some (VStr t) => String.eqb t s
  | _ => false
  end.

(** [a[0]] of an array that [split] returned, which is never empty. *)
Definition first (a : list string) : string := List.hd EmptyString a.

(** [`${x}`] for an element that may be [undefined]. *)
Definition text_or_undefined (x : option string) : string := default "undefined" x.

(** [object[key] = v] on a plain object, for a [v] that is [true] or a
    string.  The map holds the own properties of the object.  The name
    [__proto__] is an accessor that a plain object inherits, and its setter
    ignores a value that is no object: that assignment makes no property. *)
Definition assign (key : string) (v : value) (object : gmap string value)
  : gmap string value :=
  if String.eqb key "__proto__" then object else <[key := v]> object.

Definition getArgs : Eff (gmap string value) :=
  argv ← process_argv;
  mret (fold_left
          (fun (args : gmap string value) (arg : string) =>
             if startsWith "--" arg then
               let kv := split "=" (drop 2 arg) in
               assign (first kv)
                      match kv !! 1%nat with
                      | None => VTrue
                      | Some v => VStr v
                      end
                      args
             else args)
          (List.skipn 2 argv) ∅).

(** [Array.prototype.sort(compare)].  The sort of the runtime is stable,
    and the result of a stable sort is fixed by the comparator; insertion
    from the right is one. *)
Fixpoint insert (compare : string -> string -> comparison) (x : string) (l : list string)
  : list string :=
  match l with
  | [] => [x]
  | y :: l' =>
      match compare x y with
      | Gt => y :: insert compare x l'
      | _ => x :: l
      end
  end.

Definition sort (compare : string -> string -> comparison) (l : list string) : list string :=
  List.fold_right (insert compare) [] l.

Definition getLatestTag (pattern : string) : Eff string :=
  let command := "git tag -l '" +:+ pattern +:+ "'" in
  try_catch
    (out ← execSync command;
     let tags := List.filter truthy (split LF (trim out)) in
     if (length tags =? 0)%nat then mret "" else
     let versions :=
       sort (fun a b => SemVer.rcompare a b)
            (List.filter SemVer.valid (List.map strip_v tags)) in
     match versions with
     | [] => mret ""
     | v :: _ => mret ("v" +:+ v)
     end)
    (fun _ => mret "").

Definition getVersionFromNPM (distTag : string) : Eff string :=
  let command := "npm view @google/gemini-cli version --tag=" +:+ distTag in
  try_catch
    (out ← execSync command; mret (trim out))
    (fun _ => mret "").

Definition verifyGitHubReleaseExists (tagName : string) : Eff unit :=
  let command := "gh release view " +:+ dq +:+ tagName +:+ dq +:+ " --json tagName --jq .tagName" in
  try_catch
    (out ← execSync command;
     let output := trim out in
     if negb (String.eqb output tagName) then
       throw ("Discrepancy found! NPM version " +:+ tagName
              +:+ " is missing a corresponding GitHub release.")
     else mret tt)
    (fun message =>
       throw ("Discrepancy found! Failed to verify GitHub release for " +:+ tagName
              +:+ ". Error: " +:+ message)).

(** [allVersions.includes(newVersion)]: membership for an array, substring
    for a string, and a [TypeError] ([None]) for the other values. *)
Definition includes_version (allVersions : JSON.json) (newVersion : string) : option bool :=
  match allVersions with
  | JSON.JArray l =>
      Some (existsb (fun x => match x with
                              | JSON.JString s => units_eqb s (units newVersion)
                              | _ => false
                              end) l)
  | JSON.JString s => Some (units_includes (units newVersion) s)
  | _ => None
  end.

Definition validateVersionConflicts (newVersion : string) : Eff unit :=
  let conflicts : list string := [] in
  conflicts ← try_catch
    (out ← execSync "npm view @google/gemini-cli versions --json";
     let versionsJson := trim out in
     match JSON.parse versionsJson with
     | None => throw "SyntaxError"
     | Some allVersions =>
         match includes_version allVersions newVersion with
         | None => throw "allVersions.includes is not a function"
         | Some true =>
             mret (conflicts ++ ["NPM registry already has version " +:+ newVersion])
         | Some false => mret conflicts
         end
     end)
    (fun _ => mret conflicts);
  conflicts ← try_catch
    (out ← execSync ("git tag -l 'v" +:+ newVersion +:+ "'");
     let tagOutput := trim out in
     if String.eqb tagOutput ("v" +:+ newVersion) then
       mret (conflicts ++ ["Git tag v" +:+ newVersion +:+ " already exists"])
     else mret conflicts)
    (fun _ => mret conflicts);
  conflicts ← try_catch
    (out ← execSync ("gh release view " +:+ dq +:+ "v" +:+ newVersion +:+ dq
                     +:+ " --json tagName --jq .tagName");
     let output := trim out in
     if String.eqb output ("v" +:+ newVersion) then
       mret (conflicts ++ ["GitHub release v" +:+ newVersion +:+ " already exists"])
     else mret conflicts)
    (fun _ => mret conflicts);
  if (0 <? length conflicts)%nat then
    throw ("Version conflict! Cannot create " +:+ newVersion +:+ ":" +:+ String LF ""
           +:+ join (String LF "") conflicts)
  else mret tt.

Record Tags : Type := mkTags {
  latestVersion : string;
  latestTag : string
}.

Definition getAndVerifyTags (npmDistTag gitTagPattern : string) : Eff Tags :=
  latestVersion ← getVersionFromNPM npmDistTag;
  latestTag ← getLatestTag gitTagPattern;
  if negb (String.eqb ("v" +:+ latestVersion) latestTag) then
    throw ("Discrepancy found! NPM " +:+ npmDistTag +:+ " tag (" +:+ latestVersion
           +:+ ") does not match latest git " +:+ npmDistTag +:+ " tag (" +:+ latestTag +:+ ").")
  else
    _ ← verifyGitHubReleaseExists latestTag;
    mret (mkTags latestVersion latestTag).

Record VersionData : Type := mkVersionData {
  releaseVersion : string;
  npmTag : string;
  previousReleaseTag : string
}.

(** [new Date().toISOString().slice(0, 10).replace(/-/g, '')] *)
Definition date_stamp (d : Date) : string :=
  remove_all "-" (take 10 (JsDate.toISOString d)).

Definition getNightlyVersion : Eff VersionData :=
  tags ← getAndVerifyTags "nightly" "v*-nightly*";
  let baseVersion := first (split "-" (latestVersion tags)) in
  let versionParts := split "." baseVersion in
  let major := first versionParts in
  let minor := match versionParts !! 1%nat with
               | Some p => if truthy p then parseInt p else Num 0
               | None => Num 0
               end in
  let nextMinor := succ minor in
  d ← now;
  let date := date_stamp d in
  out ← execSync "git rev-parse --short HEAD";
  let gitShortHash := trim out in
  mret {| releaseVersion := major +:+ "." +:+ toString nextMinor +:+ ".0-nightly."
                            +:+ date +:+ "." +:+ gitShortHash;
          npmTag := "nightly";
          previousReleaseTag := latestTag tags |}.

(** The two patterns of [validateVersion] are sequences of [\d+] and
    literal text between [^] and [$].  [\d+] takes the longest run of
    digits: the text that follows a run in these patterns never starts
    with a digit, so no shorter run can match. *)
Inductive piece : Type :=
| Digits
| Lit (l : string).

Fixpoint re_test (pattern : list piece) (s : string) : bool :=
  match pattern with
  | [] => negb (truthy s)
  | Digits :: pattern' =>
      match span is_digit s with
      | (EmptyString, _) => false
      | (_, r) => re_test pattern' r
      end
  | Lit l :: pattern' =>
      if startsWith l s then re_test pattern' (drop (String.length l) s) else false
  end.

(** [/^\d+\.\d+\.\d+$/.test(s)] *)
Definition test_X_Y_Z : string -> bool :=
  re_test [Digits; Lit "."; Digits; Lit "."; Digits].

(** [/^\d+\.\d+\.\d+-preview\.\d+$/.test(s)] *)
Definition test_X_Y_Z_preview_N : string -> bool :=
  re_test [Digits; Lit "."; Digits; Lit "."; Digits; Lit "-preview."; Digits].

(** What [versionRegex[format]] can be when it is not [undefined]: one of
    the two patterns, or a member that the table, a plain object, inherits
    from [Object.prototype]; such a member is truthy and has no [test]. *)
Inductive entry : Type :=
| Pattern (test : string -> bool)
| Inherited.

(** The names of the members of [Object.prototype]. *)
Definition prototype_members : list string :=
  [ "constructor"; "__defineGetter__"; "__defineSetter__"; "hasOwnProperty";
    "__lookupGetter__"; "__lookupSetter__"; "isPrototypeOf"; "propertyIsEnumerable";
    "toString"; "valueOf"; "__proto__"; "toLocaleString" ].

(** The table [versionRegex], by format name. *)
Definition versionRegex (format : string) : option entry :=
  if String.eqb format "X.Y.Z" then Some (Pattern test_X_Y_Z)
  else if String.eqb format "X.Y.Z-preview.N" then Some (Pattern test_X_Y_Z_preview_N)
  else if existsb (String.eqb format) prototype_members then Some Inherited
  else None.

Definition validateVersion (version format name : string) : Eff unit :=
  invalid ← match versionRegex format with
            | None => mret true
            | Some (Pattern test) => mret (negb (test version))
            | Some Inherited => throw "versionRegex[format].test is not a function"
            end;
  if invalid : bool
  then throw ("Invalid " +:+ name +:+ ": " +:+ version +:+ ". Must be in " +:+ format
              +:+ " format.")
  else mret tt.

(** The branch that both [getStableVersion] and [getPreviewVersion] take
    on a truthy override: [args.<name>.replace(/^v/, '')] and
    [validateVersion]; a flag without a value is [true], which has no
    [replace]. *)
Definition overrideVersion (o : option value) (format name : string) : Eff string :=
  match o with
  | Some (VStr text) =>
      let overrideVersion := strip_v text in
      _ ← validateVersion overrideVersion format name;
      mret overrideVersion
  | _ => throw ("args." +:+ name +:+ ".replace is not a function")
  end.

Definition getStableVersion (args : gmap string value) : Eff VersionData :=
  preview ← getAndVerifyTags "preview" "v*-preview*";
  let latestPreviewVersion := latestVersion preview in
  releaseVersion ←
    (if is_truthy (args !! "stable_version_override") then
       overrideVersion (args !! "stable_version_override") "X.Y.Z" "stable_version_override"
     else mret (replace_lit_dot_star "-preview" latestPreviewVersion));
  stable ← getAndVerifyTags "latest" "v[0-9].[0-9].[0-9]";
  let previousStableTag := latestTag stable in
  mret {| releaseVersion := releaseVersion;
          npmTag := "latest";
          previousReleaseTag := previousStableTag |}.

Definition getPreviewVersion (args : gmap string value) : Eff VersionData :=
  nightly ← getAndVerifyTags "nightly" "v*-nightly*";
  let latestNightlyVersion := latestVersion nightly in
  releaseVersion ←
    (if is_truthy (args !! "preview_version_override") then
       overrideVersion (args !! "preview_version_override") "X.Y.Z-preview.N"
                       "preview_version_override"
     else mret (replace_lit_dot_star "-nightly" latestNightlyVersion +:+ "-preview.0"));
  preview ← getAndVerifyTags "preview" "v*-preview*";
  let previousPreviewTag := latestTag preview in
  mret {| releaseVersion := releaseVersion;
          npmTag := "preview";
          previousReleaseTag := previousPreviewTag |}.

Definition getPatchVersion (patchFrom : option value) : Eff VersionData :=
  if negb (is_truthy patchFrom)
     || (negb (is_string "stable" patchFrom) && negb (is_string "preview" patchFrom))
  then throw "Patch type must be specified with --patch-from=stable or --patch-from=preview"
  else
    let distTag := if is_string "stable" patchFrom then "latest" else "preview" in
    let pattern := if String.eqb distTag "latest" then "v[0-9].[0-9].[0-9]" else "v*-preview*" in
    tags ← getAndVerifyTags distTag pattern;
    let latestVersion := latestVersion tags in
    if is_string "stable" patchFrom then
      let versionParts := split "." latestVersion in
      let major := first versionParts in
      let minor := versionParts !! 1%nat in
      let patch := match versionParts !! 2%nat with
                   | Some p => if truthy p then parseInt p else Num 0
                   | None => Num 0
                   end in
      let releaseVersion :=
        major +:+ "." +:+ text_or_undefined minor +:+ "." +:+ toString (succ patch) in
      mret {| releaseVersion := releaseVersion;
              npmTag := distTag;
              previousReleaseTag := latestTag tags |}
    else
      let parts := split "-" latestVersion in
      let version := first parts in
      let prereleasePart := parts !! 1%nat in
      match prereleasePart with
      | Some prereleasePart =>
          if negb (truthy prereleasePart) || negb (startsWith "preview." prereleasePart) then
            throw ("Invalid preview version format: " +:+ latestVersion
                   +:+ ". Expected format like " +:+ dq +:+ "0.6.0-preview.2" +:+ dq)
          else
            let previewNumber :=
              parseInt (text_or_undefined (split "." prereleasePart !! 1%nat)) in
            if isNaN previewNumber then
              throw ("Could not parse preview number from: " +:+ prereleasePart)
            else
              let releaseVersion := version +:+ "-preview." +:+ toString (succ previewNumber) in
              mret {| releaseVersion := releaseVersion;
                      npmTag := distTag;
                      previousReleaseTag := latestTag tags |}
      | None =>
          throw ("Invalid preview version format: " +:+ latestVersion
                 +:+ ". Expected format like " +:+ dq +:+ "0.6.0-preview.2" +:+ dq)
      end.

(** The object [{ releaseTag, ...versionData }] that [getVersion] returns. *)
Record Release : Type := mkRelease {
  releaseTag : string;
  versionData : VersionData
}.

(** [args.type || 'nightly'] *)
Definition release_type (args : gmap string value) : value :=
  if is_truthy (args !! "type") then default (VStr "nightly") (args !! "type")
  else VStr "nightly".

(** [getVersion(options)]: [options] is spread over the command-line
    arguments, so its properties win; the [switch] compares [type] with
    each case by [===]. *)
Definition getVersion (options : gmap string value) : Eff Release :=
  cli ← getArgs;
  let args : gmap string value := options ∪ cli in
  let type := release_type args in
  versionData ←
    (if is_string "nightly" (Some type) then getNightlyVersion
     else if is_string "stable" (Some type) then getStableVersion args
     else if is_string "preview" (Some type) then getPreviewVersion args
     else if is_string "patch" (Some type) then getPatchVersion (args !! "patch-from")
     else throw ("Unknown release type: " +:+ value_text type));
  _ ← validateVersionConflicts (releaseVersion versionData);
  mret {| releaseTag := "v" +:+ releaseVersion versionData;
          versionData := versionData |}.

(** ** The script as a program

    [JSON.stringify(value, null, 2)] for an object whose properties are
    strings, which is what [getVersion] returns. *)

(** A hexadecimal digit of a [\u] escape, in lower case. *)
Definition hex_digit (n : N) : ascii :=
  ascii_of_N (if (n <? 10)%N then 48 + n else 87 + n).

(** [QuoteJSONString], one code unit: the two-character escapes, [\u00XX]
    for the other control characters, and every other code unit as it
    is. *)
Definition quote_char (c : ascii) : string :=
  match c with
  | "008"%char => "\b"
  | "009"%char => "\t"
  | "010"%char => "\n"
  | "012"%char => "\f"
  | "013"%char => "\r"
  | "034"%char => "\" +:+ dq
  | "\"%char => "\\"
  | _ =>
      let n := N_of_ascii c in
      if (n <? 32)%N
      then "\u00" +:+ String (hex_digit (n / 16)) (String (hex_digit (n mod 16)) "")
      else String c ""
  end.

Fixpoint quote_body (s : string) : string :=
  match s with
  | String c s' => quote_char c +:+ quote_body s'
  | EmptyString => EmptyString
  end.

Definition quote (s : string) : string := dq +:+ quote_body s +:+ dq.

(** [SerializeJSONObject] with the gap of two spaces: the properties in
    the order of their creation, one on a line. *)
Definition stringify (properties : list (string * string)) : string :=
  match properties with
  | [] => "{}"
  | _ =>
      "{" +:+ String LF "  "
      +:+ join ("," +:+ String LF "  ")
               (List.map (fun p => quote (fst p) +:+ ": " +:+ quote (snd p)) properties)
      +:+ String LF "}"
  end.

(** The properties of [{ releaseTag, ...versionData }]. *)
Definition release_properties (r : Release) : list (string * string) :=
  [ ("releaseTag", releaseTag r);
    ("releaseVersion", releaseVersion (versionData r));
    ("npmTag", npmTag (versionData r));
    ("previousReleaseTag", previousReleaseTag (versionData r)) ].

(** The last statement of the script.  [module_path] is
    [fileURLToPath(import.meta.url)]; the result is what [console.log]
    wrote. *)
Definition main (module_path : string) : Eff (list string) :=
  argv ← process_argv;
  if match argv !! 1%nat with
     | Some path => String.eqb path module_path
     | None => false
     end
  then
    options ← getArgs;
    r ← getVersion options;
    mret [stringify (release_properties r)]
  else mret [].

(** ** Notions used to state the properties *)

(** A three-way comparison that is a total preorder: swapping the
    arguments flips the answer, and "not above" is transitive. *)
Record total_preorder {A : Type} (c : A -> A -> comparison) : Prop := {
  tp_antisym : forall x y, c x y = CompOpp (c y x);
  tp_trans : forall x y z, c x y <> Gt -> c y z <> Gt -> c x z <> Gt
}.

(** The tags that one answer of the tag store lists: its non-empty lines. *)
Definition reported_tags (out : string) : list string :=
  List.filter truthy (split LF (trim out)).

(** What it means for each source to report a version as present, in the
    terms of the conflict check: the registry lists it among all published
    versions, the tag store answers with its tag, the release host answers
    with its release.  A query that fails reports nothing. *)
Definition registry_has (w : World) (version : string) : bool :=
  match process_output w "npm view @google/gemini-cli versions --json" with
  | inl out =>
      match JSON.parse (trim out) with
      | Some allVersions => default false (includes_version allVersions version)
      | None => false
      end
  | inr _ => false
  end.

Definition tag_store_has (w : World) (version : string) : bool :=
  match process_output w ("git tag -l 'v" +:+ version +:+ "'") with
  | inl out => String.eqb (trim out) ("v" +:+ version)
  | inr _ => false
  end.

Definition release_host_has (w : World) (version : string) : bool :=
  match process_output w ("gh release view " +:+ dq +:+ "v" +:+ version +:+ dq
                          +:+ " --json tagName --jq .tagName") with
  | inl out => String.eqb (trim out) ("v" +:+ version)
  | inr _ => false
  end.

(** The entries of the conflict list, in the order of the checks. *)
Definition conflict_entries (w : World) (version : string) : list string :=
  (if registry_has w version
   then ["NPM registry already has version " +:+ version] else [])
  ++ (if tag_store_has w version
      then ["Git tag v" +:+ version +:+ " already exists"] else [])
  ++ (if release_host_has w version
      then ["GitHub release v" +:+ version +:+ " already exists"] else []).

(** [lacks c s]: the character [c] does not occur in [s]. *)
Definition lacks (c : ascii) (s : string) : bool :=
  all (fun d => negb (Ascii.eqb d c)) s.

(** The text of the version [major.minor.patch]. *)
Definition version_text (major minor patch : N) : string :=
  show_N major +:+ "." +:+ show_N minor +:+ "." +:+ show_N patch.

(** [YYYYMMDD] for a date whose year has four digits. *)
Definition yyyymmdd (d : Date) : string :=
  JsDate.pad 4 (Z.to_N (year d)) +:+ JsDate.pad 2 (month d) +:+ JsDate.pad 2 (day d).

(** The characters of a semantic version: letters, digits, the dash, the
    dot and the plus sign. *)
Definition version_char (c : ascii) : bool :=
  SemVer.is_letter_dash_number c || Ascii.eqb c "." || Ascii.eqb c "+".

(** [semver.gt(a, b)] for two texts that parse, and [false] where one of
    them does not: [a] has the higher precedence. *)
Definition newer (a b : string) : bool :=
  match SemVer.parse a, SemVer.parse b with
  | Some x, Some y => match SemVer.compare x y with Gt => true | _ => false end
  | _, _ => false
  end.







(** [JSON.stringify(list, null, 2)] for a list of strings, which is how
    the registry prints the versions of a package. *)
Definition stringify_list (l : list string) : string :=
  match l with
  | [] => "[]"
  | _ =>
      "[" +:+ String LF "  "
      +:+ join ("," +:+ String LF "  ") (List.map quote l)
      +:+ String LF "]"
  end.

(** A computation that does not read [process.argv]: it does the same in
    two worlds that differ in nothing else. *)
Definition ignores_argv {A : Type} (m : Eff A) : Prop :=
  forall (w : World) (args : list string),
    m (mkWorld (process_output w) (clock w) args) = m w.

(** ** Example worlds *)

(** A world whose processes answer from a table; a command that the table
    does not list fails. *)
Definition table_world (table : list (string * (string + string))) (d : Date)
  (args : list string) : World :=
  mkWorld (fun command =>
             match List.find (fun entry => String.eqb (fst entry) command) table with
             | Some entry => snd entry
             | None => inr ("Command failed: " +:+ command)
             end) d args.

(** One line of output. *)
Definition line (s : string) : string := s +:+ String LF "".

Definition release_query (tag : string) : string :=
  "gh release view " +:+ dq +:+ tag +:+ dq +:+ " --json tagName --jq .tagName".

Definition example_date : Date := mkDate 2025 9 17 1 2 3 4.

(** The three sources agree on every channel: nightly
    0.6.0-nightly.20250910.a31830a3, preview 0.5.0-preview.2, stable
    0.4.1.  The tag store lists its tags out of order. *)
Definition consistent_table : list (string * (string + string)) :=
  [ ("npm view @google/gemini-cli version --tag=nightly",
     inl (line "0.6.0-nightly.20250910.a31830a3"));
    ("git tag -l 'v*-nightly*'",
     inl (line "v0.6.0-nightly.20250910.a31830a3" +:+ line "v0.5.0-nightly.20250901.aaaaaaa"
          +:+ line "v0.6.0-nightly.20250909.fffffff"));
    (release_query "v0.6.0-nightly.20250910.a31830a3",
     inl (line "v0.6.0-nightly.20250910.a31830a3"));
    ("git rev-parse --short HEAD", inl (line "d3bf8a3d"));
    ("npm view @google/gemini-cli version --tag=preview", inl (line "0.5.0-preview.2"));
    ("git tag -l 'v*-preview*'",
     inl (line "v0.5.0-preview.1" +:+ line "v0.5.0-preview.2" +:+ line "v0.4.0-preview.10"));
    (release_query "v0.5.0-preview.2", inl (line "v0.5.0-preview.2"));
    ("npm view @google/gemini-cli version --tag=latest", inl (line "0.4.1"));
    ("git tag -l 'v[0-9].[0-9].[0-9]'",
     inl (line "v0.4.0" +:+ line "v0.4.1" +:+ line "v0.3.9"));
    (release_query "v0.4.1", inl (line "v0.4.1"));
    ("npm view @google/gemini-cli versions --json",
     inl (line ("[" +:+ dq +:+ "0.4.0" +:+ dq +:+ ", " +:+ dq +:+ "0.4.1" +:+ dq +:+ "]"))) ].

Definition consistent_world : World :=
  table_world consistent_table example_date ["node"; "get-release-version.js"].

(** The registry says that stable is 0.4.1 while the tag store has v0.4.2. *)
Definition drifted_world : World :=
  table_world
    (("git tag -l 'v[0-9].[0-9].[0-9]'", inl (line "v0.4.1" +:+ line "v0.4.2"))
     :: consistent_table)
    example_date ["node"; "get-release-version.js"].

(** Registry and tag store agree on stable 0.4.1, and the release host
    has no release of that tag. *)
Definition unreleased_world : World :=
  table_world
    ((release_query "v0.4.1", inr "Command failed: release not found")
     :: consistent_table)
    example_date ["node"; "get-release-version.js"].




(** The registry lists 0.4.1 and a text with a code unit above 255, which
    the registry writes with an escape; nothing else can be reached. *)
Definition escaped_registry_world : World :=
  table_world
    [ ("npm view @google/gemini-cli versions --json",
       inl (line ("[" +:+ dq +:+ "0.4.1" +:+ dq +:+ ", " +:+ dq +:+ "\u0100" +:+ dq +:+ "]"))) ]
    example_date ["node"; "get-release-version.js"].

(** Only the registry can be reached; it has published 0.4.0 and 0.4.1. *)
Definition registry_only_world : World :=
  table_world
    [ ("npm view @google/gemini-cli versions --json",
       inl (line ("[" +:+ dq +:+ "0.4.0" +:+ dq +:+ ", " +:+ dq +:+ "0.4.1" +:+ dq +:+ "]"))) ]
    example_date ["node"; "get-release-version.js"].

(** The nightly channel is consistent; on the preview channel the registry
    is ahead of the tag store. *)
Definition preview_drifted_world : World :=
  table_world
    (("npm view @google/gemini-cli version --tag=preview", inl (line "0.5.0-preview.3"))
     :: consistent_table)
    example_date ["node"; "get-release-version.js"].

(** The three sources agree that the latest preview is 0.5.0-preview.2abc. *)
Definition lenient_suffix_world : World :=
  table_world
    [ ("npm view @google/gemini-cli version --tag=preview", inl (line "0.5.0-preview.2abc"));
      ("git tag -l 'v*-preview*'",
       inl (line "v0.5.0-preview.1" +:+ line "v0.5.0-preview.2abc"));
      (release_query "v0.5.0-preview.2abc", inl (line "v0.5.0-preview.2abc")) ]
    example_date ["node"; "get-release-version.js"].

(** The command line selects a release type that does not exist. *)
Definition unknown_type_world : World :=
  table_world consistent_table example_date
    ["node"; "get-release-version.js"; "--type=hotfix"].

(** The command line asks for a patch and names no source. *)
Definition patch_without_source_world : World :=
  table_world consistent_table example_date
    ["node"; "get-release-version.js"; "--type=patch"].

(** [[A-Za-z]] *)
Definition is_letter (c : ascii) : bool :=
  let n := N_of_ascii c in
  ((65 <=? n)%N && (n <=? 90)%N) || ((97 <=? n)%N && (n <=? 122)%N).

(** The sources agree on every channel, and the registry has already
    published 0.4.2. *)
Definition reused_version_world : World :=
  table_world
    (("npm view @google/gemini-cli versions --json",
      inl (line ("[" +:+ dq +:+ "0.4.1" +:+ dq +:+ ", " +:+ dq +:+ "0.4.2" +:+ dq +:+ "]")))
     :: consistent_table)
    example_date ["node"; "get-release-version.js"].

(** The command line asks for a patch of the stable channel. *)
Definition patch_stable_cli_world : World :=
  table_world consistent_table example_date
    ["node"; "get-release-version.js"; "--type=patch"; "--patch-from=stable"].

(** * Properties *)

(** ** Outcomes and traces of the effect combinators *)

Lemma outcome_bind {A B : Type} (w : World) (m : Eff A) (k : A -> Eff B) :
  outcome w (m ≫= k) =
  match outcome w m with
  | Ok a => outcome w (k a)
  | Throw e => Throw e
  end.
Proof.
  unfold outcome, mbind, Eff_bind, bind.
  destruct (m w) as [[a|e] t]; simpl; [destruct (k a w)|]; reflexivity.
Qed.

Lemma queries_bind {A B : Type} (w : World) (m : Eff A) (k : A -> Eff B) :
  queries w (m ≫= k) =
  queries w m ++ match outcome w m with
                 | Ok a => queries w (k a)
                 | Throw _ => []
                 end.
Proof.
  unfold queries, outcome, mbind, Eff_bind, bind.
  destruct (m w) as [[a|e] t]; simpl; [destruct (k a w)|]; simpl; auto using app_nil_r.
Qed.

Lemma outcome_try_catch {A : Type} (w : World) (m : Eff A) (h : string -> Eff A) :
  outcome w (try_catch m h) =
  match outcome w m with
  | Ok a => Ok a
  | Throw e => outcome w (h e)
  end.
Proof.
  unfold outcome, try_catch.
  destruct (m w) as [[a|e] t]; simpl; [|destruct (h e w)]; reflexivity.
Qed.

Lemma queries_try_catch {A : Type} (w : World) (m : Eff A) (h : string -> Eff A) :
  queries w (try_catch m h) =
  queries w m ++ match outcome w m with
                 | Ok _ => []
                 | Throw e => queries w (h e)
                 end.
Proof.
  unfold queries, outcome, try_catch.
  destruct (m w) as [[a|e] t]; simpl; [|destruct (h e w)]; simpl; auto using app_nil_r.
Qed.

Lemma outcome_ret {A : Type} (w : World) (a : A) : outcome w (mret a) = Ok a.
Proof. reflexivity. Qed.

Lemma queries_ret {A : Type} (w : World) (a : A) : queries w (mret a) = [].
Proof. reflexivity. Qed.

Lemma outcome_throw {A : Type} (w : World) (e : string) : outcome w (@throw A e) = Throw e.
Proof. reflexivity. Qed.

Lemma queries_throw {A : Type} (w : World) (e : string) : queries w (@throw A e) = [].
Proof. reflexivity. Qed.

Lemma outcome_execSync (w : World) (c : string) :
  outcome w (execSync c) =
  match process_output w c with
  | inl out => Ok out
  | inr e => Throw e
  end.
Proof. reflexivity. Qed.

Lemma queries_execSync (w : World) (c : string) : queries w (execSync c) = [c].
Proof. reflexivity. Qed.

Create Rewrite HintDb eff.
#[local] Hint Rewrite @outcome_bind @queries_bind @outcome_try_catch @queries_try_catch
  @outcome_ret @queries_ret @outcome_throw @queries_throw
  outcome_execSync queries_execSync : eff.

(** Unfold the combinators of a computation down to the oracle. *)
Ltac eff := autorewrite with eff; simpl.

(** ** The two lookups never throw *)

Lemma getVersionFromNPM_outcome (w : World) (distTag : string) :
  outcome w (getVersionFromNPM distTag) =
  Ok match process_output w ("npm view @google/gemini-cli version --tag=" +:+ distTag) with
     | inl out => trim out
     | inr _ => ""
     end.
Proof.
  unfold getVersionFromNPM. eff.
  destruct (process_output w _); reflexivity.
Qed.

Lemma getVersionFromNPM_queries (w : World) (distTag : string) :
  queries w (getVersionFromNPM distTag) =
  ["npm view @google/gemini-cli version --tag=" +:+ distTag].
Proof.
  unfold getVersionFromNPM. eff.
  destruct (process_output w _); reflexivity.
Qed.

Lemma getLatestTag_total (w : World) (pattern : string) :
  exists tag, outcome w (getLatestTag pattern) = Ok tag.
Proof.
  unfold getLatestTag. eff.
  destruct (process_output w _); simpl; eauto.
  destruct (_ =? _)%nat; simpl; eauto.
  destruct (sort _ _); simpl; eauto.
Qed.

Lemma getLatestTag_queries (w : World) (pattern : string) :
  queries w (getLatestTag pattern) = ["git tag -l '" +:+ pattern +:+ "'"].
Proof.
  unfold getLatestTag. eff.
  destruct (process_output w _); simpl; auto.
  destruct (_ =? _)%nat; simpl; auto.
  destruct (sort _ _); simpl; auto.
Qed.

(** ** Discrepancy validation *)

Lemma verifyGitHubReleaseExists_outcome (w : World) (tagName : string) :
  outcome w (verifyGitHubReleaseExists tagName) =
  match process_output w ("gh release view " +:+ dq +:+ tagName +:+ dq
                          +:+ " --json tagName --jq .tagName") with
  | inl out =>
      if String.eqb (trim out) tagName then Ok tt
      else Throw ("Discrepancy found! Failed to verify GitHub release for " +:+ tagName
                  +:+ ". Error: " +:+ "Discrepancy found! NPM version " +:+ tagName
                  +:+ " is missing a corresponding GitHub release.")
  | inr e =>
      Throw ("Discrepancy found! Failed to verify GitHub release for " +:+ tagName
             +:+ ". Error: " +:+ e)
  end.
Proof.
  unfold verifyGitHubReleaseExists. eff.
  destruct (process_output w _) as [out|e]; simpl; [|reflexivity].
  destruct (String.eqb (trim out) tagName); reflexivity.
Qed.

Lemma verifyGitHubReleaseExists_queries (w : World) (tagName : string) :
  queries w (verifyGitHubReleaseExists tagName) =
  ["gh release view " +:+ dq +:+ tagName +:+ dq +:+ " --json tagName --jq .tagName"].
Proof.
  unfold verifyGitHubReleaseExists. eff.
  destruct (process_output w _) as [out|e]; simpl; [|reflexivity].
  destruct (String.eqb (trim out) tagName); reflexivity.
Qed.

(** The outcome and the trace of a channel validation, from what its two
    lookups return. *)
Lemma getAndVerifyTags_outcome
  (w : World) (npmDistTag gitTagPattern registryVersion tagStoreTag : string) :
  outcome w (getVersionFromNPM npmDistTag) = Ok registryVersion ->
  outcome w (getLatestTag gitTagPattern) = Ok tagStoreTag ->
  outcome w (getAndVerifyTags npmDistTag gitTagPattern) =
    if String.eqb ("v" +:+ registryVersion) tagStoreTag
    then match outcome w (verifyGitHubReleaseExists tagStoreTag) with
         | Ok _ => Ok (mkTags registryVersion tagStoreTag)
         | Throw e => Throw e
         end
    else Throw ("Discrepancy found! NPM " +:+ npmDistTag +:+ " tag ("
                +:+ registryVersion +:+ ") does not match latest git "
                +:+ npmDistTag +:+ " tag (" +:+ tagStoreTag +:+ ").").
Proof.
  intros Hv Ht. unfold getAndVerifyTags.
  rewrite outcome_bind, Hv, outcome_bind, Ht.
  destruct (String.eqb _ tagStoreTag); simpl; [|reflexivity].
  rewrite outcome_bind.
  destruct (outcome w (verifyGitHubReleaseExists tagStoreTag)); reflexivity.
Qed.

Lemma getAndVerifyTags_queries
  (w : World) (npmDistTag gitTagPattern registryVersion tagStoreTag : string) :
  outcome w (getVersionFromNPM npmDistTag) = Ok registryVersion ->
  outcome w (getLatestTag gitTagPattern) = Ok tagStoreTag ->
  queries w (getAndVerifyTags npmDistTag gitTagPattern) =
    [ "npm view @google/gemini-cli version --tag=" +:+ npmDistTag;
      "git tag -l '" +:+ gitTagPattern +:+ "'" ]
    ++ if String.eqb ("v" +:+ registryVersion) tagStoreTag
       then [ "gh release view " +:+ dq +:+ tagStoreTag +:+ dq
              +:+ " --json tagName --jq .tagName" ]
       else [].
Proof.
  intros Hv Ht. unfold getAndVerifyTags.
  rewrite queries_bind, Hv, getVersionFromNPM_queries.
  rewrite queries_bind, Ht, getLatestTag_queries.
  destruct (String.eqb _ tagStoreTag); simpl; [|reflexivity].
  rewrite queries_bind, verifyGitHubReleaseExists_queries.
  destruct (outcome w (verifyGitHubReleaseExists tagStoreTag)); reflexivity.
Qed.

(** Every error of a channel validation is a discrepancy error. *)
Lemma getAndVerifyTags_throws_discrepancy
  (w : World) (npmDistTag gitTagPattern e : string) :
  outcome w (getAndVerifyTags npmDistTag gitTagPattern) = Throw e ->
  startsWith "Discrepancy found!" e = true.
Proof.
  destruct (getLatestTag_total w gitTagPattern) as [T Ht].
  rewrite (getAndVerifyTags_outcome w npmDistTag gitTagPattern _ T
             (getVersionFromNPM_outcome w npmDistTag) Ht).
  rewrite verifyGitHubReleaseExists_outcome.
  destruct (String.eqb _ T); [|intros [= <-]; reflexivity].
  destruct (process_output w _) as [out|e']; [|intros [= <-]; reflexivity].
  destruct (String.eqb (trim out) T); [discriminate|intros [= <-]; reflexivity].
Qed.

(** C1.  A channel validation compares ["v" + registry version] with the
    highest tag of the tag store.  When they differ it throws the
    discrepancy error that names the channel and both values, and the
    release host is not asked.  When they agree it asks the release host
    for a release of exactly that tag, and throws a discrepancy error that
    names the tag when the release host answers with another name or the
    query fails.  It returns the version and the tag only when the three
    sources agree. *)
Theorem getAndVerifyTags_three_way_agreement
  (w : World) (npmDistTag gitTagPattern registryVersion tagStoreTag : string) :
  outcome w (getVersionFromNPM npmDistTag) = Ok registryVersion ->
  outcome w (getLatestTag gitTagPattern) = Ok tagStoreTag ->
  let registry_query := "npm view @google/gemini-cli version --tag=" +:+ npmDistTag in
  let tag_query := "git tag -l '" +:+ gitTagPattern +:+ "'" in
  let release_query :=
    "gh release view " +:+ dq +:+ tagStoreTag +:+ dq +:+ " --json tagName --jq .tagName" in
  let validation := getAndVerifyTags npmDistTag gitTagPattern in
  ("v" +:+ registryVersion <> tagStoreTag ->
   outcome w validation =
     Throw ("Discrepancy found! NPM " +:+ npmDistTag +:+ " tag (" +:+ registryVersion
            +:+ ") does not match latest git " +:+ npmDistTag +:+ " tag ("
            +:+ tagStoreTag +:+ ").")
   /\ queries w validation = [registry_query; tag_query])
  /\ ("v" +:+ registryVersion = tagStoreTag ->
      queries w validation = [registry_query; tag_query; release_query]
      /\ match process_output w release_query with
         | inl out =>
             if String.eqb (trim out) tagStoreTag
             then outcome w validation = Ok (mkTags registryVersion tagStoreTag)
             else outcome w validation =
                    Throw ("Discrepancy found! Failed to verify GitHub release for "
                           +:+ tagStoreTag +:+ ". Error: "
                           +:+ "Discrepancy found! NPM version " +:+ tagStoreTag
                           +:+ " is missing a corresponding GitHub release.")
         | inr e =>
             outcome w validation =
               Throw ("Discrepancy found! Failed to verify GitHub release for "
                      +:+ tagStoreTag +:+ ". Error: " +:+ e)
         end)
  /\ (forall tags, outcome w validation = Ok tags ->
      tags = mkTags registryVersion tagStoreTag
      /\ "v" +:+ registryVersion = tagStoreTag
      /\ exists out, process_output w release_query = inl out /\ trim out = tagStoreTag).
Proof.
  intros Hv Ht registry_query tag_query release_query validation.
  pose proof (getAndVerifyTags_queries w _ _ _ _ Hv Ht) as Hq.
  pose proof (getAndVerifyTags_outcome w _ _ _ _ Hv Ht) as Ho.
  fold validation registry_query tag_query release_query in Hq, Ho.
  rewrite verifyGitHubReleaseExists_outcome in Ho. fold release_query in Ho.
  split; [|split].
  - intros Hne. apply String.eqb_neq in Hne. rewrite Hne in Ho, Hq. auto.
  - intros Heq. apply String.eqb_eq in Heq. rewrite Heq in Ho, Hq.
    split; [exact Hq|].
    destruct (process_output w release_query) as [out|e]; [|exact Ho].
    destruct (String.eqb (trim out) tagStoreTag); exact Ho.
  - intros tags Hok. rewrite Hok in Ho.
    destruct (String.eqb ("v" +:+ registryVersion) tagStoreTag) eqn:Heq; [|discriminate].
    apply String.eqb_eq in Heq.
    destruct (process_output w release_query) as [out|e]; [|discriminate].
    destruct (String.eqb (trim out) tagStoreTag) eqn:Hout; [|discriminate].
    apply String.eqb_eq in Hout.
    split; [congruence|]. split; [exact Heq|]. eauto.
Qed.

(** ** Semantic-version precedence is a total preorder *)

Section TotalPreorder.
Context {A : Type} (c : A -> A -> comparison) (Hc : total_preorder c).

Lemma tp_refl x : c x x = Eq.
Proof.
  pose proof (tp_antisym c Hc x x) as H. destruct (c x x); simpl in H; congruence.
Qed.

Lemma tp_lt_le x y z : c x y = Lt -> c y z <> Gt -> c x z = Lt.
Proof.
  intros Hxy Hyz.
  assert (Hxz : c x z <> Gt) by (apply (tp_trans c Hc x y z); congruence).
  destruct (c x z) eqn:E; try congruence.
  exfalso. apply (tp_trans c Hc y z x); auto.
  - rewrite (tp_antisym c Hc), E. discriminate.
  - rewrite (tp_antisym c Hc), Hxy. reflexivity.
Qed.

Lemma tp_le_lt x y z : c x y <> Gt -> c y z = Lt -> c x z = Lt.
Proof.
  intros Hxy Hyz.
  assert (Hxz : c x z <> Gt) by (apply (tp_trans c Hc x y z); congruence).
  destruct (c x z) eqn:E; try congruence.
  exfalso. apply (tp_trans c Hc z x y); auto.
  - rewrite (tp_antisym c Hc), E. discriminate.
  - rewrite (tp_antisym c Hc), Hyz. reflexivity.
Qed.

Lemma tp_eq_eq x y z : c x y = Eq -> c y z = Eq -> c x z = Eq.
Proof.
  intros Hxy Hyz.
  assert (Hxz : c x z <> Gt) by (apply (tp_trans c Hc x y z); congruence).
  assert (Hzx : c z x <> Gt).
  { apply (tp_trans c Hc z y x); rewrite (tp_antisym c Hc); [rewrite Hyz|rewrite Hxy];
      discriminate. }
  rewrite (tp_antisym c Hc) in Hzx. destruct (c x z); simpl in *; congruence.
Qed.

(** A key function transports a total preorder. *)
Lemma tp_key {B : Type} (f : B -> A) : total_preorder (fun x y => c (f x) (f y)).
Proof.
  split; intros; [apply (tp_antisym c Hc)|eapply (tp_trans c Hc); eauto].
Qed.

(** The lexicographic combination with a second total preorder. *)
Lemma tp_lexi {B : Type} (d : B -> B -> comparison) (Hd : total_preorder d) :
  total_preorder (fun p q : A * B => SemVer.lexi (c (fst p) (fst q)) (d (snd p) (snd q))).
Proof.
  split.
  - intros [x1 x2] [y1 y2]; simpl.
    rewrite (tp_antisym c Hc x1 y1), (tp_antisym d Hd x2 y2).
    destruct (c y1 x1); reflexivity.
  - intros [x1 x2] [y1 y2] [z1 z2]; simpl. unfold SemVer.lexi.
    destruct (c x1 y1) eqn:E1; try congruence;
      destruct (c y1 z1) eqn:E2; try congruence; intros H1 H2.
    + rewrite (tp_eq_eq x1 y1 z1 E1 E2). eapply (tp_trans d Hd); eauto.
    + rewrite (tp_le_lt x1 y1 z1); congruence.
    + rewrite (tp_lt_le x1 y1 z1); congruence.
    + rewrite (tp_lt_le x1 y1 z1); congruence.
Qed.

End TotalPreorder.

Lemma tp_N : total_preorder N.compare.
Proof.
  split.
  - intros x y. apply N.compare_antisym.
  - intros x y z. rewrite !N.compare_le_iff. lia.
Qed.

Lemma tp_string : total_preorder OrdersEx.String_as_OT.compare.
Proof.
  pose proof OrdersEx.String_as_OT.lt_strorder as [Hirr Htr].
  assert (Hgt : forall x y, OrdersEx.String_as_OT.compare x y = Gt ->
                            OrdersEx.String_as_OT.compare y x = Lt).
  { intros x y E. destruct (OrdersEx.String_as_OT.compare_spec x y); congruence. }
  assert (Heq : forall x y, OrdersEx.String_as_OT.compare x y = Eq -> x = y).
  { intros x y E. destruct (OrdersEx.String_as_OT.compare_spec x y); congruence. }
  assert (Hnn : forall x, OrdersEx.String_as_OT.compare x x <> Lt).
  { intros x E. exact (Hirr x E). }
  assert (Htt : forall x y z, OrdersEx.String_as_OT.compare x y = Lt ->
                              OrdersEx.String_as_OT.compare y z = Lt ->
                              OrdersEx.String_as_OT.compare x z = Lt).
  { intros x y z. apply Htr. }
  split.
  - intros x y.
    destruct (OrdersEx.String_as_OT.compare x y) eqn:E1,
             (OrdersEx.String_as_OT.compare y x) eqn:E2; simpl; try reflexivity; exfalso.
    + apply Heq in E1; subst. exact (Hnn _ E2).
    + apply Heq in E1; subst. exact (Hnn _ (Hgt _ _ E2)).
    + apply Heq in E2; subst. exact (Hnn _ E1).
    + exact (Hnn _ (Htt _ _ _ E1 E2)).
    + apply Heq in E2; subst. exact (Hnn _ (Hgt _ _ E1)).
    + exact (Hnn _ (Htt _ _ _ (Hgt _ _ E1) (Hgt _ _ E2))).
  - intros x y z Hxy Hyz Hxz. apply Hgt in Hxz.
    destruct (OrdersEx.String_as_OT.compare x y) eqn:E1; try congruence;
      destruct (OrdersEx.String_as_OT.compare y z) eqn:E2; try congruence.
    + apply Heq in E1, E2; subst. exact (Hnn _ Hxz).
    + apply Heq in E1; subst. exact (Hnn _ (Htt _ _ _ E2 Hxz)).
    + apply Heq in E2; subst. exact (Hnn _ (Htt _ _ _ E1 Hxz)).
    + exact (Hnn _ (Htt _ _ _ E1 (Htt _ _ _ E2 Hxz))).
Qed.

Lemma tp_compareIdentifiers : total_preorder SemVer.compareIdentifiers.
Proof.
  split.
  - intros [x|x] [y|y]; simpl; auto.
    + apply (tp_antisym _ (tp_key _ tp_N to_double)).
    + apply (tp_antisym _ tp_string).
  - intros [x|x] [y|y] [z|z]; simpl; try congruence.
    + apply (tp_trans _ (tp_key _ tp_N to_double)).
    + apply (tp_trans _ tp_string).
Qed.

Lemma tp_compareIdentifierLists : total_preorder SemVer.compareIdentifierLists.
Proof.
  assert (Hanti : forall x y, SemVer.compareIdentifierLists x y
                              = CompOpp (SemVer.compareIdentifierLists y x)).
  { induction x as [|x xs IH]; intros [|y ys]; simpl; auto.
    rewrite (tp_antisym _ tp_compareIdentifiers x y), (IH ys).
    destruct (SemVer.compareIdentifiers y x); reflexivity. }
  split; [exact Hanti|].
  induction x as [|x xs IH]; intros [|y ys] [|z zs]; simpl; try congruence.
  unfold SemVer.lexi.
  destruct (SemVer.compareIdentifiers x y) eqn:E1; try congruence;
    destruct (SemVer.compareIdentifiers y z) eqn:E2; try congruence; intros H1 H2.
  - rewrite (tp_eq_eq _ tp_compareIdentifiers x y z E1 E2). eapply IH; eauto.
  - rewrite (tp_le_lt _ tp_compareIdentifiers x y z); congruence.
  - rewrite (tp_lt_le _ tp_compareIdentifiers x y z); congruence.
  - rewrite (tp_lt_le _ tp_compareIdentifiers x y z); congruence.
Qed.

Lemma tp_comparePre : total_preorder SemVer.comparePre.
Proof.
  split.
  - intros [|x xs] [|y ys]; simpl; auto.
    apply (tp_antisym _ tp_compareIdentifierLists (x :: xs) (y :: ys)).
  - intros [|x xs] [|y ys] [|z zs]; simpl; try congruence.
    apply (tp_trans _ tp_compareIdentifierLists (x :: xs) (y :: ys) (z :: zs)).
Qed.

Lemma tp_compare : total_preorder SemVer.compare.
Proof.
  pose proof (tp_lexi _ (tp_lexi _ tp_N _ (tp_lexi _ tp_N _ tp_N)) _ tp_comparePre) as H.
  exact (tp_key _ H
           (fun v => (SemVer.major v, (SemVer.minor v, SemVer.patch v), SemVer.prerelease v))).
Qed.

(** ** Sorting with a comparator *)

Section Sort.
Context (compare : string -> string -> comparison) (P : string -> Prop).
Context (Htotal : forall x y, P x -> P y -> compare x y = Gt -> compare y x <> Gt).
Context (Htrans : forall x y z, P x -> P y -> P z ->
                                compare x y <> Gt -> compare y z <> Gt -> compare x z <> Gt).

Lemma insert_Permutation x l : Permutation (x :: l) (insert compare x l).
Proof.
  induction l as [|y l IH]; simpl; [reflexivity|].
  destruct (compare x y); try reflexivity.
  rewrite perm_swap. by constructor.
Qed.

Lemma sort_Permutation l : Permutation l (sort compare l).
Proof.
  induction l as [|x l IH]; simpl; [reflexivity|].
  rewrite <- insert_Permutation. by constructor.
Qed.

Lemma insert_sorted x l :
  P x -> Forall P l ->
  StronglySorted (fun a b => compare a b <> Gt) l ->
  StronglySorted (fun a b => compare a b <> Gt) (insert compare x l).
Proof.
  intros Px Pl Hs. induction Hs as [|y l Hs IH Hy]; simpl.
  - repeat constructor.
  - apply Forall_cons in Pl as [Py Pl].
    destruct (compare x y) eqn:E.
    + constructor; [by constructor|]. constructor; [congruence|].
      rewrite Forall_forall in Hy, Pl |- *. intros z Hz.
      apply (Htrans x y z); [exact Px|exact Py|by apply Pl|congruence|by apply Hy].
    + constructor; [by constructor|]. constructor; [congruence|].
      rewrite Forall_forall in Hy, Pl |- *. intros z Hz.
      apply (Htrans x y z); [exact Px|exact Py|by apply Pl|congruence|by apply Hy].
    + constructor; [auto|].
      rewrite <- insert_Permutation. constructor; [|exact Hy].
      by apply Htotal.
Qed.

Lemma sort_sorted l :
  Forall P l -> StronglySorted (fun a b => compare a b <> Gt) (sort compare l).
Proof.
  induction l as [|x l IH]; simpl; intros Hl; [constructor|].
  apply Forall_cons in Hl as [Px Pl].
  apply insert_sorted; auto.
  by rewrite <- sort_Permutation.
Qed.

(** The first element of the sorted array is not below any element. *)
Lemma sort_head l v rest :
  Forall P l -> sort compare l = v :: rest ->
  In v l /\ forall u, In u l -> u = v \/ compare v u <> Gt.
Proof.
  intros Hl E. pose proof (sort_sorted l Hl) as Hs.
  pose proof (sort_Permutation l) as Hp. rewrite E in Hs, Hp.
  split.
  - apply (Permutation_in v (Permutation_sym Hp)). by left.
  - intros u Hu. apply (Permutation_in u Hp) in Hu.
    destruct Hu as [Hu|Hu]; [by left|right].
    apply StronglySorted_inv in Hs as [_ Hs].
    rewrite List.Forall_forall in Hs. by apply Hs.
Qed.

Lemma sort_nil l : sort compare l = [] -> l = [].
Proof.
  intros E. pose proof (sort_Permutation l) as Hp. rewrite E in Hp.
  by apply Permutation_nil_r in Hp.
Qed.

End Sort.

(** ** The latest tag of the tag store *)

(** The numbers up to 2^53 are doubles. *)
Lemma to_double_exact (n : N) : (n <= 2 ^ 53)%N -> to_double n = n.
Proof.
  intros Hn. unfold to_double.
  destruct (N.leb_spec (N.size n) 53) as [|Hsize]; [reflexivity|].
  assert (E : n = (2 ^ 53)%N).
  { pose proof (N.size_le n) as Hle.
    assert (2 ^ 54 <= 2 ^ N.size n)%N by (apply N.pow_le_mono_r; lia).
    change (2 ^ 54)%N with (2 * 2 ^ 53)%N in *. lia. }
  subst n. by vm_compute.
Qed.




Lemma rcompare_valid (a b : string) :
  SemVer.valid a = true -> SemVer.valid b = true ->
  exists pa pb, SemVer.parse a = Some pa /\ SemVer.parse b = Some pb
                /\ SemVer.rcompare a b = SemVer.compare pb pa.
Proof.
  unfold SemVer.valid, SemVer.rcompare.
  destruct (SemVer.parse a) as [pa|], (SemVer.parse b) as [pb|]; try discriminate.
  eauto.
Qed.

Lemma rcompare_total (x y : string) :
  SemVer.valid x = true -> SemVer.valid y = true ->
  SemVer.rcompare x y = Gt -> SemVer.rcompare y x <> Gt.
Proof.
  intros Hx Hy.
  destruct (rcompare_valid x y Hx Hy) as (px & py & Ex & Ey & ->).
  unfold SemVer.rcompare. rewrite Ex, Ey.
  rewrite (tp_antisym _ tp_compare px py). intros ->. discriminate.
Qed.

Lemma rcompare_trans (x y z : string) :
  SemVer.valid x = true -> SemVer.valid y = true -> SemVer.valid z = true ->
  SemVer.rcompare x y <> Gt -> SemVer.rcompare y z <> Gt -> SemVer.rcompare x z <> Gt.
Proof.
  intros Hx Hy Hz.
  destruct (rcompare_valid x y Hx Hy) as (px & py & Ex & Ey & ->).
  unfold SemVer.rcompare. rewrite Ex, Ey.
  unfold SemVer.valid in Hz. destruct (SemVer.parse z) as [pz|]; [|discriminate].
  intros H1 H2. exact (tp_trans _ tp_compare pz py px H2 H1).
Qed.

(** What [getLatestTag] computes from an answer of the tag store. *)
Lemma getLatestTag_outcome (w : World) (pattern : string) :
  outcome w (getLatestTag pattern) =
  Ok match process_output w ("git tag -l '" +:+ pattern +:+ "'") with
     | inl out =>
         match sort (fun a b => SemVer.rcompare a b)
                    (List.filter SemVer.valid (List.map strip_v (reported_tags out))) with
         | [] => ""
         | v :: _ => "v" +:+ v
         end
     | inr _ => ""
     end.
Proof.
  unfold getLatestTag. eff.
  destruct (process_output w _) as [out|e]; simpl; [|reflexivity].
  fold (reported_tags out).
  destruct (reported_tags out) as [|t ts]; simpl; [reflexivity|].
  destruct (sort _ _); reflexivity.
Qed.


(** The version that [getLatestTag] selects among the reported tags. *)
Lemma latest_version_selected (tags : list string) :
  match sort (fun a b => SemVer.rcompare a b)
             (List.filter SemVer.valid (List.map strip_v tags)) with
  | [] => forall tag, In tag tags -> SemVer.valid (strip_v tag) = false
  | v :: _ =>
      exists tag pv,
        In tag tags /\ strip_v tag = v /\ SemVer.parse v = Some pv
        /\ forall tag' pu, In tag' tags -> SemVer.parse (strip_v tag') = Some pu ->
                           SemVer.compare pu pv <> Gt
  end.
Proof.
  set (versions := List.filter SemVer.valid (List.map strip_v tags)).
  assert (Hall : Forall (fun x => SemVer.valid x = true) versions).
  { apply List.Forall_forall. intros x Hx. by apply filter_In in Hx as [_ Hx]. }
  destruct (sort _ versions) as [|v rest] eqn:E.
  - apply sort_nil in E. intros tag Htag.
    destruct (SemVer.valid (strip_v tag)) eqn:Hv; [|reflexivity].
    assert (In (strip_v tag) versions) as Hin.
    { apply filter_In. split; [|exact Hv]. by apply in_map. }
    rewrite E in Hin. destruct Hin.
  - destruct (sort_head _ _ rcompare_total rcompare_trans versions v rest Hall E)
      as [Hin Hmax].
    apply filter_In in Hin as [Hin Hv].
    apply in_map_iff in Hin as (tag & Htag & Hin).
    unfold SemVer.valid in Hv. destruct (SemVer.parse v) as [pv|] eqn:Ev; [|discriminate].
    exists tag, pv. repeat split; auto.
    intros tag' pu Hin' Eu.
    assert (In (strip_v tag') versions) as Hu.
    { apply filter_In. split; [by apply in_map|]. unfold SemVer.valid. by rewrite Eu. }
    destruct (Hmax _ Hu) as [Heq|Hle].
    + rewrite Heq, Ev in Eu. injection Eu as ->.
      rewrite (tp_refl _ tp_compare). discriminate.
    + unfold SemVer.rcompare in Hle. by rewrite Eu, Ev in Hle.
Qed.



(** The stable channel in three worlds: consistent, drifted between
    registry and tag store, and without a release. *)
Lemma getAndVerifyTags_three_way_agreement_witness :
  outcome consistent_world (getAndVerifyTags "latest" "v[0-9].[0-9].[0-9]")
  = Ok (mkTags "0.4.1" "v0.4.1")
  /\ outcome drifted_world (getAndVerifyTags "latest" "v[0-9].[0-9].[0-9]")
     = Throw "Discrepancy found! NPM latest tag (0.4.1) does not match latest git latest tag (v0.4.2)."
  /\ outcome unreleased_world (getAndVerifyTags "latest" "v[0-9].[0-9].[0-9]")
     = Throw "Discrepancy found! Failed to verify GitHub release for v0.4.1. Error: Command failed: release not found".
Proof.
  split; [|split].
  - pose proof (getAndVerifyTags_three_way_agreement consistent_world
                  "latest" "v[0-9].[0-9].[0-9]" "0.4.1" "v0.4.1") as H.
    specialize (H ltac:(vm_compute; reflexivity) ltac:(vm_compute; reflexivity)).
    cbv zeta in H. destruct H as (_ & H & _).
    specialize (H ltac:(vm_compute; reflexivity)). destruct H as [_ H].
    vm_compute in H. vm_compute. exact H.
  - pose proof (getAndVerifyTags_three_way_agreement drifted_world
                  "latest" "v[0-9].[0-9].[0-9]" "0.4.1" "v0.4.2") as H.
    specialize (H ltac:(vm_compute; reflexivity) ltac:(vm_compute; reflexivity)).
    cbv zeta in H. destruct H as (H & _ & _).
    specialize (H ltac:(vm_compute; discriminate)). destruct H as [H _].
    vm_compute in H. vm_compute. exact H.
  - pose proof (getAndVerifyTags_three_way_agreement unreleased_world
                  "latest" "v[0-9].[0-9].[0-9]" "0.4.1" "v0.4.1") as H.
    specialize (H ltac:(vm_compute; reflexivity) ltac:(vm_compute; reflexivity)).
    cbv zeta in H. destruct H as (_ & H & _).
    specialize (H ltac:(vm_compute; reflexivity)). destruct H as [_ H].
    vm_compute in H. vm_compute. exact H.
Defined.


(** ** The conflict check *)

(** The three checks of the conflict list, one at a time: each runs its
    command, adds its entry to the list when the source reports the
    version, and returns the list unchanged otherwise. *)
Lemma registry_check (w : World) (newVersion : string) (conflicts : list string) :
  let check :=
    try_catch
      (out ← execSync "npm view @google/gemini-cli versions --json";
       match JSON.parse (trim out) with
       | None => throw "SyntaxError"
       | Some allVersions =>
           match includes_version allVersions newVersion with
           | None => throw "allVersions.includes is not a function"
           | Some true =>
               mret (conflicts ++ ["NPM registry already has version " +:+ newVersion])
           | Some false => mret conflicts
           end
       end)
      (fun _ => mret conflicts) in
  outcome w check =
    Ok (conflicts ++ if registry_has w newVersion
                     then ["NPM registry already has version " +:+ newVersion] else [])
  /\ queries w check = ["npm view @google/gemini-cli versions --json"].
Proof.
  intros check. unfold check, registry_has.
  rewrite outcome_try_catch, queries_try_catch, outcome_bind, queries_bind,
    outcome_execSync, queries_execSync.
  destruct (process_output w _) as [out|e]; cbn [default from_option id];
    [|by rewrite app_nil_r].
  destruct (JSON.parse (trim out)) as [allVersions|]; [|by rewrite app_nil_r].
  destruct (includes_version allVersions newVersion) as [[]|];
    cbn [default from_option id]; by rewrite ?app_nil_r.
Qed.

Lemma tag_store_check (w : World) (newVersion : string) (conflicts : list string) :
  let check :=
    try_catch
      (out ← execSync ("git tag -l 'v" +:+ newVersion +:+ "'");
       if String.eqb (trim out) ("v" +:+ newVersion) then
         mret (conflicts ++ ["Git tag v" +:+ newVersion +:+ " already exists"])
       else mret conflicts)
      (fun _ => mret conflicts) in
  outcome w check =
    Ok (conflicts ++ if tag_store_has w newVersion
                     then ["Git tag v" +:+ newVersion +:+ " already exists"] else [])
  /\ queries w check = ["git tag -l 'v" +:+ newVersion +:+ "'"].
Proof.
  intros check. unfold check, tag_store_has.
  rewrite outcome_try_catch, queries_try_catch, outcome_bind, queries_bind,
    outcome_execSync, queries_execSync.
  destruct (process_output w _) as [out|e]; [|by rewrite app_nil_r].
  destruct (String.eqb (trim out) _); by rewrite ?app_nil_r.
Qed.

Lemma release_host_check (w : World) (newVersion : string) (conflicts : list string) :
  let check :=
    try_catch
      (out ← execSync ("gh release view " +:+ dq +:+ "v" +:+ newVersion +:+ dq
                       +:+ " --json tagName --jq .tagName");
       if String.eqb (trim out) ("v" +:+ newVersion) then
         mret (conflicts ++ ["GitHub release v" +:+ newVersion +:+ " already exists"])
       else mret conflicts)
      (fun _ => mret conflicts) in
  outcome w check =
    Ok (conflicts ++ if release_host_has w newVersion
                     then ["GitHub release v" +:+ newVersion +:+ " already exists"] else [])
  /\ queries w check =
       ["gh release view " +:+ dq +:+ "v" +:+ newVersion +:+ dq
        +:+ " --json tagName --jq .tagName"].
Proof.
  intros check. unfold check, release_host_has.
  rewrite outcome_try_catch, queries_try_catch, outcome_bind, queries_bind,
    outcome_execSync, queries_execSync.
  destruct (process_output w _) as [out|e]; [|by rewrite app_nil_r].
  destruct (String.eqb (trim out) _); by rewrite ?app_nil_r.
Qed.

Lemma validateVersionConflicts_outcome (w : World) (newVersion : string) :
  outcome w (validateVersionConflicts newVersion) =
    match conflict_entries w newVersion with
    | [] => Ok tt
    | conflicts =>
        Throw ("Version conflict! Cannot create " +:+ newVersion +:+ ":"
               +:+ String LF "" +:+ join (String LF "") conflicts)
    end.
Proof.
  unfold validateVersionConflicts. cbv zeta.
  rewrite outcome_bind, (proj1 (registry_check w newVersion [])). cbv beta iota.
  rewrite outcome_bind, (proj1 (tag_store_check w newVersion _)). cbv beta iota.
  rewrite outcome_bind, (proj1 (release_host_check w newVersion _)). cbv beta iota.
  rewrite app_nil_l, <- app_assoc. fold (conflict_entries w newVersion).
  destruct (conflict_entries w newVersion); reflexivity.
Qed.

Lemma validateVersionConflicts_queries (w : World) (newVersion : string) :
  queries w (validateVersionConflicts newVersion) =
    [ "npm view @google/gemini-cli versions --json";
      "git tag -l 'v" +:+ newVersion +:+ "'";
      "gh release view " +:+ dq +:+ "v" +:+ newVersion +:+ dq
        +:+ " --json tagName --jq .tagName" ].
Proof.
  unfold validateVersionConflicts. cbv zeta.
  rewrite queries_bind, (proj1 (registry_check w newVersion [])),
    (proj2 (registry_check w newVersion [])). cbv beta iota.
  rewrite queries_bind, (proj1 (tag_store_check w newVersion _)),
    (proj2 (tag_store_check w newVersion _)). cbv beta iota.
  rewrite queries_bind, (proj1 (release_host_check w newVersion _)),
    (proj2 (release_host_check w newVersion _)). cbv beta iota.
  destruct (0 <? length _)%nat; reflexivity.
Qed.

Lemma units_eqb_refl (u : list N) : units_eqb u u = true.
Proof. induction u as [|x u IH]; [reflexivity|]. cbn [units_eqb]. by rewrite N.eqb_refl. Qed.

(** C3.  The conflict check always queries the three sources for the
    computed version; each source that reports it contributes one entry;
    a non-empty list throws one error that enumerates the entries, and an
    empty one returns.  A query that fails contributes nothing: a version
    that the registry lists is reported even when the tag store and the
    release host both fail. *)
Theorem validateVersionConflicts_aggregates (w : World) (newVersion : string) :
  queries w (validateVersionConflicts newVersion) =
    [ "npm view @google/gemini-cli versions --json";
      "git tag -l 'v" +:+ newVersion +:+ "'";
      "gh release view " +:+ dq +:+ "v" +:+ newVersion +:+ dq
        +:+ " --json tagName --jq .tagName" ]
  /\ outcome w (validateVersionConflicts newVersion) =
       match conflict_entries w newVersion with
       | [] => Ok tt
       | conflicts =>
           Throw ("Version conflict! Cannot create " +:+ newVersion +:+ ":"
                  +:+ String LF "" +:+ join (String LF "") conflicts)
       end
  /\ (forall out allVersions e1 e2,
        process_output w "npm view @google/gemini-cli versions --json" = inl out ->
        JSON.parse (trim out) = Some (JSON.JArray allVersions) ->
        In (JSON.JString (units newVersion)) allVersions ->
        process_output w ("git tag -l 'v" +:+ newVersion +:+ "'") = inr e1 ->
        process_output w ("gh release view " +:+ dq +:+ "v" +:+ newVersion +:+ dq
                          +:+ " --json tagName --jq .tagName") = inr e2 ->
        outcome w (validateVersionConflicts newVersion) =
          Throw ("Version conflict! Cannot create " +:+ newVersion +:+ ":"
                 +:+ String LF "" +:+ "NPM registry already has version " +:+ newVersion)).
Proof.
  split; [apply validateVersionConflicts_queries|].
  split; [apply validateVersionConflicts_outcome|].
  intros out allVersions e1 e2 Hnpm Hjson Hin Hgit Hgh.
  rewrite validateVersionConflicts_outcome.
  unfold conflict_entries, registry_has, tag_store_has, release_host_has.
  rewrite Hnpm, Hjson, Hgit, Hgh.
  assert (E : includes_version (JSON.JArray allVersions) newVersion = Some true).
  { simpl. f_equal. apply existsb_exists. exists (JSON.JString (units newVersion)).
    split; [exact Hin|]. apply units_eqb_refl. }
  rewrite E. reflexivity.
Qed.

(** The registry lists 0.4.1 while the tag store and the release host
    cannot be reached; the other listed text does not matter, also where
    it holds an escaped code unit above 255. *)
Lemma validateVersionConflicts_aggregates_witness :
  outcome registry_only_world (validateVersionConflicts "0.4.1") =
    Throw ("Version conflict! Cannot create 0.4.1:" +:+ String LF ""
           +:+ "NPM registry already has version 0.4.1")
  /\ outcome escaped_registry_world (validateVersionConflicts "0.4.1") =
       Throw ("Version conflict! Cannot create 0.4.1:" +:+ String LF ""
              +:+ "NPM registry already has version 0.4.1")
  /\ outcome registry_only_world (validateVersionConflicts "0.4.2") = Ok tt.
Proof.
  split; [|split].
  - destruct (validateVersionConflicts_aggregates registry_only_world "0.4.1")
      as (_ & _ & H).
    apply (H (line ("[" +:+ dq +:+ "0.4.0" +:+ dq +:+ ", " +:+ dq +:+ "0.4.1" +:+ dq +:+ "]"))
             [JSON.JString (units "0.4.0"); JSON.JString (units "0.4.1")]
             "Command failed: git tag -l 'v0.4.1'"
             ("Command failed: " +:+ release_query "v0.4.1"));
      vm_compute; auto.
  - destruct (validateVersionConflicts_aggregates escaped_registry_world "0.4.1")
      as (_ & _ & H).
    apply (H (line ("[" +:+ dq +:+ "0.4.1" +:+ dq +:+ ", " +:+ dq +:+ "\u0100" +:+ dq +:+ "]"))
             [JSON.JString (units "0.4.1"); JSON.JString [256%N]]
             "Command failed: git tag -l 'v0.4.1'"
             ("Command failed: " +:+ release_query "v0.4.1"));
      vm_compute; auto.
  - destruct (validateVersionConflicts_aggregates registry_only_world "0.4.2")
      as (_ & H & _).
    rewrite H. vm_compute. reflexivity.
Defined.

(** ** Strings and numbers *)

Lemma all_cons (p : ascii -> bool) (c : ascii) (s : string) :
  all p (String c s) = p c && all p s.
Proof. reflexivity. Qed.

Lemma append_cons (c : ascii) (a b : string) : String c a +:+ b = String c (a +:+ b).
Proof. reflexivity. Qed.

Lemma append_nil_l (b : string) : "" +:+ b = b.
Proof. reflexivity. Qed.

Lemma append_nil_r (a : string) : a +:+ "" = a.
Proof. induction a as [|c a IH]; [reflexivity|]. by rewrite append_cons, IH. Qed.

Lemma append_assoc (a b c : string) : (a +:+ b) +:+ c = a +:+ (b +:+ c).
Proof. induction a as [|d a IH]; [reflexivity|]. by rewrite !append_cons, IH. Qed.

Lemma all_app (p : ascii -> bool) (a b : string) :
  all p (a +:+ b) = all p a && all p b.
Proof.
  induction a as [|c a IH]; [reflexivity|].
  rewrite append_cons, !all_cons, IH. apply andb_assoc.
Qed.

Lemma all_impl (p q : ascii -> bool) (s : string) :
  (forall c, p c = true -> q c = true) -> all p s = true -> all q s = true.
Proof.
  intros Hpq. induction s as [|c s IH]; [reflexivity|].
  rewrite !all_cons, !andb_true_iff. intros [Hc Hs]. auto.
Qed.

Lemma digit_is_not (c d : ascii) :
  is_digit d = false -> is_digit c = true -> negb (Ascii.eqb c d) = true.
Proof.
  intros Hd Hc. destruct (Ascii.eqb c d) eqn:E; [|reflexivity].
  apply Ascii.eqb_eq in E. congruence.
Qed.

Lemma digits_lack (d : ascii) (s : string) :
  is_digit d = false -> all is_digit s = true -> lacks d s = true.
Proof. intros Hd. apply all_impl. intros c. by apply digit_is_not. Qed.

Lemma string_of_uint_digits (d : Decimal.uint) :
  all is_digit (NilEmpty.string_of_uint d) = true.
Proof. induction d; simpl; auto. Qed.

Lemma show_N_digits (n : N) : all is_digit (show_N n) = true.
Proof. apply string_of_uint_digits. Qed.

Lemma to_uint_nonnil (n : N) : N.to_uint n <> Decimal.Nil.
Proof. destruct n; simpl; [discriminate|apply DecimalPos.Unsigned.to_uint_nonnil]. Qed.

Lemma show_N_truthy (n : N) : truthy (show_N n) = true.
Proof.
  unfold show_N. pose proof (to_uint_nonnil n) as H.
  destruct (N.to_uint n); simpl; congruence.
Qed.

Lemma span_digits (s : string) :
  all is_digit s = true -> span is_digit s = (s, "").
Proof.
  induction s as [|c s IH]; [reflexivity|].
  rewrite all_cons, andb_true_iff. intros [Hc Hs].
  cbn [span]. by rewrite Hc, (IH Hs).
Qed.

Lemma dec_to_N_show (n : N) : dec_to_N (show_N n) = n.
Proof.
  unfold dec_to_N, show_N. rewrite NilEmpty.usu. apply DecimalN.Unsigned.of_to.
Qed.

Lemma digit_not_space (c : ascii) : is_digit c = true -> is_space c = false.
Proof. destruct c as [[] [] [] [] [] [] [] []]; try discriminate; reflexivity. Qed.

(** [parseInt] reads back the decimal text of a number. *)
Lemma parseInt_show_N (n : N) : parseInt (show_N n) = Num (Z.of_N n).
Proof.
  rewrite <- (dec_to_N_show n) at 2.
  pose proof (show_N_digits n) as Hd. pose proof (show_N_truthy n) as Ht.
  destruct (show_N n) as [|c s]; [discriminate|].
  rewrite all_cons, andb_true_iff in Hd. destruct Hd as [Hc Hs].
  assert (Hsp : span is_digit (String c s) = (String c s, ""))
    by (apply span_digits; rewrite all_cons, Hc, Hs; reflexivity).
  destruct s as [|c' s'].
  - destruct c as [[] [] [] [] [] [] [] []]; try discriminate Hc; reflexivity.
  - rewrite all_cons, andb_true_iff in Hs. destruct Hs as [Hc' Hs'].
    unfold parseInt. cbn [trimStart]. rewrite (digit_not_space c Hc).
    destruct c as [[] [] [] [] [] [] [] []]; try discriminate Hc;
      cbv beta iota; try (rewrite Hsp; reflexivity).
    destruct c' as [[] [] [] [] [] [] [] []]; try discriminate Hc';
      cbv beta iota; rewrite Hsp; reflexivity.
Qed.

Lemma toString_succ (n : N) : toString (succ (Num (Z.of_N n))) = show_N (n + 1).
Proof.
  cbn [succ toString].
  replace (Z.of_N n + 1) with (Z.of_N (n + 1)) by lia.
  rewrite Zabs2N.id. destruct (Z.ltb_spec (Z.of_N (n + 1)) 0); [lia|reflexivity].
Qed.

Lemma split_nonempty (sep : ascii) (s : string) : split sep s <> [].
Proof.
  induction s as [|c s IH]; cbn [split]; [discriminate|].
  destruct (Ascii.eqb c sep); [discriminate|].
  destruct (split sep s); [contradiction|discriminate].
Qed.

(** A text without the separator is one piece. *)
Lemma split_lacks (sep : ascii) (s : string) :
  lacks sep s = true -> split sep s = [s].
Proof.
  unfold lacks. induction s as [|c s IH]; [reflexivity|].
  rewrite all_cons, andb_true_iff, negb_true_iff. intros [Hc Hs].
  cbn [split]. by rewrite Hc, (IH Hs).
Qed.

(** The first piece ends at the first separator. *)
Lemma split_app (sep : ascii) (a b : string) :
  lacks sep a = true -> split sep (a +:+ String sep b) = a :: split sep b.
Proof.
  unfold lacks. induction a as [|c a IH].
  - intros _. rewrite append_nil_l. cbn [split]. by rewrite Ascii.eqb_refl.
  - rewrite all_cons, andb_true_iff, negb_true_iff. intros [Hc Ha].
    rewrite append_cons. cbn [split]. by rewrite Hc, (IH Ha).
Qed.

Lemma lacks_app (c : ascii) (a b : string) :
  lacks c (a +:+ b) = lacks c a && lacks c b.
Proof. apply all_app. Qed.

Lemma show_N_lacks (c : ascii) (n : N) : is_digit c = false -> lacks c (show_N n) = true.
Proof. intros Hc. apply digits_lack; [exact Hc|apply show_N_digits]. Qed.

Lemma version_text_lacks_dash (M m p : N) : lacks "-" (version_text M m p) = true.
Proof.
  unfold version_text.
  rewrite !lacks_app, !show_N_lacks by reflexivity. reflexivity.
Qed.

Lemma split_version_text (M m p : N) :
  split "." (version_text M m p) = [show_N M; show_N m; show_N p].
Proof.
  unfold version_text.
  change ("." +:+ show_N m +:+ "." +:+ show_N p)
    with (String "." (show_N m +:+ String "." (show_N p))).
  rewrite !split_app, split_lacks by (by apply show_N_lacks). reflexivity.
Qed.

(** The pieces of a version with a suffix that is empty or starts with a
    dash: the first piece is the version. *)
Lemma split_dash_version (M m p : N) (suffix : string) :
  suffix = "" \/ startsWith "-" suffix = true ->
  first (split "-" (version_text M m p +:+ suffix)) = version_text M m p.
Proof.
  intros [->|H].
  - rewrite append_nil_r, split_lacks by apply version_text_lacks_dash. reflexivity.
  - destruct suffix as [|c r]; [discriminate|].
    cbn [startsWith] in H. apply andb_true_iff in H as [H _].
    apply Ascii.eqb_eq in H. subst c.
    rewrite split_app by apply version_text_lacks_dash. reflexivity.
Qed.

Lemma startsWith_app (lit rest : string) : startsWith lit (lit +:+ rest) = true.
Proof.
  induction lit as [|c lit IH]; [reflexivity|].
  rewrite append_cons. cbn [startsWith]. by rewrite Ascii.eqb_refl, IH.
Qed.

Lemma drop_app (lit rest : string) : drop (String.length lit) (lit +:+ rest) = rest.
Proof. induction lit as [|c lit IH]; [by destruct rest|]. exact IH. Qed.

Lemma after_dot_star_line (rest : string) :
  all (fun c => negb (is_line_terminator c)) rest = true -> after_dot_star rest = "".
Proof.
  induction rest as [|c rest IH]; [reflexivity|].
  rewrite all_cons, andb_true_iff, negb_true_iff. intros [Hc Hr].
  cbn [after_dot_star]. by rewrite Hc, (IH Hr).
Qed.

(** [replace(/-lit.*/, '')] cuts a text at its first dash when the literal
    follows that dash and the line ends with the text. *)
Lemma replace_lit_dot_star_cut (lit base rest : string) :
  lacks "-" base = true ->
  all (fun c => negb (is_line_terminator c)) rest = true ->
  replace_lit_dot_star (String "-" lit) (base +:+ String "-" lit +:+ rest) = base.
Proof.
  intros Hb Hr. unfold lacks in Hb. induction base as [|c base IH].
  - rewrite append_nil_l.
    destruct (String "-" lit +:+ rest) as [|d t] eqn:E; [discriminate|].
    cbn [replace_lit_dot_star]. rewrite <- E.
    by rewrite startsWith_app, drop_app, after_dot_star_line.
  - rewrite all_cons, andb_true_iff, negb_true_iff in Hb. destruct Hb as [Hc Hb].
    rewrite append_cons. cbn [replace_lit_dot_star startsWith].
    rewrite (Ascii.eqb_sym "-" c), Hc. cbn [andb]. by rewrite (IH Hb).
Qed.

Lemma digits_no_line_terminator (s : string) :
  all is_digit s = true -> all (fun c => negb (is_line_terminator c)) s = true.
Proof.
  apply all_impl. intros c.
  destruct c as [[] [] [] [] [] [] [] []]; try discriminate; reflexivity.
Qed.

(** ** The date stamp *)

(** A property checked for every number below a bound. *)
Lemma checked_below (P : N -> bool) (bound : nat) :
  forallb (fun k => P (N.of_nat k)) (seq 0 bound) = true ->
  forall n, (n < N.of_nat bound)%N -> P n = true.
Proof.
  intros H n Hn. rewrite forallb_forall in H.
  specialize (H (N.to_nat n)). rewrite N2Nat.id in H.
  apply H, in_seq. lia.
Qed.

Lemma pad_2_length (n : N) : (n < 100)%N -> String.length (JsDate.pad 2 n) = 2%nat.
Proof.
  intros H.
  apply Nat.eqb_eq, (checked_below (fun n => String.length (JsDate.pad 2 n) =? 2)%nat 100);
    [by vm_compute|exact H].
Qed.

Lemma pad_4_length (n : N) : (n < 10000)%N -> String.length (JsDate.pad 4 n) = 4%nat.
Proof.
  intros H.
  apply Nat.eqb_eq, (checked_below (fun n => String.length (JsDate.pad 4 n) =? 4)%nat (100 * 100));
    [by vm_compute|exact H].
Qed.

Lemma pad_digits (width : nat) (n : N) : all is_digit (JsDate.pad width n) = true.
Proof.
  unfold JsDate.pad. rewrite all_app, show_N_digits, andb_true_r.
  induction (width - String.length (show_N n))%nat as [|k IH]; [reflexivity|exact IH].
Qed.

Lemma digit_not_dash (c : ascii) : is_digit c = true -> Ascii.eqb c "-" = false.
Proof. destruct c as [[] [] [] [] [] [] [] []]; try discriminate; reflexivity. Qed.

(** The first ten characters of the ISO text of a date with a four-digit
    year, without their dashes, are [YYYYMMDD]. *)
Lemma date_stamp_yyyymmdd (d : Date) :
  0 <= year d <= 9999 -> (month d < 100)%N -> (day d < 100)%N ->
  date_stamp d = yyyymmdd d.
Proof.
  intros Hy Hm Hd. unfold date_stamp, yyyymmdd, JsDate.toISOString.
  destruct (Z.leb_spec 0 (year d)); [|lia].
  destruct (Z.leb_spec (year d) 9999); [|lia]. cbn [andb].
  pose proof (pad_4_length (Z.to_N (year d)) ltac:(lia)) as Ly.
  pose proof (pad_2_length (month d) Hm) as Lm.
  pose proof (pad_2_length (day d) Hd) as Ld.
  pose proof (pad_digits 4 (Z.to_N (year d))) as Dy.
  pose proof (pad_digits 2 (month d)) as Dm.
  pose proof (pad_digits 2 (day d)) as Dd.
  destruct (JsDate.pad 4 (Z.to_N (year d))) as [|y1 [|y2 [|y3 [|y4 [|? ?]]]]];
    try discriminate Ly.
  destruct (JsDate.pad 2 (month d)) as [|m1 [|m2 [|? ?]]]; try discriminate Lm.
  destruct (JsDate.pad 2 (day d)) as [|d1 [|d2 [|? ?]]]; try discriminate Ld.
  repeat rewrite all_cons in Dy. repeat rewrite andb_true_iff in Dy.
  repeat rewrite all_cons in Dm. repeat rewrite andb_true_iff in Dm.
  repeat rewrite all_cons in Dd. repeat rewrite andb_true_iff in Dd.
  destruct Dy as (Hy1&Hy2&Hy3&Hy4&_), Dm as (Hm1&Hm2&_), Dd as (Hd1&Hd2&_).
  rewrite !append_cons, !append_nil_l. cbn [take remove_all].
  rewrite (digit_not_dash y1 Hy1), (digit_not_dash y2 Hy2), (digit_not_dash y3 Hy3),
    (digit_not_dash y4 Hy4), (digit_not_dash m1 Hm1), (digit_not_dash m2 Hm2),
    (digit_not_dash d1 Hd1), (digit_not_dash d2 Hd2).
  reflexivity.
Qed.

(** ** Trimmed texts and the characters of a version *)

Lemma trimStart_head (c : ascii) (r : string) :
  is_space c = false -> trimStart (String c r) = String c r.
Proof. intros H. cbn [trimStart]. by rewrite H. Qed.

Lemma trimStart_cases (s : string) :
  trimStart s = "" \/ exists c r, trimStart s = String c r /\ is_space c = false.
Proof.
  induction s as [|c s IH]; [by left|].
  cbn [trimStart]. destruct (is_space c) eqn:E; [exact IH|]. right. by exists c, s.
Qed.

Lemma trimEnd_idempotent (s : string) : trimEnd (trimEnd s) = trimEnd s.
Proof.
  induction s as [|c s IH]; [reflexivity|].
  cbn [trimEnd]. destruct (trimEnd s) as [|d t] eqn:E.
  - destruct (is_space c) eqn:Hc; [reflexivity|]. cbn [trimEnd]. by rewrite Hc.
  - cbn [trimEnd]. cbn [trimEnd] in IH. by rewrite IH.
Qed.

Lemma trimEnd_head (c : ascii) (r : string) :
  is_space c = false -> exists r', trimEnd (String c r) = String c r'.
Proof.
  intros H. cbn [trimEnd]. destruct (trimEnd r); [rewrite H|]; eauto.
Qed.

Lemma trim_idempotent (s : string) : trim (trim s) = trim s.
Proof.
  unfold trim. destruct (trimStart_cases s) as [->|(c & r & -> & Hc)]; [reflexivity|].
  destruct (trimEnd_head c r Hc) as [r' E].
  rewrite E, (trimStart_head c r' Hc), <- E. apply trimEnd_idempotent.
Qed.

Lemma cut_spec (c : ascii) (s : string) :
  lacks c (fst (SemVer.cut c s)) = true
  /\ s = fst (SemVer.cut c s) +:+ match snd (SemVer.cut c s) with
                                  | Some b => String c b
                                  | None => ""
                                  end.
Proof.
  unfold lacks. induction s as [|d s [IH1 IH2]]; [by split|].
  cbn [SemVer.cut]. destruct (Ascii.eqb d c) eqn:E.
  - apply Ascii.eqb_eq in E. subst. by split.
  - destruct (SemVer.cut c s) as [a b]. cbn [fst snd] in *.
    rewrite all_cons, E, append_cons, <- IH2. by split.
Qed.

(** Cutting at a character that the front of a text lacks. *)
Lemma cut_app_lacks (c : ascii) (a b : string) :
  lacks c a = true ->
  SemVer.cut c (a +:+ b) = (a +:+ fst (SemVer.cut c b), snd (SemVer.cut c b)).
Proof.
  unfold lacks. induction a as [|d a IH].
  - intros _. rewrite !append_nil_l. by destruct (SemVer.cut c b).
  - rewrite all_cons, andb_true_iff, negb_true_iff. intros [Hd Ha].
    rewrite !append_cons. cbn [SemVer.cut]. by rewrite Hd, (IH Ha).
Qed.

(** A text is made of the characters of its pieces and of the separator. *)
Lemma all_split (p : ascii -> bool) (sep : ascii) (s : string) :
  p sep = true -> Forall (fun piece => all p piece = true) (split sep s) -> all p s = true.
Proof.
  intros Hsep. induction s as [|c s IH]; [reflexivity|].
  cbn [split]. destruct (Ascii.eqb c sep) eqn:E.
  - apply Ascii.eqb_eq in E. subst c.
    intros H. apply Forall_cons in H as [_ H]. rewrite all_cons, Hsep. by apply IH.
  - pose proof (split_nonempty sep s) as Hne.
    destruct (split sep s) as [|piece pieces]; [contradiction|].
    intros H. apply Forall_cons in H as [H1 H2].
    rewrite all_cons, andb_true_iff in H1. destruct H1 as [Hc H1].
    rewrite all_cons, Hc. apply IH. by constructor.
Qed.

Lemma traverse_Some {A B : Type} (f : A -> option B) (l : list A) (r : list B) :
  SemVer.traverse f l = Some r -> Forall (fun x => exists y, f x = Some y) l.
Proof.
  revert r. induction l as [|x l IH]; intros r; [constructor|].
  cbn [SemVer.traverse].
  destruct (f x) as [y|] eqn:E; [|discriminate].
  destruct (SemVer.traverse f l) as [ys|]; [|discriminate].
  intros _. constructor; eauto.
Qed.

Lemma letter_dash_number_version_char (s : string) :
  all SemVer.is_letter_dash_number s = true -> all version_char s = true.
Proof.
  apply all_impl. intros c H. unfold version_char. by rewrite H.
Qed.

Lemma digit_version_char (s : string) :
  all is_digit s = true -> all version_char s = true.
Proof.
  apply all_impl. intros c H. unfold version_char, SemVer.is_letter_dash_number.
  by rewrite H.
Qed.

Lemma main_number_chars (s : string) (n : N) :
  SemVer.main_number s = Some n -> all version_char s = true.
Proof.
  unfold SemVer.main_number, SemVer.is_numeric_identifier.
  destruct s as [|c s]; [discriminate|]. intros H. apply digit_version_char.
  destruct (all is_digit (String c s)) eqn:E; [reflexivity|].
  destruct c as [[] [] [] [] [] [] [] []]; try discriminate H;
    destruct s; try discriminate H; discriminate E.
Qed.

Lemma identifiers_chars {B : Type} (f : string -> option B) (o : option string) (r : list B) :
  (forall s y, f s = Some y -> all SemVer.is_letter_dash_number s = true) ->
  SemVer.traverse f (from_option (split ".") [] o) = Some r ->
  all version_char (match o with Some b => b | None => "" end) = true.
Proof.
  intros Hf H. destruct o as [b|]; [|reflexivity]. cbn [from_option] in H.
  apply (all_split version_char "."); [reflexivity|].
  apply traverse_Some in H. eapply Forall_impl; [exact H|].
  cbn beta. intros s [y Hy]. apply letter_dash_number_version_char. eauto.
Qed.

(** Every character of a text that parses as a version, once it is
    trimmed and without its [v], is a version character. *)
Lemma parse_chars (s : string) (sv : SemVer.t) :
  SemVer.parse s = Some sv -> all version_char (strip_v (trim s)) = true.
Proof.
  unfold SemVer.parse. destruct (_ <? _)%nat; [discriminate|].
  pose proof (cut_spec "+" (strip_v (trim s))) as [_ Hplus].
  destruct (SemVer.cut "+" (strip_v (trim s))) as [s1 b]. cbn [fst snd] in Hplus.
  pose proof (cut_spec "-" s1) as [_ Hdash].
  destruct (SemVer.cut "-" s1) as [s2 p]. cbn [fst snd] in Hdash.
  destruct (split "." s2) as [|x [|y [|z [|? ?]]]] eqn:Hs2; try discriminate.
  destruct (SemVer.main_number x) as [nx|] eqn:Hx; [|discriminate].
  destruct (SemVer.main_number y) as [ny|] eqn:Hy; [|discriminate].
  destruct (SemVer.main_number z) as [nz|] eqn:Hz; [|discriminate].
  destruct (SemVer.traverse SemVer.prerelease_identifier _) as [ps|] eqn:Hp; [|discriminate].
  destruct (SemVer.traverse SemVer.build_identifier _) as [bs|] eqn:Hb; [|discriminate].
  intros _. rewrite Hplus, Hdash, !all_app.
  assert (H2 : all version_char s2 = true).
  { apply (all_split version_char "."); [reflexivity|]. rewrite Hs2.
    repeat constructor; eauto using main_number_chars. }
  assert (Hpc : all version_char (match p with Some b => b | None => "" end) = true).
  { apply (identifiers_chars _ _ _) with (2 := Hp).
    intros t y0. unfold SemVer.prerelease_identifier, SemVer.is_prerelease_identifier.
    destruct (truthy t), (all SemVer.is_letter_dash_number t); cbn [andb]; congruence. }
  assert (Hbc : all version_char (match b with Some b => b | None => "" end) = true).
  { apply (identifiers_chars _ _ _) with (2 := Hb).
    intros t y0. unfold SemVer.build_identifier, SemVer.is_build_identifier.
    destruct (truthy t), (all SemVer.is_letter_dash_number t); cbn [andb]; congruence. }
  rewrite H2. destruct p, b; rewrite ?all_cons, ?Hpc, ?Hbc; reflexivity.
Qed.

Lemma version_char_no_line_terminator (s : string) :
  all version_char s = true -> all (fun c => negb (is_line_terminator c)) s = true.
Proof.
  apply all_impl. intros c.
  destruct c as [[] [] [] [] [] [] [] []]; try discriminate; reflexivity.
Qed.

(** ** Validated versions *)

(** A version that a channel validation returns is the tag without its
    [v], is a semantic version, and is trimmed. *)
Lemma getAndVerifyTags_validated (w : World) (npmDistTag gitTagPattern : string) (tags : Tags) :
  outcome w (getAndVerifyTags npmDistTag gitTagPattern) = Ok tags ->
  latestTag tags = "v" +:+ latestVersion tags
  /\ SemVer.valid (latestVersion tags) = true
  /\ trim (latestVersion tags) = latestVersion tags.
Proof.
  pose proof (getLatestTag_outcome w gitTagPattern) as Ht.
  rewrite (getAndVerifyTags_outcome w npmDistTag gitTagPattern _ _
             (getVersionFromNPM_outcome w npmDistTag) Ht).
  assert (Htrim : trim match process_output w ("npm view @google/gemini-cli version --tag="
                                               +:+ npmDistTag) with
                       | inl out => trim out
                       | inr _ => ""
                       end
                  = match process_output w ("npm view @google/gemini-cli version --tag="
                                            +:+ npmDistTag) with
                    | inl out => trim out
                    | inr _ => ""
                    end).
  { destruct (process_output w ("npm view @google/gemini-cli version --tag=" +:+ npmDistTag));
      [apply trim_idempotent|reflexivity]. }
  set (V := match process_output w _ with inl out => trim out | inr _ => "" end) in *.
  destruct (String.eqb _ _) eqn:E; [|discriminate].
  destruct (outcome w (verifyGitHubReleaseExists _)); [|discriminate].
  intros [= <-]. cbn [latestTag latestVersion].
  apply String.eqb_eq in E. split; [by rewrite <- E|]. split; [|exact Htrim].
  destruct (process_output w ("git tag -l '" +:+ gitTagPattern +:+ "'")) as [out|e];
    [|discriminate E].
  pose proof (latest_version_selected (reported_tags out)) as Hsel.
  destruct (sort _ _) as [|v rest]; [discriminate E|].
  destruct Hsel as (tag & pv & _ & _ & Hv & _).
  injection E as E. change (V = v) in E.
  rewrite E. unfold SemVer.valid. by rewrite Hv.
Qed.

Lemma show_N_head (n : N) : exists c r, show_N n = String c r /\ is_digit c = true.
Proof.
  pose proof (show_N_truthy n) as Ht. pose proof (show_N_digits n) as Hd.
  destruct (show_N n) as [|c r]; [discriminate|].
  rewrite all_cons, andb_true_iff in Hd. destruct Hd as [Hc _]. by exists c, r.
Qed.

Lemma strip_v_version_text (major minor patch : N) (suffix : string) :
  strip_v (version_text major minor patch +:+ suffix) = version_text major minor patch +:+ suffix.
Proof.
  unfold version_text. destruct (show_N_head major) as (c & r & -> & Hc).
  rewrite !append_cons. cbn [strip_v].
  destruct c as [[] [] [] [] [] [] [] []]; try discriminate Hc; reflexivity.
Qed.

Lemma version_text_lacks_plus (M m p : N) : lacks "+" (version_text M m p) = true.
Proof.
  unfold version_text.
  rewrite !lacks_app, !show_N_lacks by reflexivity. reflexivity.
Qed.

Lemma main_number_show_N (n x : N) :
  SemVer.main_number (show_N n) = Some x -> x = n /\ (n <= SemVer.MAX_SAFE_INTEGER)%N.
Proof.
  unfold SemVer.main_number. rewrite dec_to_N_show.
  destruct (SemVer.is_numeric_identifier _); [|discriminate].
  destruct (N.leb_spec n SemVer.MAX_SAFE_INTEGER); [|discriminate].
  intros [= <-]. by split.
Qed.

(** Of a version [major.minor.patch] with a suffix that is empty or starts
    with a dash, which is trimmed and parses: the parsed numbers are
    [major], [minor] and [patch], they are safe integers, where the
    arithmetic of the model is that of the runtime, and the suffix is made
    of version characters. *)
Lemma parse_version_text (major minor patch : N) (suffix : string) (sv : SemVer.t) :
  suffix = "" \/ startsWith "-" suffix = true ->
  trim (version_text major minor patch +:+ suffix) = version_text major minor patch +:+ suffix ->
  SemVer.parse (version_text major minor patch +:+ suffix) = Some sv ->
  (SemVer.major sv = major /\ SemVer.minor sv = minor /\ SemVer.patch sv = patch)
  /\ ((major <= SemVer.MAX_SAFE_INTEGER)%N /\ (minor <= SemVer.MAX_SAFE_INTEGER)%N
      /\ (patch <= SemVer.MAX_SAFE_INTEGER)%N)
  /\ all version_char suffix = true.
Proof.
  intros Hsuffix Htrim Hparse.
  assert (Hchars : all version_char suffix = true).
  { pose proof (parse_chars _ _ Hparse) as H.
    rewrite Htrim, strip_v_version_text, all_app, andb_true_iff in H. tauto. }
  revert Hparse. unfold SemVer.parse. destruct (_ <? _)%nat; [discriminate|].
  rewrite Htrim, strip_v_version_text.
  rewrite (cut_app_lacks "+" _ _ (version_text_lacks_plus _ _ _)).
  assert (Hcut : SemVer.cut "-" (version_text major minor patch
                                 +:+ fst (SemVer.cut "+" suffix))
                 = (version_text major minor patch,
                    snd (SemVer.cut "-" (fst (SemVer.cut "+" suffix))))).
  { rewrite (cut_app_lacks "-" _ _ (version_text_lacks_dash _ _ _)). f_equal.
    destruct Hsuffix as [->|H]; [apply append_nil_r|].
    destruct suffix as [|c r]; [discriminate|].
    cbn [startsWith] in H. apply andb_true_iff in H as [H _].
    apply Ascii.eqb_eq in H. subst c.
    cbn [SemVer.cut]. change (Ascii.eqb "-" "+") with false. cbv iota.
    destruct (SemVer.cut "+" r) as [a b]. cbn [fst SemVer.cut].
    rewrite Ascii.eqb_refl. apply append_nil_r. }
  rewrite Hcut, split_version_text.
  destruct (SemVer.main_number (show_N major)) as [x|] eqn:Hx; [|discriminate].
  destruct (SemVer.main_number (show_N minor)) as [y|] eqn:Hy; [|discriminate].
  destruct (SemVer.main_number (show_N patch)) as [z|] eqn:Hz; [|discriminate].
  apply main_number_show_N in Hx as [-> Hx], Hy as [-> Hy], Hz as [-> Hz].
  destruct (SemVer.traverse _ _); [|discriminate].
  destruct (SemVer.traverse _ _); [|discriminate].
  intros [= <-]. cbn [SemVer.major SemVer.minor SemVer.patch]. tauto.
Qed.

(** The same of a version that a channel validation returned. *)
Lemma validated_version_text
  (w : World) (npmDistTag gitTagPattern : string) (major minor patch : N)
  (suffix tag : string) :
  outcome w (getAndVerifyTags npmDistTag gitTagPattern)
    = Ok (mkTags (version_text major minor patch +:+ suffix) tag) ->
  suffix = "" \/ startsWith "-" suffix = true ->
  ((major <= SemVer.MAX_SAFE_INTEGER)%N /\ (minor <= SemVer.MAX_SAFE_INTEGER)%N
   /\ (patch <= SemVer.MAX_SAFE_INTEGER)%N)
  /\ all version_char suffix = true.
Proof.
  intros Htags Hsuffix.
  apply getAndVerifyTags_validated in Htags as (_ & Hvalid & Htrim).
  cbn [latestVersion] in Hvalid, Htrim. unfold SemVer.valid in Hvalid.
  destruct (SemVer.parse _) as [sv|] eqn:Hparse; [|discriminate].
  destruct (parse_version_text _ _ _ _ _ Hsuffix Htrim Hparse) as (_ & Hsafe & Hchars).
  by split.
Qed.

(** ** The version calculator *)

Lemma outcome_now (w : World) : outcome w now = Ok (clock w).
Proof. reflexivity. Qed.

Lemma queries_now (w : World) : queries w now = [].
Proof. reflexivity. Qed.

(** C4.  From a validated latest nightly [major.minor.patch] with any
    prerelease, the nightly release type produces
    [major.(minor+1).0-nightly.YYYYMMDD.hash], where the date is the UTC
    date of the clock and the hash is what [git rev-parse --short HEAD]
    prints; the channel is [nightly] and the previous release tag is the
    validated nightly tag.  The minor number of a validated version is a
    safe integer, so that the increment is exact in the runtime. *)
Theorem getNightlyVersion_increments_minor
  (w : World) (major minor patch : N) (suffix tag hash : string) :
  outcome w (getAndVerifyTags "nightly" "v*-nightly*")
    = Ok (mkTags (version_text major minor patch +:+ suffix) tag) ->
  suffix = "" \/ startsWith "-" suffix = true ->
  process_output w "git rev-parse --short HEAD" = inl hash ->
  0 <= year (clock w) <= 9999 ->
  (1 <= month (clock w) <= 12)%N ->
  (1 <= day (clock w) <= 31)%N ->
  outcome w getNightlyVersion =
    Ok {| releaseVersion := show_N major +:+ "." +:+ show_N (minor + 1) +:+ ".0-nightly."
                            +:+ yyyymmdd (clock w) +:+ "." +:+ trim hash;
          npmTag := "nightly";
          previousReleaseTag := tag |}
  /\ (minor <= SemVer.MAX_SAFE_INTEGER)%N.
Proof.
  intros Htags Hsuffix Hhash Hy Hm Hd.
  split; [|by destruct (validated_version_text _ _ _ _ _ _ _ _ Htags Hsuffix)
                as [(_ & Hsafe & _) _]].
  unfold getNightlyVersion.
  rewrite outcome_bind, Htags. cbn [latestVersion latestTag].
  rewrite (split_dash_version _ _ _ _ Hsuffix), split_version_text.
  cbn [first List.hd lookup list_lookup].
  rewrite show_N_truthy, parseInt_show_N, toString_succ.
  rewrite outcome_bind, outcome_now, outcome_bind, outcome_execSync, Hhash, outcome_ret.
  rewrite date_stamp_yyyymmdd by lia. reflexivity.
Qed.

(** Nightly 0.6.0-nightly.20250910.a31830a3 on 2025-09-17 at d3bf8a3d. *)
Lemma getNightlyVersion_increments_minor_witness :
  outcome consistent_world getNightlyVersion =
    Ok {| releaseVersion := "0.7.0-nightly.20250917.d3bf8a3d";
          npmTag := "nightly";
          previousReleaseTag := "v0.6.0-nightly.20250910.a31830a3" |}.
Proof.
  pose proof (getNightlyVersion_increments_minor consistent_world 0 6 0
                "-nightly.20250910.a31830a3" "v0.6.0-nightly.20250910.a31830a3"
                (line "d3bf8a3d")) as H.
  specialize (H ltac:(vm_compute; reflexivity) ltac:(right; reflexivity)
                ltac:(vm_compute; reflexivity)
                ltac:(vm_compute; split; discriminate)
                ltac:(vm_compute; split; discriminate)
                ltac:(vm_compute; split; discriminate)).
  destruct H as [H _]. vm_compute in H. vm_compute. exact H.
Defined.



(** C6.  Without an override, the preview release type returns the
    validated latest nightly version cut before its [-nightly] suffix,
    with [-preview.0] appended, on channel [preview]. *)
Theorem getPreviewVersion_from_nightly
  (w : World) (args : gmap string value) (major minor patch : N)
  (rest nightlyTag : string) (preview : Tags) :
  is_truthy (args !! "preview_version_override") = false ->
  outcome w (getAndVerifyTags "nightly" "v*-nightly*")
    = Ok (mkTags (version_text major minor patch +:+ "-nightly" +:+ rest) nightlyTag) ->
  outcome w (getAndVerifyTags "preview" "v*-preview*") = Ok preview ->
  outcome w (getPreviewVersion args) =
    Ok {| releaseVersion := version_text major minor patch +:+ "-preview.0";
          npmTag := "preview";
          previousReleaseTag := latestTag preview |}.
Proof.
  intros Hno Hnightly Hpreview.
  assert (Hrest : all (fun c => negb (is_line_terminator c)) rest = true).
  { destruct (validated_version_text _ _ _ _ _ _ ("-nightly" +:+ rest) _ Hnightly)
      as [_ H]; [by right|].
    rewrite all_app, andb_true_iff in H. apply version_char_no_line_terminator, H. }
  unfold getPreviewVersion.
  rewrite outcome_bind, Hnightly, Hno. cbn [latestVersion].
  rewrite outcome_bind, outcome_ret, outcome_bind, Hpreview, outcome_ret.
  change ("-nightly" +:+ rest) with (String "-" "nightly" +:+ rest).
  rewrite (replace_lit_dot_star_cut "nightly") by auto using version_text_lacks_dash.
  reflexivity.
Qed.

(** Nightly 0.6.0-nightly.20250910.a31830a3 becomes 0.6.0-preview.0. *)
Lemma getPreviewVersion_from_nightly_witness :
  outcome consistent_world (getPreviewVersion ∅) =
    Ok {| releaseVersion := "0.6.0-preview.0"; npmTag := "preview";
          previousReleaseTag := "v0.5.0-preview.2" |}.
Proof.
  pose proof (getPreviewVersion_from_nightly consistent_world ∅ 0 6 0
                ".20250910.a31830a3" "v0.6.0-nightly.20250910.a31830a3"
                (mkTags "0.5.0-preview.2" "v0.5.0-preview.2")) as H.
  specialize (H ltac:(reflexivity) ltac:(vm_compute; reflexivity)
                ltac:(vm_compute; reflexivity)).
  vm_compute in H. vm_compute. exact H.
Defined.

(** ** The entry point *)

Lemma getArgs_total (w : World) : exists cli, outcome w getArgs = Ok cli.
Proof. unfold getArgs. eff. eauto. Qed.

Lemma getArgs_queries (w : World) : queries w getArgs = [].
Proof. reflexivity. Qed.

Lemma is_string_false (s : string) (v : value) :
  v <> VStr s -> is_string s (Some v) = false.
Proof.
  intros H. destruct v as [|t]; [reflexivity|]. cbn [is_string].
  apply String.eqb_neq. congruence.
Qed.

Lemma is_string_false_option (s : string) (v : option value) :
  v <> Some (VStr s) -> is_string s v = false.
Proof.
  intros H. destruct v as [[|t]|]; try reflexivity. cbn [is_string].
  apply String.eqb_neq. congruence.
Qed.

Lemma is_string_true (s : string) (v : option value) :
  is_string s v = true <-> v = Some (VStr s).
Proof.
  destruct v as [[|t]|]; cbn [is_string]; try (split; [discriminate|congruence]).
  rewrite String.eqb_eq. split; congruence.
Qed.

(** C9.  A release type other than the four fails with the unknown-type
    error, and a patch whose source is absent or is neither [stable] nor
    [preview] fails with the missing-source error; in both cases no
    command has been run. *)
Theorem getVersion_fails_before_any_query (w : World) (options cli : gmap string value) :
  outcome w getArgs = Ok cli ->
  let args : gmap string value := options ∪ cli in
  (release_type args <> VStr "nightly" -> release_type args <> VStr "stable" ->
   release_type args <> VStr "preview" -> release_type args <> VStr "patch" ->
   outcome w (getVersion options)
     = Throw ("Unknown release type: " +:+ value_text (release_type args))
   /\ queries w (getVersion options) = [])
  /\ (release_type args = VStr "patch" ->
      args !! "patch-from" <> Some (VStr "stable") ->
      args !! "patch-from" <> Some (VStr "preview") ->
      outcome w (getVersion options)
        = Throw "Patch type must be specified with --patch-from=stable or --patch-from=preview"
      /\ queries w (getVersion options) = []).
Proof.
  intros Hcli args. unfold getVersion.
  rewrite outcome_bind, queries_bind, Hcli, getArgs_queries. fold args.
  split.
  - intros H1 H2 H3 H4.
    rewrite !is_string_false by assumption.
    rewrite outcome_bind, queries_bind, outcome_throw, queries_throw. auto.
  - intros Hp Hs Hv. rewrite Hp.
    change (is_string "nightly" (Some (VStr "patch"))) with false.
    change (is_string "stable" (Some (VStr "patch"))) with false.
    change (is_string "preview" (Some (VStr "patch"))) with false.
    change (is_string "patch" (Some (VStr "patch"))) with true. cbv iota.
    rewrite outcome_bind, queries_bind. unfold getPatchVersion.
    rewrite (is_string_false_option _ _ Hs), (is_string_false_option _ _ Hv).
    rewrite orb_true_r, outcome_throw, queries_throw. auto.
Qed.

(** [--type=hotfix], and [--type=patch] without [--patch-from]. *)
Lemma getVersion_fails_before_any_query_witness :
  (outcome unknown_type_world (getVersion ∅) = Throw "Unknown release type: hotfix"
   /\ queries unknown_type_world (getVersion ∅) = [])
  /\ (outcome patch_without_source_world (getVersion ∅)
      = Throw "Patch type must be specified with --patch-from=stable or --patch-from=preview"
      /\ queries patch_without_source_world (getVersion ∅) = []).
Proof.
  split.
  - pose proof (getVersion_fails_before_any_query unknown_type_world ∅
                  {[ "type" := VStr "hotfix" ]}) as H.
    specialize (H ltac:(vm_compute; reflexivity)). cbv zeta in H. destruct H as [H _].
    specialize (H ltac:(vm_compute; discriminate) ltac:(vm_compute; discriminate)
                  ltac:(vm_compute; discriminate) ltac:(vm_compute; discriminate)).
    vm_compute in H. vm_compute. exact H.
  - pose proof (getVersion_fails_before_any_query patch_without_source_world ∅
                  {[ "type" := VStr "patch" ]}) as H.
    specialize (H ltac:(vm_compute; reflexivity)). cbv zeta in H. destruct H as [_ H].
    specialize (H ltac:(vm_compute; reflexivity) ltac:(vm_compute; discriminate)
                  ltac:(vm_compute; discriminate)).
    vm_compute in H. vm_compute. exact H.
Defined.

(** ** Overrides and the second validation of the preview type *)

Lemma validateVersion_outcome (w : World) (version format name : string) :
  outcome w (validateVersion version format name) =
    match versionRegex format with
    | Some (Pattern test) =>
        if test version then Ok tt
        else Throw ("Invalid " +:+ name +:+ ": " +:+ version +:+ ". Must be in " +:+ format
                    +:+ " format.")
    | Some Inherited => Throw "versionRegex[format].test is not a function"
    | None => Throw ("Invalid " +:+ name +:+ ": " +:+ version +:+ ". Must be in " +:+ format
                     +:+ " format.")
    end.
Proof.
  unfold validateVersion. destruct (versionRegex format) as [[test|]|]; try reflexivity.
  destruct (test version); reflexivity.
Qed.

Lemma validateVersion_queries (w : World) (version format name : string) :
  queries w (validateVersion version format name) = [].
Proof.
  unfold validateVersion. destruct (versionRegex format) as [[test|]|]; try reflexivity.
  destruct (test version); reflexivity.
Qed.

(** What the override branch returns for a text. *)
Lemma overrideVersion_outcome (w : World) (text format name : string) :
  outcome w (overrideVersion (Some (VStr text)) format name) =
    match versionRegex format with
    | Some (Pattern test) =>
        if test (strip_v text) then Ok (strip_v text)
        else Throw ("Invalid " +:+ name +:+ ": " +:+ strip_v text +:+ ". Must be in "
                    +:+ format +:+ " format.")
    | Some Inherited => Throw "versionRegex[format].test is not a function"
    | None => Throw ("Invalid " +:+ name +:+ ": " +:+ strip_v text +:+ ". Must be in "
                     +:+ format +:+ " format.")
    end.
Proof.
  unfold overrideVersion. rewrite outcome_bind, validateVersion_outcome.
  destruct (versionRegex format) as [[test|]|]; try reflexivity.
  destruct (test (strip_v text)); reflexivity.
Qed.

Lemma overrideVersion_queries (w : World) (o : option value) (format name : string) :
  queries w (overrideVersion o format name) = [].
Proof.
  destruct o as [[|text]|]; try reflexivity.
  unfold overrideVersion. rewrite queries_bind, validateVersion_queries, validateVersion_outcome.
  destruct (versionRegex format) as [[test|]|]; try reflexivity.
  destruct (test (strip_v text)); reflexivity.
Qed.



(** ** The two formats of [validateVersion] *)

Lemma span_spec (p : ascii -> bool) (s : string) :
  s = fst (span p s) +:+ snd (span p s) /\ all p (fst (span p s)) = true.
Proof.
  induction s as [|c s [IH1 IH2]]; [by split|].
  cbn [span]. destruct (p c) eqn:Hc; [|by split].
  destruct (span p s) as [a r]. cbn [fst snd] in *.
  rewrite append_cons, all_cons, Hc, <- IH1. by split.
Qed.

Lemma span_app (p : ascii -> bool) (a r : string) :
  all p a = true ->
  match r with
  | String c _ => p c = false
  | EmptyString => True
  end ->
  span p (a +:+ r) = (a, r).
Proof.
  intros Ha Hr. induction a as [|c a IH].
  - rewrite append_nil_l. destruct r as [|c r]; [reflexivity|].
    cbn [span]. by rewrite Hr.
  - rewrite all_cons, andb_true_iff in Ha. destruct Ha as [Hc Ha].
    rewrite append_cons. cbn [span]. by rewrite Hc, (IH Ha).
Qed.

Lemma startsWith_spec (l s : string) :
  startsWith l s = true -> s = l +:+ drop (String.length l) s.
Proof.
  revert s. induction l as [|c l IH]; intros s; [by destruct s|].
  destruct s as [|d s]; [discriminate|].
  cbn [startsWith]. rewrite andb_true_iff, Ascii.eqb_eq. intros [-> H].
  rewrite append_cons. cbn [String.length drop]. f_equal. by apply IH.
Qed.

(** One step of the matcher on [\d+]. *)
Lemma re_test_digits (pattern : list piece) (s : string) :
  re_test (Digits :: pattern) s = true <->
  exists a r, s = a +:+ r /\ truthy a = true /\ all is_digit a = true
              /\ span is_digit s = (a, r) /\ re_test pattern r = true.
Proof.
  cbn [re_test]. pose proof (span_spec is_digit s) as [Hs Ha].
  destruct (span is_digit s) as [a r]. cbn [fst snd] in *. split.
  - destruct a as [|c a]; [discriminate|]. intros H. by exists (String c a), r.
  - intros (a' & r' & _ & Ht & _ & [= <- <-] & H). destruct a; [discriminate|exact H].
Qed.

(** One step of the matcher on literal text. *)
Lemma re_test_lit (l : string) (pattern : list piece) (s : string) :
  re_test (Lit l :: pattern) s = true <-> exists r, s = l +:+ r /\ re_test pattern r = true.
Proof.
  cbn [re_test]. split.
  - destruct (startsWith l s) eqn:E; [|discriminate]. intros H.
    exists (drop (String.length l) s). split; [by apply startsWith_spec|exact H].
  - intros (r & -> & H). by rewrite startsWith_app, drop_app.
Qed.

Lemma re_test_end (s : string) : re_test [] s = true <-> s = "".
Proof. destruct s; cbn; split; congruence. Qed.

(** A number of the formats: a non-empty run of digits. *)
Lemma digits_then (pattern : list piece) (a r : string) :
  truthy a = true -> all is_digit a = true ->
  match r with
  | String c _ => is_digit c = false
  | EmptyString => True
  end ->
  re_test (Digits :: pattern) (a +:+ r) = re_test pattern r.
Proof.
  intros Ht Ha Hr. cbn [re_test]. rewrite (span_app is_digit a r Ha Hr).
  destruct a; [discriminate|reflexivity].
Qed.

(** [X.Y.Z]: exactly three non-empty runs of digits separated by dots. *)
Lemma test_X_Y_Z_spec (s : string) :
  test_X_Y_Z s = true <->
  exists x y z,
    s = x +:+ "." +:+ y +:+ "." +:+ z
    /\ (truthy x = true /\ all is_digit x = true)
    /\ (truthy y = true /\ all is_digit y = true)
    /\ (truthy z = true /\ all is_digit z = true).
Proof.
  unfold test_X_Y_Z. split.
  - intros H.
    apply re_test_digits in H as (x & r1 & -> & Hx & Dx & _ & H).
    apply re_test_lit in H as (r2 & -> & H).
    apply re_test_digits in H as (y & r3 & -> & Hy & Dy & _ & H).
    apply re_test_lit in H as (r4 & -> & H).
    apply re_test_digits in H as (z & r5 & -> & Hz & Dz & _ & H).
    apply re_test_end in H as ->. rewrite append_nil_r.
    by exists x, y, z.
  - intros (x & y & z & -> & [Hx Dx] & [Hy Dy] & [Hz Dz]).
    rewrite digits_then by done.
    change ("." +:+ y +:+ "." +:+ z) with ("." +:+ (y +:+ "." +:+ z)).
    rewrite (proj2 (re_test_lit "." _ _)); [reflexivity|].
    exists (y +:+ "." +:+ z). split; [reflexivity|].
    rewrite digits_then by done.
    apply re_test_lit. exists z. split; [reflexivity|].
    rewrite <- (append_nil_r z), digits_then by done. reflexivity.
Qed.

(** [X.Y.Z-preview.N]: a version of the first format, [-preview.] and a
    non-empty run of digits. *)
Lemma test_X_Y_Z_preview_N_spec (s : string) :
  test_X_Y_Z_preview_N s = true <->
  exists x y z n,
    s = x +:+ "." +:+ y +:+ "." +:+ z +:+ "-preview." +:+ n
    /\ (truthy x = true /\ all is_digit x = true)
    /\ (truthy y = true /\ all is_digit y = true)
    /\ (truthy z = true /\ all is_digit z = true)
    /\ (truthy n = true /\ all is_digit n = true).
Proof.
  unfold test_X_Y_Z_preview_N. split.
  - intros H.
    apply re_test_digits in H as (x & r1 & -> & Hx & Dx & _ & H).
    apply re_test_lit in H as (r2 & -> & H).
    apply re_test_digits in H as (y & r3 & -> & Hy & Dy & _ & H).
    apply re_test_lit in H as (r4 & -> & H).
    apply re_test_digits in H as (z & r5 & -> & Hz & Dz & _ & H).
    apply re_test_lit in H as (r6 & -> & H).
    apply re_test_digits in H as (n & r7 & -> & Hn & Dn & _ & H).
    apply re_test_end in H as ->. rewrite append_nil_r.
    by exists x, y, z, n.
  - intros (x & y & z & n & -> & [Hx Dx] & [Hy Dy] & [Hz Dz] & [Hn Dn]).
    rewrite digits_then by done.
    change ("." +:+ y +:+ "." +:+ z +:+ "-preview." +:+ n)
      with ("." +:+ (y +:+ "." +:+ z +:+ "-preview." +:+ n)).
    apply re_test_lit. eexists. split; [reflexivity|].
    rewrite digits_then by done.
    apply re_test_lit. eexists. split; [reflexivity|].
    rewrite digits_then by done.
    apply re_test_lit. eexists. split; [reflexivity|].
    rewrite <- (append_nil_r n), digits_then by done. reflexivity.
Qed.

(** C8 as stated does not hold.  The override [v1.2.3] is not of the
    form [X.Y.Z], and the stable release type accepts it and releases
    1.2.3.  And a malformed override does not always end in the format
    error: where the preview channel is inconsistent, the discrepancy
    error of the first validation comes before the override is looked at. *)
Lemma stable_override_counterexamples :
  (test_X_Y_Z "v1.2.3" = false
   /\ is_truthy (Some (VStr "v1.2.3")) = true
   /\ outcome consistent_world
        (getStableVersion {[ "stable_version_override" := VStr "v1.2.3" ]})
      = Ok {| releaseVersion := "1.2.3"; npmTag := "latest";
              previousReleaseTag := "v0.4.1" |})
  /\ (test_X_Y_Z "1.2.3-beta" = false
      /\ outcome preview_drifted_world
           (getStableVersion {[ "stable_version_override" := VStr "1.2.3-beta" ]})
         = Throw "Discrepancy found! NPM preview tag (0.5.0-preview.3) does not match latest git preview tag (v0.5.0-preview.2).").
Proof. repeat split; vm_compute; reflexivity. Qed.

(** C8, amended.  [validateVersion] accepts a text exactly when it matches
    the pattern of the format, and otherwise throws the message that names
    the override, the text and the format.  The release types hand it the
    override with one leading [v] removed, after their first channel
    validation has succeeded: a stable override whose remainder is not
    [X.Y.Z], and a preview override whose remainder is not
    [X.Y.Z-preview.N], fail with that message, which names the remainder;
    an override whose remainder matches becomes the release version. *)
Theorem override_format_is_enforced (w : World) :
  (forall version name,
     outcome w (validateVersion version "X.Y.Z" name) =
       if test_X_Y_Z version then Ok tt
       else Throw ("Invalid " +:+ name +:+ ": " +:+ version
                   +:+ ". Must be in X.Y.Z format."))
  /\ (forall version name,
        outcome w (validateVersion version "X.Y.Z-preview.N" name) =
          if test_X_Y_Z_preview_N version then Ok tt
          else Throw ("Invalid " +:+ name +:+ ": " +:+ version
                      +:+ ". Must be in X.Y.Z-preview.N format."))
  /\ (forall (args : gmap string value) text preview,
        args !! "stable_version_override" = Some (VStr text) ->
        truthy text = true ->
        outcome w (getAndVerifyTags "preview" "v*-preview*") = Ok preview ->
        if test_X_Y_Z (strip_v text)
        then forall stable,
               outcome w (getAndVerifyTags "latest" "v[0-9].[0-9].[0-9]") = Ok stable ->
               outcome w (getStableVersion args) =
                 Ok {| releaseVersion := strip_v text;
                       npmTag := "latest";
                       previousReleaseTag := latestTag stable |}
        else outcome w (getStableVersion args) =
               Throw ("Invalid stable_version_override: " +:+ strip_v text
                      +:+ ". Must be in X.Y.Z format."))
  /\ (forall (args : gmap string value) text nightly,
        args !! "preview_version_override" = Some (VStr text) ->
        truthy text = true ->
        outcome w (getAndVerifyTags "nightly" "v*-nightly*") = Ok nightly ->
        if test_X_Y_Z_preview_N (strip_v text)
        then forall preview,
               outcome w (getAndVerifyTags "preview" "v*-preview*") = Ok preview ->
               outcome w (getPreviewVersion args) =
                 Ok {| releaseVersion := strip_v text;
                       npmTag := "preview";
                       previousReleaseTag := latestTag preview |}
        else outcome w (getPreviewVersion args) =
               Throw ("Invalid preview_version_override: " +:+ strip_v text
                      +:+ ". Must be in X.Y.Z-preview.N format.")).
Proof.
  split; [|split; [|split]].
  - intros version name. by rewrite validateVersion_outcome.
  - intros version name. by rewrite validateVersion_outcome.
  - intros args text preview Hsome Htruthy Hpreview.
    assert (Hstep : outcome w (getStableVersion args) =
              match outcome w (overrideVersion (Some (VStr text)) "X.Y.Z"
                                 "stable_version_override") with
              | Ok version =>
                  match outcome w (getAndVerifyTags "latest" "v[0-9].[0-9].[0-9]") with
                  | Ok stable => Ok {| releaseVersion := version;
                                       npmTag := "latest";
                                       previousReleaseTag := latestTag stable |}
                  | Throw e => Throw e
                  end
              | Throw e => Throw e
              end).
    { unfold getStableVersion. rewrite outcome_bind, Hpreview, Hsome.
      cbn [is_truthy]. rewrite Htruthy, outcome_bind.
      destruct (outcome w (overrideVersion _ _ _)); [|reflexivity].
      rewrite outcome_bind.
      destruct (outcome w (getAndVerifyTags "latest" _)); reflexivity. }
    rewrite overrideVersion_outcome in Hstep.
    change (versionRegex "X.Y.Z") with (Some (Pattern test_X_Y_Z)) in Hstep.
    cbv beta iota in Hstep.
    destruct (test_X_Y_Z (strip_v text)); [|exact Hstep].
    intros stable Hstable. by rewrite Hstep, Hstable.
  - intros args text nightly Hsome Htruthy Hnightly.
    assert (Hstep : outcome w (getPreviewVersion args) =
              match outcome w (overrideVersion (Some (VStr text)) "X.Y.Z-preview.N"
                                 "preview_version_override") with
              | Ok version =>
                  match outcome w (getAndVerifyTags "preview" "v*-preview*") with
                  | Ok preview => Ok {| releaseVersion := version;
                                        npmTag := "preview";
                                        previousReleaseTag := latestTag preview |}
                  | Throw e => Throw e
                  end
              | Throw e => Throw e
              end).
    { unfold getPreviewVersion. rewrite outcome_bind, Hnightly, Hsome.
      cbn [is_truthy]. rewrite Htruthy, outcome_bind.
      destruct (outcome w (overrideVersion _ _ _)); [|reflexivity].
      rewrite outcome_bind.
      destruct (outcome w (getAndVerifyTags "preview" _)); reflexivity. }
    rewrite overrideVersion_outcome in Hstep.
    change (versionRegex "X.Y.Z-preview.N")
      with (Some (Pattern test_X_Y_Z_preview_N)) in Hstep.
    cbv beta iota in Hstep.
    destruct (test_X_Y_Z_preview_N (strip_v text)); [|exact Hstep].
    intros preview Hp. by rewrite Hstep, Hp.
Qed.

(** The stable override 1.2.3-beta. *)
Lemma override_format_is_enforced_witness :
  outcome consistent_world
    (getStableVersion {[ "stable_version_override" := VStr "1.2.3-beta" ]})
  = Throw "Invalid stable_version_override: 1.2.3-beta. Must be in X.Y.Z format.".
Proof.
  destruct (override_format_is_enforced consistent_world) as (_ & _ & H & _).
  assert (Hargs : ({[ "stable_version_override" := VStr "1.2.3-beta" ]}
                   : gmap string value) !! "stable_version_override"
                  = Some (VStr "1.2.3-beta")) by (vm_compute; reflexivity).
  specialize (H _ _ (mkTags "0.5.0-preview.2" "v0.5.0-preview.2") Hargs eq_refl).
  specialize (H ltac:(vm_compute; reflexivity)).
  vm_compute in H. vm_compute. exact H.
Defined.

(** ** Patch releases *)

Lemma first_split_cons (sep c : ascii) (r : string) :
  Ascii.eqb c sep = false ->
  first (split sep (String c r)) = String c (first (split sep r)).
Proof.
  intros H. cbn [split]. rewrite H.
  pose proof (split_nonempty sep r) as Hne.
  destruct (split sep r); [contradiction|reflexivity].
Qed.

Lemma startsWith_first_split (sep : ascii) (q s : string) :
  startsWith q (first (split sep s)) = true -> startsWith q s = true.
Proof.
  revert q. induction s as [|c s IH]; intros q; [by destruct q|].
  destruct (Ascii.eqb c sep) eqn:E.
  - cbn [split]. rewrite E. by destruct q.
  - rewrite (first_split_cons _ _ _ E). destruct q as [|d q]; [reflexivity|].
    cbn [startsWith]. rewrite !andb_true_iff. intros [H1 H2]. split; [exact H1|by apply IH].
Qed.

(** The second piece of a text cut at its dashes. *)
Lemma split_dash_second (base pre : string) :
  lacks "-" base = true ->
  split "-" (base +:+ String "-" pre) !! 1%nat = Some (first (split "-" pre)).
Proof.
  intros H. rewrite (split_app "-" base pre H).
  pose proof (split_nonempty "-" pre) as Hne.
  destruct (split "-" pre); [contradiction|reflexivity].
Qed.

Lemma parseInt_letter (c : ascii) (t : string) :
  is_letter c = true -> parseInt (String c t) = NaN.
Proof. destruct c as [[] [] [] [] [] [] [] []]; try discriminate; reflexivity. Qed.

(** A patch of the stable channel: [major.minor.patch] gives
    [major.minor.(patch+1)] on channel [latest]; by
    [validated_version_text] the patch number is a safe integer. *)
Lemma getPatchVersion_stable_increments_patch
  (w : World) (major minor patch : N) (tag : string) :
  outcome w (getAndVerifyTags "latest" "v[0-9].[0-9].[0-9]")
    = Ok (mkTags (version_text major minor patch) tag) ->
  outcome w (getPatchVersion (Some (VStr "stable"))) =
    Ok {| releaseVersion := version_text major minor (patch + 1);
          npmTag := "latest";
          previousReleaseTag := tag |}.
Proof.
  intros Htags. unfold getPatchVersion.
  change (is_truthy (Some (VStr "stable"))) with true.
  change (is_string "stable" (Some (VStr "stable"))) with true.
  cbv iota. cbn [negb orb andb].
  change (String.eqb "latest" "latest") with true. cbv iota.
  rewrite outcome_bind, Htags. cbn [latestVersion latestTag].
  rewrite split_version_text. cbn [first List.hd lookup list_lookup text_or_undefined default].
  by rewrite show_N_truthy, parseInt_show_N, toString_succ, outcome_ret.
Qed.

(** A patch of the preview channel: [major.minor.patch-preview.N] with a
    decimal number [N] gives [major.minor.patch-preview.(N+1)] on channel
    [preview]. *)
Lemma getPatchVersion_preview_increments_number
  (w : World) (major minor patch n : N) (tag : string) :
  outcome w (getAndVerifyTags "preview" "v*-preview*")
    = Ok (mkTags (version_text major minor patch +:+ "-preview." +:+ show_N n) tag) ->
  (n <= SemVer.MAX_SAFE_INTEGER)%N ->
  outcome w (getPatchVersion (Some (VStr "preview"))) =
    Ok {| releaseVersion := version_text major minor patch +:+ "-preview." +:+ show_N (n + 1);
          npmTag := "preview";
          previousReleaseTag := tag |}.
Proof.
  intros Htags _. unfold getPatchVersion.
  change (is_truthy (Some (VStr "preview"))) with true.
  change (is_string "stable" (Some (VStr "preview"))) with false.
  change (is_string "preview" (Some (VStr "preview"))) with true.
  cbv iota. cbn [negb orb andb].
  change (String.eqb "preview" "latest") with false. cbv iota.
  rewrite outcome_bind, Htags. cbn [latestVersion latestTag].
  change ("-preview." +:+ show_N n) with (String "-" ("preview." +:+ show_N n)).
  assert (Hpre : split "-" ("preview." +:+ show_N n) = ["preview." +:+ show_N n]).
  { apply split_lacks. rewrite lacks_app, show_N_lacks by reflexivity. reflexivity. }
  rewrite (split_dash_second _ _ (version_text_lacks_dash _ _ _)), Hpre.
  rewrite (split_app "-" _ _ (version_text_lacks_dash _ _ _)).
  cbn [first List.hd]. cbv beta iota zeta.
  assert (Hnum : split "." ("preview." +:+ show_N n) = ["preview"; show_N n]).
  { change ("preview." +:+ show_N n) with ("preview" +:+ String "." (show_N n)).
    rewrite split_app by reflexivity. rewrite split_lacks by (by apply show_N_lacks).
    reflexivity. }
  rewrite Hnum. cbn [lookup list_lookup text_or_undefined default from_option id].
  rewrite parseInt_show_N, toString_succ, startsWith_app. reflexivity.
Qed.

(** X21.  A patch of the preview channel fails with a parse error when
    the validated version has no part after a dash, when that part does
    not start with [preview.], and when a letter follows [preview.]. *)
Lemma getPatchVersion_preview_parse_errors (w : World) (latest tag : string) :
  outcome w (getAndVerifyTags "preview" "v*-preview*") = Ok (mkTags latest tag) ->
  (lacks "-" latest = true ->
   outcome w (getPatchVersion (Some (VStr "preview"))) =
     Throw ("Invalid preview version format: " +:+ latest
            +:+ ". Expected format like " +:+ dq +:+ "0.6.0-preview.2" +:+ dq))
  /\ (forall base pre,
        latest = base +:+ String "-" pre -> lacks "-" base = true ->
        startsWith "preview." pre = false ->
        outcome w (getPatchVersion (Some (VStr "preview"))) =
          Throw ("Invalid preview version format: " +:+ latest
                 +:+ ". Expected format like " +:+ dq +:+ "0.6.0-preview.2" +:+ dq))
  /\ (forall base c rest,
        latest = base +:+ "-preview." +:+ String c rest -> lacks "-" base = true ->
        is_letter c = true ->
        outcome w (getPatchVersion (Some (VStr "preview"))) =
          Throw ("Could not parse preview number from: "
                 +:+ first (split "-" ("preview." +:+ String c rest)))).
Proof.
  intros Htags.
  assert (Hstart : forall k : Tags -> Eff VersionData,
            outcome w (getPatchVersion (Some (VStr "preview"))) =
            outcome w (tags ← getAndVerifyTags "preview" "v*-preview*"; k tags) ->
            outcome w (getPatchVersion (Some (VStr "preview"))) = outcome w (k (mkTags latest tag))).
  { intros k ->. by rewrite outcome_bind, Htags. }
  split; [|split].
  - intros Hl. erewrite Hstart by reflexivity. cbn [latestVersion latestTag].
    change (is_string "stable" (Some (VStr "preview"))) with false. cbv iota.
    by rewrite (split_lacks "-" latest Hl).
  - intros base pre -> Hb Hp. erewrite Hstart by reflexivity. cbn [latestVersion latestTag].
    change (is_string "stable" (Some (VStr "preview"))) with false. cbv iota.
    rewrite (split_dash_second base pre Hb).
    destruct (startsWith "preview." (first (split "-" pre))) eqn:E.
    + apply startsWith_first_split in E. congruence.
    + by rewrite orb_true_r.
  - intros base c rest -> Hb Hc. erewrite Hstart by reflexivity.
    cbn [latestVersion latestTag].
    change (is_string "stable" (Some (VStr "preview"))) with false. cbv iota.
    change ("-preview." +:+ String c rest) with (String "-" ("preview." +:+ String c rest)).
    rewrite (split_dash_second base _ Hb).
    assert (Hcd : Ascii.eqb c "-" = false /\ Ascii.eqb c "." = false).
    { destruct c as [[] [] [] [] [] [] [] []]; try discriminate Hc; by split. }
    destruct Hcd as [Hdash Hdot].
    assert (Hfirst : first (split "-" ("preview." +:+ String c rest))
                     = "preview." +:+ String c (first (split "-" rest))).
    { change ("preview." +:+ String c rest)
        with (String "p" (String "r" (String "e" (String "v" (String "i" (String "e"
               (String "w" (String "." (String c rest))))))))).
      rewrite !first_split_cons by (reflexivity || exact Hdash). reflexivity. }
    rewrite Hfirst.
    assert (Htoken : split "." ("preview." +:+ String c (first (split "-" rest))) !! 1%nat
                     = Some (String c (first (split "." (first (split "-" rest)))))).
    { change ("preview." +:+ String c (first (split "-" rest)))
        with ("preview" +:+ String "." (String c (first (split "-" rest)))).
      rewrite split_app by reflexivity.
      pose proof (split_nonempty "." (String c (first (split "-" rest)))) as Hne.
      pose proof (first_split_cons "." c (first (split "-" rest)) Hdot) as Hf.
      destruct (split "." (String c (first (split "-" rest)))); [contradiction|].
      cbn [first List.hd] in Hf. subst. reflexivity. }
    rewrite Htoken. cbn [text_or_undefined default from_option id].
    rewrite (parseInt_letter _ _ Hc), startsWith_app. reflexivity.
Qed.

(** The validated preview 0.5.0-preview.x1 has no number to increment. *)
Lemma getPatchVersion_preview_parse_errors_witness :
  outcome (table_world
             [ ("npm view @google/gemini-cli version --tag=preview", inl (line "0.5.0-preview.x1"));
               ("git tag -l 'v*-preview*'", inl (line "v0.5.0-preview.x1"));
               (release_query "v0.5.0-preview.x1", inl (line "v0.5.0-preview.x1")) ]
             example_date [])
          (getPatchVersion (Some (VStr "preview")))
  = Throw "Could not parse preview number from: preview.x1".
Proof.
  destruct (getPatchVersion_preview_parse_errors
              (table_world
                 [ ("npm view @google/gemini-cli version --tag=preview",
                    inl (line "0.5.0-preview.x1"));
                   ("git tag -l 'v*-preview*'", inl (line "v0.5.0-preview.x1"));
                   (release_query "v0.5.0-preview.x1", inl (line "v0.5.0-preview.x1")) ]
                 example_date [])
              "0.5.0-preview.x1" "v0.5.0-preview.x1" ltac:(vm_compute; reflexivity))
    as (_ & _ & H).
  apply (H "0.5.0" "x"%char "1"); reflexivity.
Defined.

(** C7.  The specification lets a preview patch fail with a parse error
    when the suffix after [preview.] is not a number.  The script reads
    the suffix with [parseInt], which takes the leading digits of [2abc]:
    in a world whose validated latest preview is 0.5.0-preview.2abc, which
    is not of the form [X.Y.Z-preview.N], the patch does not fail and is
    0.5.0-preview.3. *)
Theorem getPatchVersion_accepts_digits_followed_by_text :
  outcome lenient_suffix_world (getAndVerifyTags "preview" "v*-preview*")
    = Ok (mkTags "0.5.0-preview.2abc" "v0.5.0-preview.2abc")
  /\ test_X_Y_Z_preview_N "0.5.0-preview.2abc" = false
  /\ all is_digit "2abc" = false
  /\ outcome lenient_suffix_world (getPatchVersion (Some (VStr "preview")))
     = Ok {| releaseVersion := "0.5.0-preview.3";
             npmTag := "preview";
             previousReleaseTag := "v0.5.0-preview.2abc" |}.
Proof. repeat split; vm_compute; reflexivity. Qed.

(** ** Command-line arguments *)

(** An assignment on a plain object sets the property it names, unless
    the name is [__proto__], and no other. *)
Lemma assign_same (key : string) (v : value) (object : gmap string value) :
  key <> "__proto__" -> assign key v object !! key = Some v.
Proof.
  intros H. unfold assign. destruct (String.eqb_spec key "__proto__"); [done|].
  apply lookup_insert_eq.
Qed.

Lemma assign_other (key key' : string) (v : value) (object : gmap string value) :
  key <> key' -> assign key v object !! key' = object !! key'.
Proof.
  intros H. unfold assign. destruct (String.eqb key "__proto__"); [done|].
  by apply lookup_insert_ne.
Qed.

Lemma assign_proto (v : value) (object : gmap string value) :
  assign "__proto__" v object = object.
Proof. reflexivity. Qed.

(** The step of the loop of [getArgs] leaves a property alone when the
    argument is no flag or names another property. *)
Lemma getArgs_fold_unset (key : string) (l : list string) (m : gmap string value) :
  Forall (fun arg => startsWith "--" arg = false
                     \/ first (split "=" (drop 2 arg)) <> key) l ->
  fold_left
    (fun (args : gmap string value) (arg : string) =>
       if startsWith "--" arg then
         let kv := split "=" (drop 2 arg) in
         assign (first kv)
                match kv !! 1%nat with
                | None => VTrue
                | Some v => VStr v
                end
                args
       else args) l m !! key = m !! key.
Proof.
  intros H. revert m. induction H as [|arg l Harg _ IH]; intros m; [reflexivity|].
  cbn [fold_left]. rewrite IH. destruct Harg as [-> | Hkey]; [reflexivity|].
  destruct (startsWith "--" arg); [|reflexivity].
  cbv zeta. by apply assign_other.
Qed.

Lemma getArgs_outcome (w : World) :
  outcome w getArgs =
    Ok (fold_left
          (fun (args : gmap string value) (arg : string) =>
             if startsWith "--" arg then
               let kv := split "=" (drop 2 arg) in
               assign (first kv)
                      match kv !! 1%nat with
                      | None => VTrue
                      | Some v => VStr v
                      end
                      args
             else args)
          (List.skipn 2 (argv w)) ∅).
Proof. reflexivity. Qed.

(** No argument makes a property [__proto__]. *)
Lemma getArgs_no_proto (w : World) :
  exists cli, outcome w getArgs = Ok cli /\ cli !! "__proto__" = None.
Proof.
  eexists. split; [apply getArgs_outcome|].
  generalize (List.skipn 2 (argv w)). intros l.
  change (@None value) with ((∅ : gmap string value) !! "__proto__").
  generalize (∅ : gmap string value). induction l as [|arg l IH]; intros m; [reflexivity|].
  cbn [fold_left]. rewrite IH. destruct (startsWith "--" arg); [|reflexivity].
  cbv zeta. unfold assign.
  destruct (String.eqb_spec (first (split "=" (drop 2 arg))) "__proto__"); [reflexivity|].
  by apply lookup_insert_ne.
Qed.

Lemma skipn_2_app (pre rest : list string) :
  (2 <= length pre)%nat -> List.skipn 2 (pre ++ rest) = List.skipn 2 pre ++ rest.
Proof.
  destruct pre as [|a [|b pre]]; cbn [length]; try lia. reflexivity.
Qed.

(** X1.  [getArgs], the last assignment wins: when [--key=text] is an
    argument after the first two entries of [process.argv], [key] is not
    [__proto__] and no later argument sets [key], the property [key] holds
    the part of [text] before its first [=] (the whole of [text] when it
    has none); what earlier arguments said about [key] is overwritten. *)
Theorem getArgs_last_assignment_wins
  (w : World) (pre post : list string) (key text : string) :
  argv w = pre ++ ("--" +:+ key +:+ String "=" text) :: post ->
  (2 <= length pre)%nat ->
  lacks "=" key = true ->
  key <> "__proto__" ->
  Forall (fun arg => startsWith "--" arg = false
                     \/ first (split "=" (drop 2 arg)) <> key) post ->
  exists cli,
    outcome w getArgs = Ok cli
    /\ cli !! key = Some (VStr (first (split "=" text)))
    /\ (lacks "=" text = true -> cli !! key = Some (VStr text)).
Proof.
  intros Hargv Hpre Hkey Hproto Hpost. eexists. split; [apply getArgs_outcome|].
  rewrite Hargv, (skipn_2_app _ _ Hpre), fold_left_app. cbn [fold_left].
  rewrite (getArgs_fold_unset key post _ Hpost).
  change (startsWith "--" ("--" +:+ key +:+ String "=" text)) with true.
  change (drop 2 ("--" +:+ key +:+ String "=" text)) with (key +:+ String "=" text).
  cbv iota zeta. rewrite (split_app "=" key text Hkey).
  cbn [first List.hd lookup list_lookup]. rewrite (assign_same _ _ _ Hproto).
  split.
  - pose proof (split_nonempty "=" text) as Hne.
    destruct (split "=" text); [contradiction|reflexivity].
  - intros Htext. by rewrite (split_lacks "=" text Htext).
Qed.

Lemma getArgs_last_assignment_wins_witness :
  exists cli,
    outcome (mkWorld (fun _ => inr "") example_date
               ["node"; "get-release-version.js"; "--type=stable"; "--type=patch=x"; "dry-run"])
            getArgs = Ok cli
    /\ cli !! "type" = Some (VStr "patch").
Proof.
  destruct (getArgs_last_assignment_wins
              (mkWorld (fun _ => inr "") example_date
                 ["node"; "get-release-version.js"; "--type=stable"; "--type=patch=x"; "dry-run"])
              ["node"; "get-release-version.js"; "--type=stable"] ["dry-run"] "type" "patch=x"
              eq_refl ltac:(simpl; lia) eq_refl ltac:(discriminate)
              ltac:(constructor; [by left|constructor]))
    as (cli & H1 & H2 & _).
  exists cli. split; [exact H1|exact H2].
Defined.

(** X2.  [getArgs], a flag without [=]: when [--key] is an argument after
    the first two entries of [process.argv], [key] is not [__proto__] and
    no later argument sets [key], the property [key] is [true]. *)
Theorem getArgs_bare_flag_is_true
  (w : World) (pre post : list string) (key : string) :
  argv w = pre ++ ("--" +:+ key) :: post ->
  (2 <= length pre)%nat ->
  lacks "=" key = true ->
  key <> "__proto__" ->
  Forall (fun arg => startsWith "--" arg = false
                     \/ first (split "=" (drop 2 arg)) <> key) post ->
  exists cli, outcome w getArgs = Ok cli /\ cli !! key = Some VTrue.
Proof.
  intros Hargv Hpre Hkey Hproto Hpost. eexists. split; [apply getArgs_outcome|].
  rewrite Hargv, (skipn_2_app _ _ Hpre), fold_left_app. cbn [fold_left].
  rewrite (getArgs_fold_unset key post _ Hpost).
  change (startsWith "--" ("--" +:+ key)) with true.
  change (drop 2 ("--" +:+ key)) with key.
  cbv iota zeta. rewrite (split_lacks "=" key Hkey).
  cbn [first List.hd lookup list_lookup]. by apply assign_same.
Qed.

Lemma getArgs_bare_flag_is_true_witness :
  exists cli,
    outcome (mkWorld (fun _ => inr "") example_date
               ["node"; "get-release-version.js"; "--dry-run"; "--type=stable"])
            getArgs = Ok cli
    /\ cli !! "dry-run" = Some VTrue.
Proof.
  apply (getArgs_bare_flag_is_true
           (mkWorld (fun _ => inr "") example_date
              ["node"; "get-release-version.js"; "--dry-run"; "--type=stable"])
           ["node"; "get-release-version.js"] ["--type=stable"] "dry-run"
           eq_refl ltac:(simpl; lia) eq_refl ltac:(discriminate)).
  constructor; [right; vm_compute; discriminate|constructor].
Defined.

(** X3.  [getArgs] reads nothing else: a property that no argument after
    the first two entries of [process.argv] sets is absent.  The first two
    entries and the arguments that do not start with [--] set nothing. *)
Theorem getArgs_unset_key_is_absent (w : World) (key : string) :
  Forall (fun arg => startsWith "--" arg = false
                     \/ first (split "=" (drop 2 arg)) <> key) (List.skipn 2 (argv w)) ->
  exists cli, outcome w getArgs = Ok cli /\ cli !! key = None.
Proof.
  intros H. eexists. split; [apply getArgs_outcome|].
  by rewrite (getArgs_fold_unset key _ _ H).
Qed.

Lemma getArgs_unset_key_is_absent_witness :
  exists cli,
    outcome (mkWorld (fun _ => inr "") example_date
               ["--type=stable"; "--type=patch"; "type=preview"; "--patch-from=stable"])
            getArgs = Ok cli
    /\ cli !! "type" = None.
Proof.
  apply (getArgs_unset_key_is_absent
           (mkWorld (fun _ => inr "") example_date
              ["--type=stable"; "--type=patch"; "type=preview"; "--patch-from=stable"])
           "type").
  cbn [List.skipn argv].
  constructor; [by left|constructor; [right; vm_compute; discriminate|constructor]].
Defined.

(** ** What a successful calculation went through *)

Lemma outcome_bind_Ok {A B : Type} (w : World) (m : Eff A) (k : A -> Eff B) (b : B) :
  outcome w (m ≫= k) = Ok b ->
  exists a, outcome w m = Ok a /\ outcome w (k a) = Ok b.
Proof. rewrite outcome_bind. destruct (outcome w m) as [a|e]; [eauto|discriminate]. Qed.

Lemma queries_bind_Ok {A B : Type} (w : World) (m : Eff A) (k : A -> Eff B) (a : A) :
  outcome w m = Ok a -> queries w (m ≫= k) = queries w m ++ queries w (k a).
Proof. intros H. by rewrite queries_bind, H. Qed.

(** A channel validation that succeeds ran its three commands. *)
Lemma getAndVerifyTags_queries_Ok (w : World) (npmDistTag gitTagPattern : string) (tags : Tags) :
  outcome w (getAndVerifyTags npmDistTag gitTagPattern) = Ok tags ->
  queries w (getAndVerifyTags npmDistTag gitTagPattern) =
    [ "npm view @google/gemini-cli version --tag=" +:+ npmDistTag;
      "git tag -l '" +:+ gitTagPattern +:+ "'";
      "gh release view " +:+ dq +:+ latestTag tags +:+ dq +:+ " --json tagName --jq .tagName" ].
Proof.
  destruct (getLatestTag_total w gitTagPattern) as [T Ht].
  rewrite (getAndVerifyTags_outcome w npmDistTag gitTagPattern _ T
             (getVersionFromNPM_outcome w npmDistTag) Ht).
  rewrite (getAndVerifyTags_queries w npmDistTag gitTagPattern _ T
             (getVersionFromNPM_outcome w npmDistTag) Ht).
  destruct (String.eqb _ T); [|discriminate].
  destruct (outcome w (verifyGitHubReleaseExists T)); [|discriminate].
  by intros [= <-].
Qed.

Lemma getNightlyVersion_Ok (w : World) (data : VersionData) :
  outcome w getNightlyVersion = Ok data ->
  exists tags,
    outcome w (getAndVerifyTags "nightly" "v*-nightly*") = Ok tags
    /\ npmTag data = "nightly"
    /\ previousReleaseTag data = latestTag tags
    /\ queries w getNightlyVersion =
         queries w (getAndVerifyTags "nightly" "v*-nightly*") ++ ["git rev-parse --short HEAD"].
Proof.
  unfold getNightlyVersion. intros H.
  destruct (outcome_bind_Ok _ _ _ _ H) as (tags & Htags & H1).
  exists tags. split; [exact Htags|].
  rewrite (queries_bind_Ok _ _ _ _ Htags).
  rewrite outcome_bind, outcome_now, outcome_bind, outcome_execSync in H1.
  rewrite queries_bind, queries_now, outcome_now, queries_bind, queries_execSync,
    outcome_execSync.
  destruct (process_output w "git rev-parse --short HEAD") as [out|e]; [|discriminate].
  rewrite outcome_ret in H1. injection H1 as <-. by rewrite queries_ret.
Qed.

(** The step between the two validations of [getStableVersion] and of
    [getPreviewVersion] runs no command. *)
Lemma override_step_queries (w : World) (o : option value) (format name computed : string) :
  queries w (if is_truthy o then overrideVersion o format name else mret computed) = [].
Proof. destruct (is_truthy o); [apply overrideVersion_queries|apply queries_ret]. Qed.

Lemma getStableVersion_Ok (w : World) (args : gmap string value) (data : VersionData) :
  outcome w (getStableVersion args) = Ok data ->
  exists preview stable,
    outcome w (getAndVerifyTags "preview" "v*-preview*") = Ok preview
    /\ outcome w (getAndVerifyTags "latest" "v[0-9].[0-9].[0-9]") = Ok stable
    /\ npmTag data = "latest"
    /\ previousReleaseTag data = latestTag stable
    /\ queries w (getStableVersion args) =
         queries w (getAndVerifyTags "preview" "v*-preview*")
         ++ queries w (getAndVerifyTags "latest" "v[0-9].[0-9].[0-9]").
Proof.
  unfold getStableVersion. intros H.
  destruct (outcome_bind_Ok _ _ _ _ H) as (preview & Hpreview & H1).
  destruct (outcome_bind_Ok _ _ _ _ H1) as (version & Hversion & H2).
  destruct (outcome_bind_Ok _ _ _ _ H2) as (stable & Hstable & H3).
  exists preview, stable. split; [exact Hpreview|]. split; [exact Hstable|].
  rewrite outcome_ret in H3. injection H3 as <-.
  rewrite (queries_bind_Ok _ _ _ _ Hpreview), (queries_bind_Ok _ _ _ _ Hversion),
    (queries_bind_Ok _ _ _ _ Hstable), override_step_queries, queries_ret, app_nil_r.
  auto.
Qed.

Lemma getPreviewVersion_Ok (w : World) (args : gmap string value) (data : VersionData) :
  outcome w (getPreviewVersion args) = Ok data ->
  exists nightly preview,
    outcome w (getAndVerifyTags "nightly" "v*-nightly*") = Ok nightly
    /\ outcome w (getAndVerifyTags "preview" "v*-preview*") = Ok preview
    /\ npmTag data = "preview"
    /\ previousReleaseTag data = latestTag preview
    /\ queries w (getPreviewVersion args) =
         queries w (getAndVerifyTags "nightly" "v*-nightly*")
         ++ queries w (getAndVerifyTags "preview" "v*-preview*").
Proof.
  unfold getPreviewVersion. intros H.
  destruct (outcome_bind_Ok _ _ _ _ H) as (nightly & Hnightly & H1).
  destruct (outcome_bind_Ok _ _ _ _ H1) as (version & Hversion & H2).
  destruct (outcome_bind_Ok _ _ _ _ H2) as (preview & Hpreview & H3).
  exists nightly, preview. split; [exact Hnightly|]. split; [exact Hpreview|].
  rewrite outcome_ret in H3. injection H3 as <-.
  rewrite (queries_bind_Ok _ _ _ _ Hnightly), (queries_bind_Ok _ _ _ _ Hversion),
    (queries_bind_Ok _ _ _ _ Hpreview), override_step_queries, queries_ret, app_nil_r.
  auto.
Qed.

Lemma getPatchVersion_Ok (w : World) (patchFrom : option value) (data : VersionData) :
  outcome w (getPatchVersion patchFrom) = Ok data ->
  exists distTag pattern tags,
    (patchFrom = Some (VStr "stable") /\ distTag = "latest" /\ pattern = "v[0-9].[0-9].[0-9]"
     \/ patchFrom = Some (VStr "preview") /\ distTag = "preview" /\ pattern = "v*-preview*")
    /\ outcome w (getAndVerifyTags distTag pattern) = Ok tags
    /\ npmTag data = distTag
    /\ previousReleaseTag data = latestTag tags
    /\ queries w (getPatchVersion patchFrom) = queries w (getAndVerifyTags distTag pattern).
Proof.
  unfold getPatchVersion. intros H.
  destruct (is_string "stable" patchFrom) eqn:Es.
  - apply is_string_true in Es. subst patchFrom.
    cbn [is_truthy truthy negb orb andb] in H |- *.
    change (String.eqb "latest" "latest") with true in H |- *. cbv iota in H |- *.
    destruct (outcome_bind_Ok _ _ _ _ H) as (tags & Htags & H1).
    exists "latest", "v[0-9].[0-9].[0-9]", tags. split; [by left|]. split; [exact Htags|].
    rewrite outcome_ret in H1. injection H1 as <-.
    rewrite (queries_bind_Ok _ _ _ _ Htags), queries_ret, app_nil_r. auto.
  - destruct (is_string "preview" patchFrom) eqn:Ep.
    + apply is_string_true in Ep. subst patchFrom.
      cbn [is_truthy truthy negb orb andb] in H |- *.
      change (String.eqb "preview" "latest") with false in H |- *. cbv iota in H |- *.
      destruct (outcome_bind_Ok _ _ _ _ H) as (tags & Htags & H1).
      exists "preview", "v*-preview*", tags. split; [by right|]. split; [exact Htags|].
      rewrite (queries_bind_Ok _ _ _ _ Htags).
      destruct (split "-" (latestVersion tags) !! 1%nat) as [pre|];
        [|rewrite outcome_throw in H1; discriminate].
      destruct (negb (truthy pre) || negb (startsWith "preview." pre));
        [rewrite outcome_throw in H1; discriminate|].
      destruct (isNaN _); [rewrite outcome_throw in H1; discriminate|].
      rewrite outcome_ret in H1. injection H1 as <-.
      rewrite queries_ret, app_nil_r. auto.
    + cbn [negb andb] in H. rewrite orb_true_r, outcome_throw in H. discriminate.
Qed.

(** ** Results of the entry point *)

(** A successful resolution ran the calculation of its release type and
    then the conflict check of the calculated version. *)
Lemma getVersion_Ok (w : World) (options cli : gmap string value) (r : Release) :
  outcome w getArgs = Ok cli ->
  outcome w (getVersion options) = Ok r ->
  exists calculation : Eff VersionData,
    (release_type (options ∪ cli) = VStr "nightly" /\ calculation = getNightlyVersion
     \/ release_type (options ∪ cli) = VStr "stable"
        /\ calculation = getStableVersion (options ∪ cli)
     \/ release_type (options ∪ cli) = VStr "preview"
        /\ calculation = getPreviewVersion (options ∪ cli)
     \/ release_type (options ∪ cli) = VStr "patch"
        /\ calculation = getPatchVersion ((options ∪ cli) !! "patch-from"))
    /\ outcome w calculation = Ok (versionData r)
    /\ outcome w (validateVersionConflicts (releaseVersion (versionData r))) = Ok tt
    /\ releaseTag r = "v" +:+ releaseVersion (versionData r)
    /\ queries w (getVersion options) =
         queries w calculation
         ++ queries w (validateVersionConflicts (releaseVersion (versionData r))).
Proof.
  intros Hcli. unfold getVersion.
  rewrite outcome_bind, Hcli, (queries_bind_Ok _ _ _ _ Hcli), getArgs_queries, app_nil_l.
  set (args := options ∪ cli). intros H.
  destruct (outcome_bind_Ok _ _ _ _ H) as (data & Hdata & H1).
  destruct (outcome_bind_Ok _ _ _ _ H1) as ([] & Hcheck & H2).
  rewrite outcome_ret in H2. injection H2 as <-. cbn [versionData releaseTag].
  rewrite (queries_bind_Ok _ _ _ _ Hdata), (queries_bind_Ok _ _ _ _ Hcheck),
    queries_ret, app_nil_r.
  eexists. split; [|split; [exact Hdata|auto]].
  destruct (is_string "nightly" (Some (release_type args))) eqn:E1;
    [apply is_string_true in E1; injection E1 as E1; auto|].
  destruct (is_string "stable" (Some (release_type args))) eqn:E2;
    [apply is_string_true in E2; injection E2 as E2; auto|].
  destruct (is_string "preview" (Some (release_type args))) eqn:E3;
    [apply is_string_true in E3; injection E3 as E3; auto|].
  destruct (is_string "patch" (Some (release_type args))) eqn:E4;
    [apply is_string_true in E4; injection E4 as E4; auto 6|].
  rewrite outcome_throw in Hdata. discriminate.
Qed.

Lemma conflict_entries_nil (w : World) (version : string) :
  conflict_entries w version = [] ->
  registry_has w version = false /\ tag_store_has w version = false
  /\ release_host_has w version = false.
Proof.
  unfold conflict_entries.
  destruct (registry_has w version); [discriminate|].
  destruct (tag_store_has w version); [discriminate|].
  destruct (release_host_has w version); [discriminate|]. auto.
Qed.

(** X4.  What every result of [getVersion] satisfies, whatever the
    options, the command line and the answers of the three sources: the
    release tag is ["v"] and the release version; none of the three
    sources reports the release version as present; the channel is
    [nightly], [latest] or [preview]; and the previous release tag is
    ["v"] and a valid semantic version. *)
Theorem getVersion_result_invariants (w : World) (options : gmap string value) (r : Release) :
  outcome w (getVersion options) = Ok r ->
  releaseTag r = "v" +:+ releaseVersion (versionData r)
  /\ (registry_has w (releaseVersion (versionData r)) = false
      /\ tag_store_has w (releaseVersion (versionData r)) = false
      /\ release_host_has w (releaseVersion (versionData r)) = false)
  /\ (npmTag (versionData r) = "nightly" \/ npmTag (versionData r) = "latest"
      \/ npmTag (versionData r) = "preview")
  /\ exists previous,
       previousReleaseTag (versionData r) = "v" +:+ previous
       /\ SemVer.valid previous = true.
Proof.
  intros H. destruct (getArgs_total w) as [cli Hcli].
  destruct (getVersion_Ok w options cli r Hcli H)
    as (calculation & Htype & Hdata & Hcheck & Htag & _).
  split; [exact Htag|]. split.
  { apply conflict_entries_nil. rewrite validateVersionConflicts_outcome in Hcheck.
    by destruct (conflict_entries w _). }
  assert (Hprev : forall T p tags,
            outcome w (getAndVerifyTags T p) = Ok tags ->
            previousReleaseTag (versionData r) = latestTag tags ->
            exists previous, previousReleaseTag (versionData r) = "v" +:+ previous
                             /\ SemVer.valid previous = true).
  { intros T p tags Htags ->.
    destruct (getAndVerifyTags_validated w T p tags Htags) as (-> & Hvalid & _). eauto. }
  destruct Htype as [[_ ->]|[[_ ->]|[[_ ->]|[_ ->]]]].
  - destruct (getNightlyVersion_Ok w _ Hdata) as (tags & Htags & -> & Hp & _). eauto.
  - destruct (getStableVersion_Ok w _ _ Hdata) as (preview & stable & _ & Hs & -> & Hp & _).
    eauto.
  - destruct (getPreviewVersion_Ok w _ _ Hdata) as (nightly & preview & _ & Hs & -> & Hp & _).
    eauto 6.
  - destruct (getPatchVersion_Ok w _ _ Hdata)
      as (T & p & tags & [(_ & HT & _)|(_ & HT & _)] & Htags & -> & Hp & _); subst T; eauto 6.
Qed.

Lemma getVersion_result_invariants_witness :
  registry_has consistent_world "0.5.0" = false
  /\ tag_store_has consistent_world "0.5.0" = false
  /\ release_host_has consistent_world "0.5.0" = false.
Proof.
  assert (Hrun : outcome consistent_world
                   (getVersion ({[ "type" := VStr "stable" ]} : gmap string value))
                 = Ok {| releaseTag := "v0.5.0";
                         versionData := {| releaseVersion := "0.5.0";
                                           npmTag := "latest";
                                           previousReleaseTag := "v0.4.1" |} |})
    by (vm_compute; reflexivity).
  destruct (getVersion_result_invariants _ _ _ Hrun) as (_ & H & _).
  cbn [releaseVersion versionData] in H. exact H.
Defined.

(** X5.  The release type defaults to [nightly]: when neither the options
    nor the command line give a type, or the type they give is the empty
    text, [getVersion] does what it does for the type [nightly] alone, and
    neither the overrides nor [patch-from] play a part. *)
Theorem getVersion_defaults_to_nightly (w : World) (options cli : gmap string value) :
  outcome w getArgs = Ok cli ->
  is_truthy ((options ∪ cli) !! "type") = false ->
  outcome w (getVersion options) = outcome w (getVersion {[ "type" := VStr "nightly" ]})
  /\ queries w (getVersion options) = queries w (getVersion {[ "type" := VStr "nightly" ]}).
Proof.
  intros Hcli Htype. unfold getVersion.
  rewrite !outcome_bind, !queries_bind, Hcli.
  assert (H1 : release_type (options ∪ cli) = VStr "nightly").
  { unfold release_type. by rewrite Htype. }
  assert (H2 : release_type ({[ "type" := VStr "nightly" ]} ∪ cli) = VStr "nightly").
  { unfold release_type.
    by rewrite (lookup_union_l' _ cli "type") by (rewrite lookup_singleton_eq; eauto). }
  rewrite H1, H2. split; reflexivity.
Qed.

Lemma getVersion_defaults_to_nightly_witness :
  outcome (table_world consistent_table example_date
             ["node"; "get-release-version.js"; "--type="; "--patch-from=stable"])
          (getVersion {[ "stable_version_override" := VStr "1.2.3" ]})
  = outcome (table_world consistent_table example_date
               ["node"; "get-release-version.js"; "--type="; "--patch-from=stable"])
            (getVersion {[ "type" := VStr "nightly" ]}).
Proof.
  apply (getVersion_defaults_to_nightly
           (table_world consistent_table example_date
              ["node"; "get-release-version.js"; "--type="; "--patch-from=stable"])
           ({[ "stable_version_override" := VStr "1.2.3" ]} : gmap string value)
           ({[ "type" := VStr ""; "patch-from" := VStr "stable" ]} : gmap string value)).
  - vm_compute. reflexivity.
  - vm_compute. reflexivity.
Defined.

(** X6.  The commands of a successful resolution, in order.  Each release
    type validates its channels, with three commands for each: the
    registry, the tag store and the release host, asked for the tag that
    the first two agree on.  The nightly type then reads the commit hash.
    The last three commands are the conflict check of the version that is
    returned.  The override, when there is one, costs no command. *)
Theorem getVersion_commands_on_success
  (w : World) (options cli : gmap string value) (r : Release) :
  outcome w getArgs = Ok cli ->
  outcome w (getVersion options) = Ok r ->
  let validation (npmDistTag gitTagPattern tag : string) :=
    [ "npm view @google/gemini-cli version --tag=" +:+ npmDistTag;
      "git tag -l '" +:+ gitTagPattern +:+ "'";
      release_query tag ] in
  let conflict_check :=
    [ "npm view @google/gemini-cli versions --json";
      "git tag -l 'v" +:+ releaseVersion (versionData r) +:+ "'";
      release_query ("v" +:+ releaseVersion (versionData r)) ] in
  let previous := previousReleaseTag (versionData r) in
  (release_type (options ∪ cli) = VStr "nightly"
   /\ queries w (getVersion options) =
        validation "nightly" "v*-nightly*" previous
        ++ ["git rev-parse --short HEAD"] ++ conflict_check)
  \/ (release_type (options ∪ cli) = VStr "stable"
      /\ exists preview,
           outcome w (getAndVerifyTags "preview" "v*-preview*") = Ok preview
           /\ queries w (getVersion options) =
                validation "preview" "v*-preview*" (latestTag preview)
                ++ validation "latest" "v[0-9].[0-9].[0-9]" previous ++ conflict_check)
  \/ (release_type (options ∪ cli) = VStr "preview"
      /\ exists nightly,
           outcome w (getAndVerifyTags "nightly" "v*-nightly*") = Ok nightly
           /\ queries w (getVersion options) =
                validation "nightly" "v*-nightly*" (latestTag nightly)
                ++ validation "preview" "v*-preview*" previous ++ conflict_check)
  \/ (release_type (options ∪ cli) = VStr "patch"
      /\ ((options ∪ cli) !! "patch-from" = Some (VStr "stable")
          /\ queries w (getVersion options) =
               validation "latest" "v[0-9].[0-9].[0-9]" previous ++ conflict_check
          \/ (options ∪ cli) !! "patch-from" = Some (VStr "preview")
             /\ queries w (getVersion options) =
                  validation "preview" "v*-preview*" previous ++ conflict_check)).
Proof.
  intros Hcli H. cbv zeta.
  destruct (getVersion_Ok w options cli r Hcli H)
    as (calculation & Htype & Hdata & _ & _ & ->).
  rewrite validateVersionConflicts_queries.
  change (release_query ("v" +:+ releaseVersion (versionData r)))
    with ("gh release view " +:+ dq +:+ "v" +:+ releaseVersion (versionData r) +:+ dq
          +:+ " --json tagName --jq .tagName").
  unfold release_query.
  destruct Htype as [[Ht ->]|[[Ht ->]|[[Ht ->]|[Ht ->]]]].
  - left. split; [exact Ht|].
    destruct (getNightlyVersion_Ok w _ Hdata) as (tags & Htags & _ & -> & ->).
    by rewrite (getAndVerifyTags_queries_Ok _ _ _ _ Htags), <- app_assoc.
  - right. left. split; [exact Ht|].
    destruct (getStableVersion_Ok w _ _ Hdata) as (preview & stable & Hp & Hs & _ & -> & ->).
    exists preview. split; [exact Hp|].
    by rewrite (getAndVerifyTags_queries_Ok _ _ _ _ Hp),
      (getAndVerifyTags_queries_Ok _ _ _ _ Hs), <- app_assoc.
  - right. right. left. split; [exact Ht|].
    destruct (getPreviewVersion_Ok w _ _ Hdata) as (nightly & preview & Hn & Hp & _ & -> & ->).
    exists nightly. split; [exact Hn|].
    by rewrite (getAndVerifyTags_queries_Ok _ _ _ _ Hn),
      (getAndVerifyTags_queries_Ok _ _ _ _ Hp), <- app_assoc.
  - right. right. right. split; [exact Ht|].
    destruct (getPatchVersion_Ok w _ _ Hdata)
      as (T & p & tags & [(Hfrom & -> & ->)|(Hfrom & -> & ->)] & Htags & _ & -> & ->);
      [left|right]; (split; [exact Hfrom|]);
      by rewrite (getAndVerifyTags_queries_Ok _ _ _ _ Htags).
Qed.

Lemma getVersion_commands_on_success_witness :
  queries consistent_world (getVersion ∅) =
    [ "npm view @google/gemini-cli version --tag=nightly";
      "git tag -l 'v*-nightly*'";
      release_query "v0.6.0-nightly.20250910.a31830a3";
      "git rev-parse --short HEAD";
      "npm view @google/gemini-cli versions --json";
      "git tag -l 'v0.7.0-nightly.20250917.d3bf8a3d'";
      release_query "v0.7.0-nightly.20250917.d3bf8a3d" ].
Proof.
  assert (Hcli : outcome consistent_world getArgs = Ok (∅ : gmap string value))
    by (vm_compute; reflexivity).
  assert (Hrun : outcome consistent_world (getVersion (∅ : gmap string value))
                 = Ok {| releaseTag := "v0.7.0-nightly.20250917.d3bf8a3d";
                         versionData :=
                           {| releaseVersion := "0.7.0-nightly.20250917.d3bf8a3d";
                              npmTag := "nightly";
                              previousReleaseTag := "v0.6.0-nightly.20250910.a31830a3" |} |})
    by (vm_compute; reflexivity).
  destruct (getVersion_commands_on_success _ _ _ _ Hcli Hrun)
    as [[_ H]|[[Ht _]|[[Ht _]|[Ht _]]]];
    [exact H|vm_compute in Ht; discriminate Ht..].
Defined.

(** X7.  [getNightlyVersion] does not catch a failure of
    [git rev-parse --short HEAD]: once the nightly channel is validated,
    the error of that command is the error of the calculation, and of
    [getVersion] for the nightly type, which then runs no conflict check. *)
Theorem getNightlyVersion_hash_failure (w : World) (tags : Tags) (e : string) :
  outcome w (getAndVerifyTags "nightly" "v*-nightly*") = Ok tags ->
  process_output w "git rev-parse --short HEAD" = inr e ->
  (outcome w getNightlyVersion = Throw e
   /\ queries w getNightlyVersion =
        queries w (getAndVerifyTags "nightly" "v*-nightly*") ++ ["git rev-parse --short HEAD"])
  /\ forall options cli,
       outcome w getArgs = Ok cli ->
       release_type (options ∪ cli) = VStr "nightly" ->
       outcome w (getVersion options) = Throw e
       /\ queries w (getVersion options) =
            queries w (getAndVerifyTags "nightly" "v*-nightly*")
            ++ ["git rev-parse --short HEAD"].
Proof.
  intros Htags Hhash.
  assert (Hcalc : outcome w getNightlyVersion = Throw e
                  /\ queries w getNightlyVersion =
                       queries w (getAndVerifyTags "nightly" "v*-nightly*")
                       ++ ["git rev-parse --short HEAD"]).
  { unfold getNightlyVersion.
    rewrite outcome_bind, Htags, (queries_bind_Ok _ _ _ _ Htags).
    rewrite outcome_bind, outcome_now, outcome_bind, outcome_execSync, Hhash.
    rewrite queries_bind, queries_now, outcome_now, queries_bind, queries_execSync,
      outcome_execSync, Hhash.
    by rewrite app_nil_r. }
  split; [exact Hcalc|].
  intros options cli Hcli Htype. unfold getVersion.
  rewrite outcome_bind, Hcli, (queries_bind_Ok _ _ _ _ Hcli), getArgs_queries, app_nil_l.
  rewrite Htype. change (is_string "nightly" (Some (VStr "nightly"))) with true. cbv iota.
  rewrite outcome_bind, queries_bind, (proj1 Hcalc), (proj2 Hcalc).
  by rewrite app_nil_r.
Qed.

Lemma getNightlyVersion_hash_failure_witness :
  outcome (table_world (("git rev-parse --short HEAD", inr "fatal: not a git repository")
                        :: consistent_table) example_date ["node"; "get-release-version.js"])
          getNightlyVersion
  = Throw "fatal: not a git repository".
Proof.
  apply (getNightlyVersion_hash_failure
           (table_world (("git rev-parse --short HEAD", inr "fatal: not a git repository")
                         :: consistent_table) example_date ["node"; "get-release-version.js"])
           (mkTags "0.6.0-nightly.20250910.a31830a3" "v0.6.0-nightly.20250910.a31830a3")
           "fatal: not a git repository").
  - vm_compute. reflexivity.
  - vm_compute. reflexivity.
Defined.

(** ** Channels that cannot be validated *)

(** What [getLatestTag] returns is empty or ["v"] and a valid version. *)
Lemma getLatestTag_shape (w : World) (pattern tag : string) :
  outcome w (getLatestTag pattern) = Ok tag ->
  tag = "" \/ exists v, tag = "v" +:+ v /\ SemVer.valid v = true.
Proof.
  rewrite getLatestTag_outcome. intros [= <-].
  destruct (process_output w _) as [out|e]; [|by left].
  pose proof (latest_version_selected (reported_tags out)) as Hsel.
  destruct (sort _ _) as [|v rest]; [by left|].
  destruct Hsel as (t & pv & _ & _ & Hv & _).
  right. exists v. split; [reflexivity|]. unfold SemVer.valid. by rewrite Hv.
Qed.

(** X8.  A channel whose registry or tag store gives nothing is never
    validated.  [getVersionFromNPM] and [getLatestTag] turn a failed
    query, and an answer without a version, into the empty text; ["v"]
    and a version is never empty, and ["v"] alone is no tag that
    [getLatestTag] returns, so [getAndVerifyTags] throws the discrepancy
    error with the empty text between the brackets, and the release host
    is not asked. *)
Theorem getAndVerifyTags_unreachable_source (w : World) (npmDistTag gitTagPattern : string) :
  (forall e,
     process_output w ("npm view @google/gemini-cli version --tag=" +:+ npmDistTag) = inr e ->
     outcome w (getVersionFromNPM npmDistTag) = Ok "")
  /\ (forall e,
        process_output w ("git tag -l '" +:+ gitTagPattern +:+ "'") = inr e ->
        outcome w (getLatestTag gitTagPattern) = Ok "")
  /\ (outcome w (getVersionFromNPM npmDistTag) = Ok "" ->
      exists tag,
        outcome w (getLatestTag gitTagPattern) = Ok tag
        /\ outcome w (getAndVerifyTags npmDistTag gitTagPattern) =
             Throw ("Discrepancy found! NPM " +:+ npmDistTag
                    +:+ " tag () does not match latest git " +:+ npmDistTag
                    +:+ " tag (" +:+ tag +:+ ").")
        /\ queries w (getAndVerifyTags npmDistTag gitTagPattern) =
             [ "npm view @google/gemini-cli version --tag=" +:+ npmDistTag;
               "git tag -l '" +:+ gitTagPattern +:+ "'" ])
  /\ (outcome w (getLatestTag gitTagPattern) = Ok "" ->
      exists version,
        outcome w (getVersionFromNPM npmDistTag) = Ok version
        /\ outcome w (getAndVerifyTags npmDistTag gitTagPattern) =
             Throw ("Discrepancy found! NPM " +:+ npmDistTag +:+ " tag (" +:+ version
                    +:+ ") does not match latest git " +:+ npmDistTag +:+ " tag ().")
        /\ queries w (getAndVerifyTags npmDistTag gitTagPattern) =
             [ "npm view @google/gemini-cli version --tag=" +:+ npmDistTag;
               "git tag -l '" +:+ gitTagPattern +:+ "'" ]).
Proof.
  split; [|split; [|split]].
  - intros e He. by rewrite getVersionFromNPM_outcome, He.
  - intros e He. by rewrite getLatestTag_outcome, He.
  - intros Hv. destruct (getLatestTag_total w gitTagPattern) as [tag Ht].
    exists tag. split; [exact Ht|].
    rewrite (getAndVerifyTags_outcome w _ _ _ _ Hv Ht),
      (getAndVerifyTags_queries w _ _ _ _ Hv Ht).
    assert (E : String.eqb ("v" +:+ "") tag = false).
    { apply String.eqb_neq. intros <-.
      destruct (getLatestTag_shape w _ _ Ht) as [Hx|(v & Hx & Hvalid)]; [discriminate Hx|].
      injection Hx as Hx. change ("" = v) in Hx. subst v. discriminate Hvalid. }
    rewrite E. auto.
  - intros Ht. eexists. split; [apply getVersionFromNPM_outcome|].
    rewrite (getAndVerifyTags_outcome w _ _ _ _ (getVersionFromNPM_outcome w _) Ht),
      (getAndVerifyTags_queries w _ _ _ _ (getVersionFromNPM_outcome w _) Ht).
    auto.
Qed.

Lemma getAndVerifyTags_unreachable_source_witness :
  exists tag,
    outcome (table_world [("git tag -l 'v*-preview*'", inl (line "v0.5.0-preview.2"))]
               example_date [])
            (getLatestTag "v*-preview*") = Ok tag
    /\ outcome (table_world [("git tag -l 'v*-preview*'", inl (line "v0.5.0-preview.2"))]
                  example_date [])
               (getAndVerifyTags "preview" "v*-preview*")
       = Throw ("Discrepancy found! NPM preview tag () does not match latest git preview tag ("
                +:+ tag +:+ ").").
Proof.
  destruct (getAndVerifyTags_unreachable_source
              (table_world [("git tag -l 'v*-preview*'", inl (line "v0.5.0-preview.2"))]
                 example_date [])
              "preview" "v*-preview*") as (_ & _ & H & _).
  destruct (H ltac:(vm_compute; reflexivity)) as (tag & H1 & H2 & _).
  exists tag. split; [exact H1|exact H2].
Defined.

(** X9.  The two ways a channel validation ends.  What it returns is a
    tag and a version such that the tag is ["v"] and the version, the
    version is a valid semantic version (the registry's text passed the
    filter that [getLatestTag] applies to tags) and has no white space
    around it.  What it throws starts with [Discrepancy found!]. *)
Theorem getAndVerifyTags_ends (w : World) (npmDistTag gitTagPattern : string) :
  match outcome w (getAndVerifyTags npmDistTag gitTagPattern) with
  | Ok tags =>
      latestTag tags = "v" +:+ latestVersion tags
      /\ SemVer.valid (latestVersion tags) = true
      /\ trim (latestVersion tags) = latestVersion tags
  | Throw e => startsWith "Discrepancy found!" e = true
  end.
Proof.
  destruct (outcome w (getAndVerifyTags npmDistTag gitTagPattern)) as [tags|e] eqn:E.
  - by apply (getAndVerifyTags_validated w npmDistTag gitTagPattern).
  - by apply (getAndVerifyTags_throws_discrepancy w npmDistTag gitTagPattern).
Qed.

(** ** Formats, overrides and failed validations *)

(** X10.  The texts that [validateVersion] accepts.  For the format
    [X.Y.Z] they are three non-empty runs of decimal digits with a dot
    between them, and for [X.Y.Z-preview.N] the same followed by
    [-preview.] and a fourth run; a run may start with zeros.  No text is
    accepted for another format name.  For these two formats every other
    text throws the [Invalid ... Must be in ... format.] error. *)
Theorem validateVersion_accepts_exactly (w : World) (version format name : string) :
  let decimal (s : string) := truthy s = true /\ all is_digit s = true in
  (outcome w (validateVersion version format name) = Ok tt <->
   (format = "X.Y.Z"
    /\ exists x y z,
         version = x +:+ "." +:+ y +:+ "." +:+ z
         /\ decimal x /\ decimal y /\ decimal z)
   \/ (format = "X.Y.Z-preview.N"
       /\ exists x y z n,
            version = x +:+ "." +:+ y +:+ "." +:+ z +:+ "-preview." +:+ n
            /\ decimal x /\ decimal y /\ decimal z /\ decimal n))
  /\ (format = "X.Y.Z" \/ format = "X.Y.Z-preview.N" ->
      outcome w (validateVersion version format name) = Ok tt
      \/ outcome w (validateVersion version format name) =
           Throw ("Invalid " +:+ name +:+ ": " +:+ version +:+ ". Must be in " +:+ format
                  +:+ " format.")).
Proof.
  cbv zeta. rewrite validateVersion_outcome. unfold versionRegex.
  destruct (String.eqb format "X.Y.Z") eqn:E1.
  { apply String.eqb_eq in E1. subst format. split.
    - destruct (test_X_Y_Z version) eqn:T.
      + split; [intros _; left; split; [reflexivity|by apply test_X_Y_Z_spec]|reflexivity].
      + split; [discriminate|].
        intros [(_ & H)|(H & _)]; [|discriminate H].
        apply test_X_Y_Z_spec in H. congruence.
    - intros _. destruct (test_X_Y_Z version); auto. }
  destruct (String.eqb format "X.Y.Z-preview.N") eqn:E2.
  { apply String.eqb_eq in E2. subst format. split.
    - destruct (test_X_Y_Z_preview_N version) eqn:T.
      + split; [intros _; right; split; [reflexivity|by apply test_X_Y_Z_preview_N_spec]
               |reflexivity].
      + split; [discriminate|].
        intros [(H & _)|(_ & H)]; [discriminate H|].
        apply test_X_Y_Z_preview_N_spec in H. congruence.
    - intros _. destruct (test_X_Y_Z_preview_N version); auto. }
  apply String.eqb_neq in E1, E2. split; [|intros [H|H]; contradiction].
  split; [|intros [(H & _)|(H & _)]; contradiction].
  destruct (existsb (String.eqb format) prototype_members); discriminate.
Qed.

(** X11.  An override given as a flag without a value, as
    [--stable_version_override] alone, is [true], which is truthy and has
    no [replace]: once the first channel is validated the calculation
    fails, and the second channel is not asked. *)
Theorem override_flag_without_value (w : World) (args : gmap string value) :
  (args !! "stable_version_override" = Some VTrue ->
   forall preview,
     outcome w (getAndVerifyTags "preview" "v*-preview*") = Ok preview ->
     (exists e, outcome w (getStableVersion args) = Throw e)
     /\ queries w (getStableVersion args) =
          queries w (getAndVerifyTags "preview" "v*-preview*"))
  /\ (args !! "preview_version_override" = Some VTrue ->
      forall nightly,
        outcome w (getAndVerifyTags "nightly" "v*-nightly*") = Ok nightly ->
        (exists e, outcome w (getPreviewVersion args) = Throw e)
        /\ queries w (getPreviewVersion args) =
             queries w (getAndVerifyTags "nightly" "v*-nightly*")).
Proof.
  split.
  - intros Hflag preview Hp. unfold getStableVersion.
    rewrite outcome_bind, Hp, (queries_bind_Ok _ _ _ _ Hp), Hflag.
    cbn [is_truthy overrideVersion].
    rewrite outcome_bind, queries_bind, outcome_throw, queries_throw, app_nil_r. eauto.
  - intros Hflag nightly Hn. unfold getPreviewVersion.
    rewrite outcome_bind, Hn, (queries_bind_Ok _ _ _ _ Hn), Hflag.
    cbn [is_truthy overrideVersion].
    rewrite outcome_bind, queries_bind, outcome_throw, queries_throw, app_nil_r. eauto.
Qed.

Lemma override_flag_without_value_witness :
  queries (table_world consistent_table example_date
             ["node"; "get-release-version.js"; "--type=stable"; "--stable_version_override"])
          (getStableVersion {[ "stable_version_override" := VTrue ]})
  = queries (table_world consistent_table example_date
               ["node"; "get-release-version.js"; "--type=stable"; "--stable_version_override"])
            (getAndVerifyTags "preview" "v*-preview*").
Proof.
  assert (Hflag : ({[ "stable_version_override" := VTrue ]} : gmap string value)
                    !! "stable_version_override" = Some VTrue)
    by (vm_compute; reflexivity).
  apply (proj1 (override_flag_without_value
                  (table_world consistent_table example_date
                     ["node"; "get-release-version.js"; "--type=stable";
                      "--stable_version_override"])
                  ({[ "stable_version_override" := VTrue ]} : gmap string value))
               Hflag (mkTags "0.5.0-preview.2" "v0.5.0-preview.2")).
  vm_compute. reflexivity.
Defined.

(** X12.  A channel validation that fails stops the calculation: its
    error is the error of the calculation, no later command is run (the
    second channel is not asked, the commit hash is not read) and the
    override is not looked at. *)
Theorem failed_validation_stops_the_calculation
  (w : World) (args : gmap string value) (e : string) :
  (outcome w (getAndVerifyTags "nightly" "v*-nightly*") = Throw e ->
   (outcome w getNightlyVersion = Throw e
    /\ queries w getNightlyVersion = queries w (getAndVerifyTags "nightly" "v*-nightly*"))
   /\ (outcome w (getPreviewVersion args) = Throw e
       /\ queries w (getPreviewVersion args) =
            queries w (getAndVerifyTags "nightly" "v*-nightly*")))
  /\ (outcome w (getAndVerifyTags "preview" "v*-preview*") = Throw e ->
      (outcome w (getStableVersion args) = Throw e
       /\ queries w (getStableVersion args) =
            queries w (getAndVerifyTags "preview" "v*-preview*"))
      /\ (outcome w (getPatchVersion (Some (VStr "preview"))) = Throw e
          /\ queries w (getPatchVersion (Some (VStr "preview"))) =
               queries w (getAndVerifyTags "preview" "v*-preview*")))
  /\ (outcome w (getAndVerifyTags "latest" "v[0-9].[0-9].[0-9]") = Throw e ->
      outcome w (getPatchVersion (Some (VStr "stable"))) = Throw e
      /\ queries w (getPatchVersion (Some (VStr "stable"))) =
           queries w (getAndVerifyTags "latest" "v[0-9].[0-9].[0-9]")).
Proof.
  split; [|split].
  - intros H. unfold getNightlyVersion, getPreviewVersion.
    by rewrite !outcome_bind, !queries_bind, H, app_nil_r.
  - intros H. unfold getStableVersion, getPatchVersion.
    cbn [is_truthy truthy is_string negb orb andb].
    change (String.eqb "preview" "stable") with false.
    change (String.eqb "preview" "preview") with true.
    cbn [negb orb andb]. change (String.eqb "preview" "latest") with false. cbv iota.
    by rewrite !outcome_bind, !queries_bind, H, app_nil_r.
  - intros H. unfold getPatchVersion.
    cbn [is_truthy truthy is_string negb orb andb].
    change (String.eqb "stable" "stable") with true.
    cbn [negb orb andb]. change (String.eqb "latest" "latest") with true. cbv iota.
    by rewrite !outcome_bind, !queries_bind, H, app_nil_r.
Qed.

Lemma failed_validation_stops_the_calculation_witness :
  outcome preview_drifted_world
    (getStableVersion {[ "stable_version_override" := VStr "not a version" ]})
  = Throw "Discrepancy found! NPM preview tag (0.5.0-preview.3) does not match latest git preview tag (v0.5.0-preview.2)."
  /\ queries preview_drifted_world
       (getStableVersion {[ "stable_version_override" := VStr "not a version" ]})
     = queries preview_drifted_world (getAndVerifyTags "preview" "v*-preview*").
Proof.
  apply (proj1 (proj1 (proj2 (failed_validation_stops_the_calculation
                                preview_drifted_world
                                ({[ "stable_version_override" := VStr "not a version" ]}
                                   : gmap string value)
                                "Discrepancy found! NPM preview tag (0.5.0-preview.3) does not match latest git preview tag (v0.5.0-preview.2)."))
                      ltac:(vm_compute; reflexivity))).
Defined.

(** X13.  The stable type validates the [latest] channel after the
    override: when the preview channel is validated and the override is
    absent or well-formed, the commands are those of the two validations;
    a discrepancy of the [latest] channel is the error of the calculation,
    also for a well-formed override; and the tag of the [latest] channel
    is the previous release tag of the result. *)
Theorem getStableVersion_validates_latest_channel
  (w : World) (args : gmap string value) (preview : Tags) :
  outcome w (getAndVerifyTags "preview" "v*-preview*") = Ok preview ->
  (is_truthy (args !! "stable_version_override") = false
   \/ exists text, args !! "stable_version_override" = Some (VStr text)
                   /\ truthy text = true
                   /\ test_X_Y_Z (strip_v text) = true) ->
  queries w (getStableVersion args) =
    queries w (getAndVerifyTags "preview" "v*-preview*")
    ++ queries w (getAndVerifyTags "latest" "v[0-9].[0-9].[0-9]")
  /\ (forall e,
        outcome w (getAndVerifyTags "latest" "v[0-9].[0-9].[0-9]") = Throw e ->
        outcome w (getStableVersion args) = Throw e
        /\ startsWith "Discrepancy found!" e = true)
  /\ (forall stable,
        outcome w (getAndVerifyTags "latest" "v[0-9].[0-9].[0-9]") = Ok stable ->
        exists version,
          outcome w (getStableVersion args) =
            Ok {| releaseVersion := version;
                  npmTag := "latest";
                  previousReleaseTag := latestTag stable |}).
Proof.
  intros Hpreview Hoverride.
  assert (Hstep : exists version,
             outcome w (if is_truthy (args !! "stable_version_override")
                        then overrideVersion (args !! "stable_version_override")
                               "X.Y.Z" "stable_version_override"
                        else mret (replace_lit_dot_star "-preview" (latestVersion preview)))
             = Ok version).
  { destruct Hoverride as [Hno|(text & Hsome & Htruthy & Htest)].
    - rewrite Hno. eexists. reflexivity.
    - rewrite Hsome. cbn [is_truthy]. rewrite Htruthy, overrideVersion_outcome.
      cbn [versionRegex String.eqb Ascii.eqb Bool.eqb]. rewrite Htest. eauto. }
  destruct Hstep as (version & Hversion).
  assert (Hout : outcome w (getStableVersion args) =
                 match outcome w (getAndVerifyTags "latest" "v[0-9].[0-9].[0-9]") with
                 | Ok stable =>
                     Ok {| releaseVersion := version;
                           npmTag := "latest";
                           previousReleaseTag := latestTag stable |}
                 | Throw e => Throw e
                 end).
  { unfold getStableVersion.
    rewrite outcome_bind, Hpreview, outcome_bind, Hversion, outcome_bind.
    destruct (outcome w (getAndVerifyTags "latest" "v[0-9].[0-9].[0-9]")); reflexivity. }
  split; [|split].
  - unfold getStableVersion.
    rewrite (queries_bind_Ok _ _ _ _ Hpreview), (queries_bind_Ok _ _ _ _ Hversion),
      override_step_queries, queries_bind.
    destruct (outcome w (getAndVerifyTags "latest" "v[0-9].[0-9].[0-9]"));
      cbn [app]; rewrite ?queries_ret, ?app_nil_r; reflexivity.
  - intros e He. rewrite Hout, He. split; [reflexivity|].
    by apply (getAndVerifyTags_throws_discrepancy w "latest" "v[0-9].[0-9].[0-9]").
  - intros stable Hs. exists version. by rewrite Hout, Hs.
Qed.

Lemma getStableVersion_validates_latest_channel_witness :
  outcome drifted_world (getStableVersion {[ "stable_version_override" := VStr "1.2.3" ]})
  = Throw "Discrepancy found! NPM latest tag (0.4.1) does not match latest git latest tag (v0.4.2).".
Proof.
  assert (Hflag : ({[ "stable_version_override" := VStr "1.2.3" ]} : gmap string value)
                    !! "stable_version_override" = Some (VStr "1.2.3"))
    by (vm_compute; reflexivity).
  assert (Hpreview : outcome drifted_world (getAndVerifyTags "preview" "v*-preview*")
                     = Ok (mkTags "0.5.0-preview.2" "v0.5.0-preview.2"))
    by (vm_compute; reflexivity).
  destruct (getStableVersion_validates_latest_channel drifted_world
              ({[ "stable_version_override" := VStr "1.2.3" ]} : gmap string value) _ Hpreview
              (or_intror (ex_intro _ "1.2.3" (conj Hflag (conj eq_refl eq_refl)))))
    as (_ & H & _).
  apply (H _ ltac:(vm_compute; reflexivity)).
Defined.

(** ** The decimal text of a number *)

Lemma string_of_uint_length (d : Decimal.uint) :
  String.length (NilEmpty.string_of_uint d) = Decimal.nb_digits d.
Proof. induction d; cbn [NilEmpty.string_of_uint String.length Decimal.nb_digits]; congruence. Qed.

Lemma usize_nb_digits (d : Decimal.uint) :
  DecimalPos.Unsigned.usize d = N.of_nat (Decimal.nb_digits d).
Proof.
  induction d; cbn [DecimalPos.Unsigned.usize Decimal.nb_digits]; lia.
Qed.

(** The decimal text of a number is [0] or starts with another digit. *)
Lemma to_uint_normal (n : N) :
  N.to_uint n = Decimal.D0 Decimal.Nil
  \/ (forall d, N.to_uint n <> Decimal.D0 d) /\ N.to_uint n <> Decimal.Nil.
Proof.
  pose proof (DecimalN.Unsigned.to_of (N.to_uint n)) as H.
  rewrite DecimalN.Unsigned.of_to in H. unfold Decimal.unorm in H.
  destruct (Decimal.nzhead (N.to_uint n)) as [|u|u|u|u|u|u|u|u|u|u] eqn:E;
    [by left|by destruct (DecimalFacts.nzhead_nonzero _ _ E)|..];
    right; (split; [intros d Hd; rewrite Hd in H; discriminate H|apply to_uint_nonnil]).
Qed.

Lemma show_N_numeric_identifier (n : N) : SemVer.is_numeric_identifier (show_N n) = true.
Proof.
  pose proof (show_N_digits n) as Hd. unfold show_N in *.
  destruct (to_uint_normal n) as [->|[H0 Hnil]]; [reflexivity|].
  destruct (N.to_uint n) as [|d|d|d|d|d|d|d|d|d|d]; try exact Hd.
  - contradiction.
  - by destruct (H0 d).
Qed.

Lemma main_number_show_N_Some (n : N) :
  (n <= SemVer.MAX_SAFE_INTEGER)%N -> SemVer.main_number (show_N n) = Some n.
Proof.
  intros H. unfold SemVer.main_number.
  rewrite show_N_numeric_identifier, dec_to_N_show.
  by destruct (N.leb_spec n SemVer.MAX_SAFE_INTEGER); [|lia].
Qed.

(** A number with more than [k] digits is at least [10^k]. *)
Lemma show_N_length_bound (n : N) (k : nat) :
  (n < 10 ^ N.of_nat k)%N -> (String.length (show_N n) <= Nat.max 1 k)%nat.
Proof.
  intros Hn. unfold show_N. rewrite string_of_uint_length.
  destruct (to_uint_normal n) as [->|[H0 Hnil]]; [cbn; lia|].
  pose proof (DecimalN.Unsigned.of_to n) as Hv. unfold N.of_uint in Hv.
  assert (Hlow : forall (d : Decimal.uint) (acc : positive),
            (10 ^ DecimalPos.Unsigned.usize d
             <= Npos (Pos.of_uint_acc d acc))%N).
  { intros d acc. rewrite DecimalPos.Unsigned.of_uint_acc_rev.
    pose proof (N.pow_nonzero 10 (DecimalPos.Unsigned.usize d) ltac:(lia)).
    nia. }
  assert (Hdigits : forall d, (10 ^ DecimalPos.Unsigned.usize d <= n)%N ->
                              (S (Decimal.nb_digits d) <= Nat.max 1 k)%nat).
  { intros d Hd. rewrite usize_nb_digits in Hd.
    assert (N.of_nat (Decimal.nb_digits d) < N.of_nat k)%N; [|lia].
    apply (N.pow_lt_mono_r_iff 10); lia. }
  destruct (N.to_uint n) as [|d|d|d|d|d|d|d|d|d|d];
    cbn [Decimal.nb_digits]; cbn [Pos.of_uint] in Hv;
    try (apply Hdigits; rewrite <- Hv; apply Hlow).
  - contradiction.
  - by destruct (H0 d).
Qed.

Lemma show_N_safe_length (n : N) :
  (n <= SemVer.MAX_SAFE_INTEGER)%N -> (String.length (show_N n) <= 16)%nat.
Proof.
  intros H. apply (show_N_length_bound n 16).
  unfold SemVer.MAX_SAFE_INTEGER in H. change (10 ^ N.of_nat 16)%N with 10000000000000000%N. lia.
Qed.

(** ** Parsing a version text *)

Lemma length_app (a b : string) :
  String.length (a +:+ b) = (String.length a + String.length b)%nat.
Proof. induction a as [|c a IH]; [reflexivity|]. rewrite append_cons. cbn [String.length]. lia. Qed.

Lemma trimEnd_nonspace (s : string) :
  all (fun c => negb (is_space c)) s = true -> trimEnd s = s.
Proof.
  induction s as [|c s IH]; [reflexivity|].
  rewrite all_cons, andb_true_iff. intros [Hc Hs]. cbn [trimEnd]. rewrite (IH Hs).
  destruct s; [|reflexivity]. by destruct (is_space c).
Qed.

Lemma trim_nonspace (s : string) :
  all (fun c => negb (is_space c)) s = true -> trim s = s.
Proof.
  intros H. unfold trim.
  destruct s as [|c s]; [reflexivity|].
  pose proof H as H'. rewrite all_cons, andb_true_iff in H'. destruct H' as [Hc _].
  rewrite trimStart_head by (by destruct (is_space c)).
  by apply trimEnd_nonspace.
Qed.

Lemma digits_nonspace (s : string) :
  all is_digit s = true -> all (fun c => negb (is_space c)) s = true.
Proof.
  apply all_impl. intros c Hc. by rewrite (digit_not_space c Hc).
Qed.

Lemma version_text_nonspace (M m p : N) :
  all (fun c => negb (is_space c)) (version_text M m p) = true.
Proof.
  unfold version_text.
  rewrite !all_app, !(digits_nonspace _ (show_N_digits _)). reflexivity.
Qed.

Lemma cut_lacks (c : ascii) (s : string) : lacks c s = true -> SemVer.cut c s = (s, None).
Proof.
  induction s as [|d s IH]; [reflexivity|].
  unfold lacks. rewrite all_cons, andb_true_iff. intros [Hd Hs].
  cbn [SemVer.cut]. apply negb_true_iff in Hd. rewrite Hd, (IH Hs). reflexivity.
Qed.

Lemma version_text_length (M m p : N) :
  (M <= SemVer.MAX_SAFE_INTEGER)%N -> (m <= SemVer.MAX_SAFE_INTEGER)%N ->
  (p <= SemVer.MAX_SAFE_INTEGER)%N ->
  (String.length (version_text M m p) <= 50)%nat.
Proof.
  intros HM Hm Hp. unfold version_text. rewrite !length_app.
  pose proof (show_N_safe_length M HM). pose proof (show_N_safe_length m Hm).
  pose proof (show_N_safe_length p Hp). cbn [String.length]. lia.
Qed.

(** [semver.parse] of [major.minor.patch-pre], for a text [pre] without
    [+] and without white space: the three numbers must be safe integers
    and the parts of [pre] between dots prerelease identifiers. *)
Lemma parse_version_text_dash (M m p : N) (pre : string) :
  lacks "+" pre = true ->
  all (fun c => negb (is_space c)) pre = true ->
  SemVer.parse (version_text M m p +:+ String "-" pre) =
    if (SemVer.MAX_LENGTH <? String.length (version_text M m p +:+ String "-" pre))%nat
    then None
    else match SemVer.main_number (show_N M), SemVer.main_number (show_N m),
               SemVer.main_number (show_N p),
               SemVer.traverse SemVer.prerelease_identifier (split "." pre) with
         | Some x, Some y, Some z, Some ids => Some (SemVer.mk x y z ids [])
         | _, _, _, _ => None
         end.
Proof.
  intros Hplus Hspace. unfold SemVer.parse.
  destruct (_ <? _)%nat; [reflexivity|].
  rewrite trim_nonspace by (rewrite all_app, all_cons, version_text_nonspace, Hspace; reflexivity).
  rewrite strip_v_version_text.
  rewrite cut_lacks by (rewrite lacks_app, version_text_lacks_plus; unfold lacks;
                        rewrite all_cons; exact Hplus).
  rewrite (cut_app_lacks "-" _ _ (version_text_lacks_dash _ _ _)).
  cbn [SemVer.cut]. change (Ascii.eqb "-" "-") with true. cbv iota. cbn [fst snd].
  rewrite append_nil_r, split_version_text.
  cbn [from_option SemVer.traverse].
  destruct (SemVer.main_number (show_N M)), (SemVer.main_number (show_N m)),
    (SemVer.main_number (show_N p)),
    (SemVer.traverse SemVer.prerelease_identifier (split "." pre)); reflexivity.
Qed.

(** [semver.parse] of [major.minor.patch] alone. *)
Lemma parse_version_text_plain (M m p : N) :
  (M <= SemVer.MAX_SAFE_INTEGER)%N -> (m <= SemVer.MAX_SAFE_INTEGER)%N ->
  (p <= SemVer.MAX_SAFE_INTEGER)%N ->
  SemVer.parse (version_text M m p) = Some (SemVer.mk M m p [] []).
Proof.
  intros HM Hm Hp. unfold SemVer.parse.
  pose proof (version_text_length M m p HM Hm Hp) as Hl.
  destruct (Nat.ltb_spec SemVer.MAX_LENGTH (String.length (version_text M m p)));
    [unfold SemVer.MAX_LENGTH in *; lia|].
  rewrite trim_nonspace by apply version_text_nonspace.
  rewrite <- (append_nil_r (version_text M m p)), strip_v_version_text, append_nil_r.
  rewrite (cut_lacks "+" _ (version_text_lacks_plus _ _ _)).
  rewrite (cut_lacks "-" _ (version_text_lacks_dash _ _ _)).
  rewrite split_version_text, !main_number_show_N_Some by assumption. reflexivity.
Qed.

(** The same with prerelease identifiers, all of them accepted. *)
Lemma parse_version_text_prerelease (M m p : N) (pre : string) (ids : list SemVer.identifier) :
  (M <= SemVer.MAX_SAFE_INTEGER)%N -> (m <= SemVer.MAX_SAFE_INTEGER)%N ->
  (p <= SemVer.MAX_SAFE_INTEGER)%N ->
  lacks "+" pre = true ->
  all (fun c => negb (is_space c)) pre = true ->
  (String.length pre <= 200)%nat ->
  SemVer.traverse SemVer.prerelease_identifier (split "." pre) = Some ids ->
  SemVer.parse (version_text M m p +:+ String "-" pre) = Some (SemVer.mk M m p ids []).
Proof.
  intros HM Hm Hp Hplus Hspace Hlen Hids.
  rewrite (parse_version_text_dash M m p pre Hplus Hspace).
  pose proof (version_text_length M m p HM Hm Hp) as Hl.
  destruct (Nat.ltb_spec SemVer.MAX_LENGTH
              (String.length (version_text M m p +:+ String "-" pre))) as [H|_].
  { rewrite length_app in H. cbn [String.length] in H. unfold SemVer.MAX_LENGTH in H. lia. }
  by rewrite !main_number_show_N_Some, Hids by assumption.
Qed.

(** What a version [major.minor.patch-rest] that parses is made of: its
    three numbers, and the prerelease identifiers between the dash and a
    plus sign. *)
Lemma parse_version_text_anatomy (M m p : N) (rest : string) (sv : SemVer.t) :
  trim (version_text M m p +:+ String "-" rest) = version_text M m p +:+ String "-" rest ->
  SemVer.parse (version_text M m p +:+ String "-" rest) = Some sv ->
  (SemVer.major sv = M /\ SemVer.minor sv = m /\ SemVer.patch sv = p)
  /\ SemVer.traverse SemVer.prerelease_identifier (split "." (fst (SemVer.cut "+" rest)))
     = Some (SemVer.prerelease sv).
Proof.
  intros Htrim Hparse.
  split; [by destruct (parse_version_text M m p (String "-" rest) sv (or_intror eq_refl)
                         Htrim Hparse) as (H & _)|].
  revert Hparse. unfold SemVer.parse. destruct (_ <? _)%nat; [discriminate|].
  rewrite Htrim, strip_v_version_text.
  rewrite (cut_app_lacks "+" _ _ (version_text_lacks_plus _ _ _)).
  cbn [SemVer.cut]. change (Ascii.eqb "-" "+") with false. cbv iota.
  destruct (SemVer.cut "+" rest) as [a b]. cbn [fst snd].
  rewrite (cut_app_lacks "-" _ _ (version_text_lacks_dash _ _ _)).
  cbn [SemVer.cut]. change (Ascii.eqb "-" "-") with true. cbv iota. cbn [fst snd].
  rewrite append_nil_r, split_version_text. cbn [from_option].
  destruct (SemVer.main_number (show_N M)); [|discriminate].
  destruct (SemVer.main_number (show_N m)); [|discriminate].
  destruct (SemVer.main_number (show_N p)); [|discriminate].
  destruct (SemVer.traverse SemVer.prerelease_identifier (split "." a)); [|discriminate].
  destruct (SemVer.traverse _ _); [|discriminate].
  by intros [= <-].
Qed.

(** A version that a channel validation returned parses. *)
Lemma validated_parses (w : World) (npmDistTag gitTagPattern : string) (tags : Tags) :
  outcome w (getAndVerifyTags npmDistTag gitTagPattern) = Ok tags ->
  exists sv, SemVer.parse (latestVersion tags) = Some sv
             /\ trim (latestVersion tags) = latestVersion tags.
Proof.
  intros Htags. apply getAndVerifyTags_validated in Htags as (_ & Hvalid & Htrim).
  unfold SemVer.valid in Hvalid.
  destruct (SemVer.parse _) as [sv|]; [eauto|discriminate].
Qed.

(** ** The calculated version against the version it starts from *)

Lemma newer_main (a b : string) (x y : SemVer.t) :
  SemVer.parse a = Some x -> SemVer.parse b = Some y ->
  SemVer.compareMain x y = Gt -> newer a b = true.
Proof. intros Ha Hb H. unfold newer, SemVer.compare. by rewrite Ha, Hb, H. Qed.

Lemma newer_pre (a b : string) (x y : SemVer.t) :
  SemVer.parse a = Some x -> SemVer.parse b = Some y ->
  SemVer.major x = SemVer.major y -> SemVer.minor x = SemVer.minor y ->
  SemVer.patch x = SemVer.patch y ->
  SemVer.comparePre (SemVer.prerelease x) (SemVer.prerelease y) = Gt ->
  newer a b = true.
Proof.
  intros Ha Hb H1 H2 H3 H. unfold newer, SemVer.compare, SemVer.compareMain.
  by rewrite Ha, Hb, H1, H2, H3, !N.compare_refl, H.
Qed.

Lemma traverse_cons_Some {A B : Type} (f : A -> option B) (x : A) (l : list A) (r : list B) :
  SemVer.traverse f (x :: l) = Some r ->
  exists y ys, f x = Some y /\ SemVer.traverse f l = Some ys /\ r = y :: ys.
Proof.
  cbn [SemVer.traverse]. destruct (f x) as [y|]; [|discriminate].
  destruct (SemVer.traverse f l) as [ys|]; [|discriminate].
  intros [= <-]. eauto.
Qed.

Lemma prerelease_identifier_show_N (n : N) :
  SemVer.prerelease_identifier (show_N n) = Some (SemVer.IdNum n).
Proof.
  unfold SemVer.prerelease_identifier, SemVer.is_prerelease_identifier.
  rewrite show_N_truthy, show_N_digits, show_N_numeric_identifier, dec_to_N_show.
  rewrite (all_impl is_digit SemVer.is_letter_dash_number (show_N n));
    [reflexivity| |apply show_N_digits].
  intros c Hc. unfold SemVer.is_letter_dash_number. by rewrite Hc.
Qed.

(** X14.  A patch of the stable channel: the validated version
    [major.minor.patch] gives [major.minor.(patch+1)] on the channel
    [latest], with the validated tag as the previous release tag; as long
    as the new patch number is a safe integer, the new version is a valid
    semantic version of higher precedence than the validated one. *)
Theorem getPatchVersion_stable_is_newer
  (w : World) (major minor patch : N) (tag : string) :
  outcome w (getAndVerifyTags "latest" "v[0-9].[0-9].[0-9]")
    = Ok (mkTags (version_text major minor patch) tag) ->
  outcome w (getPatchVersion (Some (VStr "stable"))) =
    Ok {| releaseVersion := version_text major minor (patch + 1);
          npmTag := "latest";
          previousReleaseTag := tag |}
  /\ ((patch + 1 <= SemVer.MAX_SAFE_INTEGER)%N ->
      newer (version_text major minor (patch + 1)) (version_text major minor patch) = true).
Proof.
  intros Htags. split; [by apply getPatchVersion_stable_increments_patch|].
  intros Hsafe.
  destruct (validated_version_text _ _ _ _ _ _ "" _
              ltac:(rewrite append_nil_r; exact Htags) (or_introl eq_refl))
    as [(HM & Hm & Hp) _].
  apply (newer_main _ _ _ _ (parse_version_text_plain _ _ _ HM Hm Hsafe)
           (parse_version_text_plain _ _ _ HM Hm Hp)).
  unfold SemVer.compareMain. cbn [SemVer.major SemVer.minor SemVer.patch SemVer.lexi].
  rewrite !N.compare_refl. apply N.compare_gt_iff. lia.
Qed.

Lemma getPatchVersion_stable_is_newer_witness :
  outcome consistent_world (getPatchVersion (Some (VStr "stable"))) =
    Ok {| releaseVersion := "0.4.2"; npmTag := "latest"; previousReleaseTag := "v0.4.1" |}.
Proof.
  apply (getPatchVersion_stable_is_newer consistent_world 0 4 1 "v0.4.1").
  vm_compute. reflexivity.
Defined.

(** X15.  A patch of the preview channel: the validated version
    [major.minor.patch-preview.N] with a decimal number [N] gives
    [major.minor.patch-preview.(N+1)] on the channel [preview], a valid
    semantic version of higher precedence than the validated one. *)
Theorem getPatchVersion_preview_is_newer
  (w : World) (major minor patch n : N) (tag : string) :
  outcome w (getAndVerifyTags "preview" "v*-preview*")
    = Ok (mkTags (version_text major minor patch +:+ "-preview." +:+ show_N n) tag) ->
  (n <= SemVer.MAX_SAFE_INTEGER)%N ->
  outcome w (getPatchVersion (Some (VStr "preview"))) =
    Ok {| releaseVersion := version_text major minor patch +:+ "-preview." +:+ show_N (n + 1);
          npmTag := "preview";
          previousReleaseTag := tag |}
  /\ newer (version_text major minor patch +:+ "-preview." +:+ show_N (n + 1))
           (version_text major minor patch +:+ "-preview." +:+ show_N n) = true.
Proof.
  intros Htags Hn. split; [by apply getPatchVersion_preview_increments_number|].
  destruct (validated_version_text _ _ _ _ _ _ _ _ Htags (or_intror eq_refl))
    as [(HM & Hm & Hp) _].
  assert (Hparse : forall k, (k < 10 ^ N.of_nat 16)%N ->
            SemVer.parse (version_text major minor patch +:+ "-preview." +:+ show_N k)
            = Some (SemVer.mk major minor patch [SemVer.IdStr "preview"; SemVer.IdNum k] [])).
  { intros k Hk.
    change ("-preview." +:+ show_N k) with (String "-" ("preview." +:+ show_N k)).
    apply parse_version_text_prerelease; try assumption.
    - rewrite lacks_app, show_N_lacks by reflexivity. reflexivity.
    - rewrite all_app, (digits_nonspace _ (show_N_digits k)). reflexivity.
    - rewrite length_app. pose proof (show_N_length_bound k 16 Hk).
      cbn [String.length]. lia.
    - change ("preview." +:+ show_N k) with ("preview" +:+ String "." (show_N k)).
      rewrite split_app by reflexivity. rewrite split_lacks by (by apply show_N_lacks).
      cbn [SemVer.traverse]. by rewrite prerelease_identifier_show_N. }
  unfold SemVer.MAX_SAFE_INTEGER in Hn.
  apply (newer_pre _ _ _ _
           (Hparse (n + 1)%N ltac:(change (10 ^ N.of_nat 16)%N with 10000000000000000%N; lia))
           (Hparse n ltac:(change (10 ^ N.of_nat 16)%N with 10000000000000000%N; lia)));
    try reflexivity.
  cbn [SemVer.prerelease SemVer.comparePre SemVer.compareIdentifierLists
       SemVer.compareIdentifiers SemVer.lexi].
  change (OrdersEx.String_as_OT.compare "preview" "preview") with Eq. cbv iota.
  rewrite !to_double_exact by (change (2 ^ 53)%N with 9007199254740992%N; lia).
  assert (E : (n + 1 ?= n)%N = Gt) by (apply N.compare_gt_iff; lia).
  by rewrite E.
Qed.

Lemma getPatchVersion_preview_is_newer_witness :
  outcome consistent_world (getPatchVersion (Some (VStr "preview"))) =
    Ok {| releaseVersion := "0.5.0-preview.3"; npmTag := "preview";
          previousReleaseTag := "v0.5.0-preview.2" |}
  /\ newer "0.5.0-preview.3" "0.5.0-preview.2" = true.
Proof.
  apply (getPatchVersion_preview_is_newer consistent_world 0 5 0 2 "v0.5.0-preview.2").
  - vm_compute. reflexivity.
  - vm_compute. discriminate.
Defined.

(** The release version of [getStableVersion] without an override. *)
Lemma getStableVersion_release_version
  (w : World) (args : gmap string value) (preview : Tags) (data : VersionData) :
  is_truthy (args !! "stable_version_override") = false ->
  outcome w (getAndVerifyTags "preview" "v*-preview*") = Ok preview ->
  outcome w (getStableVersion args) = Ok data ->
  releaseVersion data = replace_lit_dot_star "-preview" (latestVersion preview).
Proof.
  intros Hno Hpreview. unfold getStableVersion.
  rewrite outcome_bind, Hpreview, Hno, outcome_bind, outcome_ret, outcome_bind.
  destruct (outcome w (getAndVerifyTags "latest" "v[0-9].[0-9].[0-9]")); [|discriminate].
  rewrite outcome_ret. by intros [= <-].
Qed.

(** The release version of [getPreviewVersion] without an override. *)
Lemma getPreviewVersion_release_version
  (w : World) (args : gmap string value) (nightly : Tags) (data : VersionData) :
  is_truthy (args !! "preview_version_override") = false ->
  outcome w (getAndVerifyTags "nightly" "v*-nightly*") = Ok nightly ->
  outcome w (getPreviewVersion args) = Ok data ->
  releaseVersion data =
    replace_lit_dot_star "-nightly" (latestVersion nightly) +:+ "-preview.0".
Proof.
  intros Hno Hnightly. unfold getPreviewVersion.
  rewrite outcome_bind, Hnightly, Hno, outcome_bind, outcome_ret, outcome_bind.
  destruct (outcome w (getAndVerifyTags "preview" "v*-preview*")); [|discriminate].
  rewrite outcome_ret. by intros [= <-].
Qed.

(** X16.  The stable version against the preview it comes from: without
    an override, the release version that [getStableVersion] returns for
    the validated preview [major.minor.patch-preview...] is
    [major.minor.patch], a valid semantic version of higher precedence
    than that preview. *)
Theorem getStableVersion_is_newer
  (w : World) (args : gmap string value) (major minor patch : N)
  (rest previewTag : string) (data : VersionData) :
  is_truthy (args !! "stable_version_override") = false ->
  outcome w (getAndVerifyTags "preview" "v*-preview*")
    = Ok (mkTags (version_text major minor patch +:+ "-preview" +:+ rest) previewTag) ->
  outcome w (getStableVersion args) = Ok data ->
  releaseVersion data = version_text major minor patch
  /\ newer (releaseVersion data) (version_text major minor patch +:+ "-preview" +:+ rest)
     = true.
Proof.
  intros Hno Hpreview Hdata.
  destruct (validated_version_text _ _ _ _ _ _ ("-preview" +:+ rest) _ Hpreview
              (or_intror eq_refl)) as [(HM & Hm & Hp) Hchars].
  assert (Hversion : releaseVersion data = version_text major minor patch).
  { rewrite (getStableVersion_release_version w args _ data Hno Hpreview Hdata).
    cbn [latestVersion].
    change ("-preview" +:+ rest) with (String "-" "preview" +:+ rest).
    apply (replace_lit_dot_star_cut "preview"); [apply version_text_lacks_dash|].
    rewrite all_app, andb_true_iff in Hchars.
    apply version_char_no_line_terminator, Hchars. }
  split; [exact Hversion|]. rewrite Hversion.
  destruct (validated_parses _ _ _ _ Hpreview) as (old & Hold & Htrim).
  cbn [latestVersion] in Hold, Htrim.
  change ("-preview" +:+ rest) with (String "-" ("preview" +:+ rest)) in *.
  destruct (parse_version_text_anatomy _ _ _ _ _ Htrim Hold) as ((H1 & H2 & H3) & Hids).
  apply (newer_pre _ _ _ _ (parse_version_text_plain _ _ _ HM Hm Hp) Hold);
    cbn [SemVer.major SemVer.minor SemVer.patch SemVer.prerelease]; try congruence.
  pose proof (split_nonempty "." (fst (SemVer.cut "+" ("preview" +:+ rest)))) as Hne.
  destruct (split "." _) as [|x l]; [contradiction|].
  destruct (traverse_cons_Some _ _ _ _ Hids) as (y & ys & _ & _ & ->). reflexivity.
Qed.

Lemma getStableVersion_is_newer_witness :
  newer "0.5.0" "0.5.0-preview.2" = true.
Proof.
  assert (Hno : is_truthy ((∅ : gmap string value) !! "stable_version_override") = false)
    by reflexivity.
  assert (Hdata : outcome consistent_world (getStableVersion (∅ : gmap string value))
                  = Ok {| releaseVersion := "0.5.0"; npmTag := "latest";
                          previousReleaseTag := "v0.4.1" |})
    by (vm_compute; reflexivity).
  apply (getStableVersion_is_newer consistent_world ∅ 0 5 0 ".2" "v0.5.0-preview.2" _
           Hno ltac:(vm_compute; reflexivity) Hdata).
Defined.

(** X17.  The preview version against the nightly it comes from: without
    an override, the release version that [getPreviewVersion] returns for
    the validated nightly [major.minor.patch-nightly...] is
    [major.minor.patch-preview.0], a valid semantic version of higher
    precedence than that nightly, since [preview] sorts after every
    identifier that starts with [nightly]. *)
Theorem getPreviewVersion_is_newer
  (w : World) (args : gmap string value) (major minor patch : N)
  (rest nightlyTag : string) (data : VersionData) :
  is_truthy (args !! "preview_version_override") = false ->
  outcome w (getAndVerifyTags "nightly" "v*-nightly*")
    = Ok (mkTags (version_text major minor patch +:+ "-nightly" +:+ rest) nightlyTag) ->
  outcome w (getPreviewVersion args) = Ok data ->
  releaseVersion data = version_text major minor patch +:+ "-preview.0"
  /\ newer (releaseVersion data) (version_text major minor patch +:+ "-nightly" +:+ rest)
     = true.
Proof.
  intros Hno Hnightly Hdata.
  destruct (validated_version_text _ _ _ _ _ _ ("-nightly" +:+ rest) _ Hnightly
              (or_intror eq_refl)) as [(HM & Hm & Hp) Hchars].
  assert (Hversion : releaseVersion data = version_text major minor patch +:+ "-preview.0").
  { rewrite (getPreviewVersion_release_version w args _ data Hno Hnightly Hdata).
    cbn [latestVersion]. f_equal.
    change ("-nightly" +:+ rest) with (String "-" "nightly" +:+ rest).
    apply (replace_lit_dot_star_cut "nightly"); [apply version_text_lacks_dash|].
    rewrite all_app, andb_true_iff in Hchars.
    apply version_char_no_line_terminator, Hchars. }
  split; [exact Hversion|]. rewrite Hversion.
  destruct (validated_parses _ _ _ _ Hnightly) as (old & Hold & Htrim).
  cbn [latestVersion] in Hold, Htrim.
  change ("-nightly" +:+ rest) with (String "-" ("nightly" +:+ rest)) in *.
  destruct (parse_version_text_anatomy _ _ _ _ _ Htrim Hold) as ((H1 & H2 & H3) & Hids).
  assert (Hnew : SemVer.parse (version_text major minor patch +:+ String "-" "preview.0")
                 = Some (SemVer.mk major minor patch
                           [SemVer.IdStr "preview"; SemVer.IdNum 0] []))
    by (apply parse_version_text_prerelease; try assumption; try reflexivity;
        cbn [String.length]; lia).
  apply (newer_pre _ _ _ _ Hnew Hold);
    cbn [SemVer.major SemVer.minor SemVer.patch SemVer.prerelease]; try congruence.
  rewrite (cut_app_lacks "+" "nightly" rest eq_refl) in Hids. cbn [fst] in Hids.
  set (r := fst (SemVer.cut "+" rest)) in Hids.
  pose proof (split_nonempty "." ("nightly" +:+ r)) as Hne.
  assert (Hfirst : first (split "." ("nightly" +:+ r))
                   = "nightly" +:+ first (split "." r)).
  { change ("nightly" +:+ r)
      with (String "n" (String "i" (String "g" (String "h" (String "t" (String "l"
             (String "y" r))))))).
    rewrite !first_split_cons by reflexivity. reflexivity. }
  destruct (split "." ("nightly" +:+ r)) as [|x l]; [contradiction|].
  cbn [first List.hd] in Hfirst. subst x.
  destruct (traverse_cons_Some _ _ _ _ Hids) as (y & ys & Hy & _ & ->).
  unfold SemVer.prerelease_identifier in Hy.
  destruct (SemVer.is_prerelease_identifier _); [|discriminate].
  change (all is_digit ("nightly" +:+ first (split "." r))) with false in Hy.
  injection Hy as <-. reflexivity.
Qed.

Lemma getPreviewVersion_is_newer_witness :
  newer "0.6.0-preview.0" "0.6.0-nightly.20250910.a31830a3" = true.
Proof.
  assert (Hno : is_truthy ((∅ : gmap string value) !! "preview_version_override") = false)
    by reflexivity.
  assert (Hdata : outcome consistent_world (getPreviewVersion (∅ : gmap string value))
                  = Ok {| releaseVersion := "0.6.0-preview.0"; npmTag := "preview";
                          previousReleaseTag := "v0.5.0-preview.2" |})
    by (vm_compute; reflexivity).
  apply (getPreviewVersion_is_newer consistent_world ∅ 0 6 0 ".20250910.a31830a3"
           "v0.6.0-nightly.20250910.a31830a3" _
           Hno ltac:(vm_compute; reflexivity) Hdata).
Defined.

(** ** The nightly version as a semantic version *)

Lemma letter_dash_number_plain (c : ascii) :
  SemVer.is_letter_dash_number c = true ->
  is_space c = false /\ Ascii.eqb c "+" = false /\ Ascii.eqb c "." = false.
Proof. destruct c as [[] [] [] [] [] [] [] []]; try discriminate; by repeat split. Qed.

Lemma identifier_plain (s : string) :
  all SemVer.is_letter_dash_number s = true ->
  all (fun c => negb (is_space c)) s = true /\ lacks "+" s = true /\ lacks "." s = true.
Proof.
  intros H. unfold lacks. repeat split; revert H; apply all_impl; intros c Hc;
    destruct (letter_dash_number_plain c Hc) as (H1 & H2 & H3); by rewrite ?H1, ?H2, ?H3.
Qed.

Lemma digits_letter_dash_number (s : string) :
  all is_digit s = true -> all SemVer.is_letter_dash_number s = true.
Proof.
  apply all_impl. intros c Hc. unfold SemVer.is_letter_dash_number. by rewrite Hc.
Qed.

(** [YYYYMMDD] of a year from 1000 on is a number without a leading zero. *)
Lemma yyyymmdd_numeric (d : Date) :
  1000 <= year d <= 9999 -> (month d < 100)%N -> (day d < 100)%N ->
  SemVer.is_numeric_identifier (yyyymmdd d) = true
  /\ all is_digit (yyyymmdd d) = true
  /\ String.length (yyyymmdd d) = 8%nat.
Proof.
  intros Hy Hm Hd.
  assert (Hdigits : all is_digit (yyyymmdd d) = true).
  { unfold yyyymmdd. by rewrite !all_app, !pad_digits. }
  assert (Hlen : String.length (yyyymmdd d) = 8%nat).
  { unfold yyyymmdd.
    rewrite !length_app, pad_4_length, !pad_2_length by lia. reflexivity. }
  split; [|by split].
  assert (Hhead : negb (startsWith "0" (JsDate.pad 4 (Z.to_N (year d)))) = true).
  { assert (H : ((Z.to_N (year d) <? 1000)%N
                 || negb (startsWith "0" (JsDate.pad 4 (Z.to_N (year d))))) = true).
    { apply (checked_below
               (fun y => (y <? 1000)%N || negb (startsWith "0" (JsDate.pad 4 y)))
               (100 * 100)); [by vm_compute|lia]. }
    destruct (N.ltb_spec (Z.to_N (year d)) 1000); [lia|exact H]. }
  pose proof (pad_4_length (Z.to_N (year d)) ltac:(lia)) as L4.
  unfold yyyymmdd in *.
  destruct (JsDate.pad 4 (Z.to_N (year d))) as [|c r]; [discriminate L4|].
  rewrite !append_cons in *. cbn [startsWith] in Hhead. rewrite andb_true_r in Hhead.
  unfold SemVer.is_numeric_identifier.
  destruct c as [[] [] [] [] [] [] [] []]; try exact Hdigits; discriminate Hhead.
Qed.

(** The text of the nightly version is [major.(minor+1).0] and a
    prerelease. *)
Lemma nightly_text (M m : N) (date hash : string) :
  show_N M +:+ "." +:+ show_N (m + 1) +:+ ".0-nightly." +:+ date +:+ "." +:+ hash
  = version_text M (m + 1) 0 +:+ String "-" ("nightly." +:+ date +:+ "." +:+ hash).
Proof.
  unfold version_text. change (show_N 0) with "0".
  rewrite !append_assoc. reflexivity.
Qed.

Lemma getNightlyVersion_release_version
  (w : World) (major minor patch : N) (suffix tag hash : string) :
  outcome w (getAndVerifyTags "nightly" "v*-nightly*")
    = Ok (mkTags (version_text major minor patch +:+ suffix) tag) ->
  suffix = "" \/ startsWith "-" suffix = true ->
  process_output w "git rev-parse --short HEAD" = inl hash ->
  0 <= year (clock w) <= 9999 ->
  (month (clock w) < 100)%N ->
  (day (clock w) < 100)%N ->
  outcome w getNightlyVersion =
    Ok {| releaseVersion := show_N major +:+ "." +:+ show_N (minor + 1) +:+ ".0-nightly."
                            +:+ yyyymmdd (clock w) +:+ "." +:+ trim hash;
          npmTag := "nightly";
          previousReleaseTag := tag |}.
Proof.
  intros Htags Hsuffix Hhash Hy Hm Hd. unfold getNightlyVersion.
  rewrite outcome_bind, Htags. cbn [latestVersion latestTag].
  rewrite (split_dash_version _ _ _ _ Hsuffix), split_version_text.
  cbn [first List.hd lookup list_lookup].
  rewrite show_N_truthy, parseInt_show_N, toString_succ.
  rewrite outcome_bind, outcome_now, outcome_bind, outcome_execSync, Hhash, outcome_ret.
  rewrite date_stamp_yyyymmdd by lia. reflexivity.
Qed.

(** X18.  The nightly version against the nightly it comes from.  When
    the year has four digits without a leading zero, the commit hash is a
    prerelease identifier (letters, digits and dashes, not a number with a
    leading zero) of at most 100 characters and the new minor number is a
    safe integer, the release version of [getNightlyVersion] is a valid
    semantic version of higher precedence than the validated nightly. *)
Theorem getNightlyVersion_is_newer
  (w : World) (major minor patch : N) (suffix tag hash : string) :
  outcome w (getAndVerifyTags "nightly" "v*-nightly*")
    = Ok (mkTags (version_text major minor patch +:+ suffix) tag) ->
  suffix = "" \/ startsWith "-" suffix = true ->
  process_output w "git rev-parse --short HEAD" = inl hash ->
  1000 <= year (clock w) <= 9999 ->
  (1 <= month (clock w) <= 12)%N ->
  (1 <= day (clock w) <= 31)%N ->
  (minor + 1 <= SemVer.MAX_SAFE_INTEGER)%N ->
  SemVer.is_prerelease_identifier (trim hash) = true ->
  (String.length (trim hash) <= 100)%nat ->
  exists data,
    outcome w getNightlyVersion = Ok data
    /\ newer (releaseVersion data) (version_text major minor patch +:+ suffix) = true.
Proof.
  intros Htags Hsuffix Hhash Hy Hm Hd Hminor Hid Hlen.
  eexists. split.
  { apply (getNightlyVersion_release_version w major minor patch suffix tag hash);
      try assumption; lia. }
  cbn [releaseVersion]. rewrite nightly_text.
  destruct (validated_version_text _ _ _ _ _ _ _ _ Htags Hsuffix) as [(HM & _ & _) _].
  destruct (validated_parses _ _ _ _ Htags) as (old & Hold & Htrim).
  cbn [latestVersion] in Hold, Htrim.
  destruct (parse_version_text _ _ _ _ _ Hsuffix Htrim Hold) as ((H1 & H2 & _) & _).
  destruct (yyyymmdd_numeric (clock w)) as (Hnum & Hdigits & Hdate); [lia..|].
  pose proof Hid as Hh. unfold SemVer.is_prerelease_identifier in Hh.
  rewrite !andb_true_iff in Hh. destruct Hh as [[_ Hh] _].
  destruct (identifier_plain _ Hh) as (Hspace & Hplus & Hdot).
  assert (Hids : exists ids,
             SemVer.traverse SemVer.prerelease_identifier
               (split "." ("nightly." +:+ yyyymmdd (clock w) +:+ "." +:+ trim hash))
             = Some ids).
  { change ("nightly." +:+ yyyymmdd (clock w) +:+ "." +:+ trim hash)
      with ("nightly" +:+ String "." (yyyymmdd (clock w) +:+ String "." (trim hash))).
    rewrite split_app by reflexivity.
    rewrite split_app by (by apply digits_lack).
    rewrite (split_lacks "." _ Hdot).
    cbn [SemVer.traverse]. unfold SemVer.prerelease_identifier at 2 3.
    rewrite Hid. unfold SemVer.is_prerelease_identifier.
    rewrite Hnum, (digits_letter_dash_number _ Hdigits), orb_true_r.
    destruct (yyyymmdd (clock w)); [discriminate Hdate|]. cbn [truthy andb]. eauto. }
  destruct Hids as (ids & Hids).
  assert (Hnew : SemVer.parse
                   (version_text major (minor + 1) 0
                    +:+ String "-" ("nightly." +:+ yyyymmdd (clock w) +:+ "." +:+ trim hash))
                 = Some (SemVer.mk major (minor + 1) 0 ids [])).
  { apply parse_version_text_prerelease; try assumption.
    - unfold SemVer.MAX_SAFE_INTEGER. lia.
    - rewrite !lacks_app, Hplus, (digits_lack "+" _ eq_refl Hdigits). reflexivity.
    - rewrite !all_app, Hspace, (digits_nonspace _ Hdigits). reflexivity.
    - rewrite !length_app, Hdate. cbn [String.length]. lia. }
  apply (newer_main _ _ _ _ Hnew Hold).
  unfold SemVer.compareMain. cbn [SemVer.major SemVer.minor SemVer.patch].
  rewrite H1, H2, N.compare_refl. cbn [SemVer.lexi].
  assert (E : (minor + 1 ?= minor)%N = Gt) by (apply N.compare_gt_iff; lia).
  by rewrite E.
Qed.

Lemma getNightlyVersion_is_newer_witness :
  exists data,
    outcome consistent_world getNightlyVersion = Ok data
    /\ newer (releaseVersion data) "0.6.0-nightly.20250910.a31830a3" = true.
Proof.
  apply (getNightlyVersion_is_newer consistent_world 0 6 0 "-nightly.20250910.a31830a3"
           "v0.6.0-nightly.20250910.a31830a3" (line "d3bf8a3d")).
  - vm_compute. reflexivity.
  - right. reflexivity.
  - vm_compute. reflexivity.
  - vm_compute. split; discriminate.
  - vm_compute. split; discriminate.
  - vm_compute. split; discriminate.
  - vm_compute. discriminate.
  - vm_compute. reflexivity.
  - vm_compute. lia.
Defined.

(** X19.  [getNightlyVersion] does not check that what it builds is a
    semantic version.  A commit hash made of digits with a leading zero,
    as [0123456], is no prerelease identifier: the calculation returns
    its version all the same, and [semver.valid] rejects that version. *)
Theorem getNightlyVersion_numeric_hash_is_invalid
  (w : World) (major minor patch : N) (suffix tag hash digits : string) :
  outcome w (getAndVerifyTags "nightly" "v*-nightly*")
    = Ok (mkTags (version_text major minor patch +:+ suffix) tag) ->
  suffix = "" \/ startsWith "-" suffix = true ->
  process_output w "git rev-parse --short HEAD" = inl hash ->
  0 <= year (clock w) <= 9999 ->
  (1 <= month (clock w) <= 12)%N ->
  (1 <= day (clock w) <= 31)%N ->
  trim hash = String "0" digits ->
  truthy digits = true ->
  all is_digit digits = true ->
  exists data,
    outcome w getNightlyVersion = Ok data
    /\ releaseVersion data =
         show_N major +:+ "." +:+ show_N (minor + 1) +:+ ".0-nightly."
         +:+ yyyymmdd (clock w) +:+ "." +:+ String "0" digits
    /\ SemVer.valid (releaseVersion data) = false.
Proof.
  intros Htags Hsuffix Hhash Hy Hm Hd Hzero Hsome Hdigits.
  eexists. split.
  { apply (getNightlyVersion_release_version w major minor patch suffix tag hash);
      try assumption; lia. }
  cbn [releaseVersion]. rewrite Hzero. split; [reflexivity|].
  rewrite nightly_text. unfold SemVer.valid.
  assert (Hdate : all is_digit (yyyymmdd (clock w)) = true).
  { unfold yyyymmdd. by rewrite !all_app, !pad_digits. }
  assert (Hh : all is_digit (String "0" digits) = true) by (by rewrite all_cons, Hdigits).
  rewrite parse_version_text_dash.
  - change ("nightly." +:+ yyyymmdd (clock w) +:+ "." +:+ String "0" digits)
      with ("nightly" +:+ String "." (yyyymmdd (clock w) +:+ String "." (String "0" digits))).
    rewrite split_app by reflexivity.
    rewrite split_app by (by apply digits_lack).
    rewrite split_lacks by (by apply digits_lack).
    assert (Hnone : SemVer.prerelease_identifier (String "0" digits) = None).
    { unfold SemVer.prerelease_identifier, SemVer.is_prerelease_identifier.
      rewrite Hh. destruct digits; [discriminate Hsome|].
      cbn [SemVer.is_numeric_identifier negb orb]. by rewrite andb_false_r. }
    cbn [SemVer.traverse]. rewrite Hnone.
    destruct (_ <? _)%nat; [reflexivity|].
    destruct (SemVer.main_number (show_N major)); [|reflexivity].
    destruct (SemVer.main_number (show_N (minor + 1))); [|reflexivity].
    destruct (SemVer.main_number (show_N 0)); [|reflexivity].
    by destruct (SemVer.prerelease_identifier "nightly"),
      (SemVer.prerelease_identifier (yyyymmdd (clock w))).
  - rewrite !lacks_app, (digits_lack "+" _ eq_refl Hdate), (digits_lack "+" _ eq_refl Hh).
    reflexivity.
  - rewrite !all_app, (digits_nonspace _ Hdate), (digits_nonspace _ Hh). reflexivity.
Qed.

Lemma getNightlyVersion_numeric_hash_is_invalid_witness :
  exists data,
    outcome (table_world (("git rev-parse --short HEAD", inl (line "0123456"))
                          :: consistent_table) example_date [])
            getNightlyVersion = Ok data
    /\ releaseVersion data = "0.7.0-nightly.20250917.0123456"
    /\ SemVer.valid (releaseVersion data) = false.
Proof.
  apply (getNightlyVersion_numeric_hash_is_invalid
           (table_world (("git rev-parse --short HEAD", inl (line "0123456"))
                         :: consistent_table) example_date [])
           0 6 0 "-nightly.20250910.a31830a3" "v0.6.0-nightly.20250910.a31830a3"
           (line "0123456") "123456").
  - vm_compute. reflexivity.
  - right. reflexivity.
  - vm_compute. reflexivity.
  - vm_compute. split; discriminate.
  - vm_compute. split; discriminate.
  - vm_compute. split; discriminate.
  - vm_compute. reflexivity.
  - reflexivity.
  - reflexivity.
Defined.

(** ** The printed release *)

Lemma string_body_quote_char (c : ascii) (fuel : nat) (tail : string) :
  JSON.string_body (S fuel) (quote_char c +:+ tail) =
    '(a, r) ← JSON.string_body fuel tail; Some (N_of_ascii c :: a, r).
Proof. destruct c as [[] [] [] [] [] [] [] []]; reflexivity. Qed.

Lemma quote_char_length (c : ascii) : (1 <= String.length (quote_char c))%nat.
Proof. destruct c as [[] [] [] [] [] [] [] []]; vm_compute; lia. Qed.

(** Reading back a quoted text gives the text. *)
Lemma string_body_quote (s rest : string) (fuel : nat) :
  (String.length (quote_body s) < fuel)%nat ->
  JSON.string_body fuel (quote_body s +:+ String "034" rest) = Some (units s, rest).
Proof.
  revert fuel. induction s as [|c s IH]; intros fuel Hfuel.
  - destruct fuel; [cbn in Hfuel; lia|]. reflexivity.
  - cbn [quote_body] in *. rewrite length_app in Hfuel.
    pose proof (quote_char_length c).
    destruct fuel as [|fuel]; [lia|].
    rewrite append_assoc, string_body_quote_char, IH by lia. reflexivity.
Qed.

Lemma quote_text (s tail : string) :
  quote s +:+ tail = String "034" (quote_body s +:+ String "034" tail).
Proof.
  unfold quote, dq. rewrite append_cons, append_nil_l, append_cons.
  by rewrite append_assoc.
Qed.

Lemma value_quote (fuel : nat) (s rest : string) :
  (0 < fuel)%nat ->
  JSON.value fuel (String " " (quote s +:+ rest)) = Some (JSON.JString (units s), rest).
Proof.
  destruct fuel as [|fuel]; [lia|]. intros _.
  rewrite quote_text. cbn [JSON.value JSON.skip_ws].
  change (JSON.is_ws " ") with true. change (JSON.is_ws "034") with false. cbv iota.
  rewrite string_body_quote by (rewrite length_app; cbn [String.length]; lia).
  reflexivity.
Qed.

Lemma join_cons (sep x y : string) (l : list string) :
  join sep (x :: y :: l) = x +:+ sep +:+ join sep (y :: l).
Proof. reflexivity. Qed.

(** Reading back one line of an object. *)
Lemma members_step (fuel : nat) (k v tail : string) :
  JSON.members (S (S fuel)) (String LF ("  " +:+ quote k +:+ ": " +:+ quote v +:+ tail)) =
    match JSON.skip_ws tail with
    | String "}" r => Some ([(units k, JSON.JString (units v))], r)
    | String "," r =>
        '(l, r) ← JSON.members (S fuel) r;
        Some ((units k, JSON.JString (units v)) :: l, r)
    | _ => None
    end.
Proof.
  remember (S fuel) as f eqn:Ef.
  rewrite quote_text.
  change ("  " +:+ String "034" ?x) with (String " " (String " " (String "034" x))).
  cbn [JSON.members JSON.skip_ws].
  change (JSON.is_ws LF) with true. change (JSON.is_ws " ") with true.
  change (JSON.is_ws "034") with false. cbv iota.
  rewrite string_body_quote by (rewrite length_app; cbn [String.length]; lia).
  cbn [mbind option_bind]. rewrite append_cons, append_cons, append_nil_l.
  cbn [JSON.skip_ws]. change (JSON.is_ws ":") with false. cbv iota.
  rewrite value_quote by lia. cbn [mbind option_bind].
  destruct (JSON.skip_ws tail) as [|c r]; [reflexivity|].
  destruct c as [[] [] [] [] [] [] [] []]; reflexivity.
Qed.

(** Reading back the lines of an object gives its properties. *)
Lemma members_properties (l : list (string * string)) (p : string * string)
  (fuel : nat) (rest : string) :
  (length l + 2 <= fuel)%nat ->
  JSON.members fuel
    (String LF ("  " +:+ join ("," +:+ String LF "  ")
                          (List.map (fun p => quote (fst p) +:+ ": " +:+ quote (snd p))
                                    (p :: l))
                +:+ String LF (String "}" rest)))
  = Some (List.map (fun p => (units (fst p), JSON.JString (units (snd p)))) (p :: l), rest).
Proof.
  revert p fuel. induction l as [|q l IH]; intros [k v] fuel Hfuel;
    destruct fuel as [|[|fuel]]; cbn [length] in Hfuel; try lia.
  - cbn [List.map join String.concat fst snd].
    rewrite !append_assoc, members_step. reflexivity.
  - cbn [List.map fst snd]. rewrite join_cons.
    rewrite !append_assoc, members_step.
    rewrite !append_cons, append_nil_l. cbn [JSON.skip_ws].
    change (JSON.is_ws ",") with false. cbv iota.
    specialize (IH q (S fuel) ltac:(lia)). cbn [List.map fst snd] in IH.
    match type of IH with
    | ?lhs = _ =>
        match goal with
        | |- context [JSON.members (S fuel) ?text] =>
            change (JSON.members (S fuel) text) with lhs
        end
    end.
    rewrite IH. reflexivity.
Qed.

(** [JSON.parse(JSON.stringify(o, null, 2))] for an object [o] with
    properties that are strings. *)
Lemma parse_stringify (p : string * string) (l : list (string * string)) :
  JSON.parse (stringify (p :: l))
  = Some (JSON.JObject (List.map (fun p => (units (fst p), JSON.JString (units (snd p)))) (p :: l))).
Proof.
  unfold JSON.parse.
  set (text := stringify (p :: l)).
  assert (Hfuel : exists fuel, (2 * String.length text + 2 = S fuel)%nat
                               /\ (length l + 2 <= fuel)%nat).
  { exists (2 * String.length text + 1)%nat. split; [lia|].
    subst text. unfold stringify. rewrite !length_app.
    assert (H : forall xs : list string,
              (length xs <= S (String.length (join ("," +:+ String LF "  ") xs)))%nat).
    { intros xs. induction xs as [|x [|y xs] IH]; cbn [length] in *; [lia..|].
      rewrite join_cons, !length_app. cbn [String.length]. lia. }
    specialize (H (List.map (fun p => quote (fst p) +:+ ": " +:+ quote (snd p)) (p :: l))).
    rewrite length_map in H. cbn [length String.length] in H |- *. lia. }
  destruct Hfuel as (fuel & -> & Hfuel). subst text. unfold stringify.
  rewrite !append_cons, append_nil_l.
  pose proof (members_properties l p fuel "" Hfuel) as Hm.
  match type of Hm with
  | JSON.members _ ?text = _ =>
      set (lines := text) in *;
      change (JSON.value (S fuel) (String "{" lines) ≫=
                (fun '(v, r) => match JSON.skip_ws r with
                                | EmptyString => Some v
                                | String _ _ => None
                                end)
              = Some (JSON.JObject
                        (List.map (fun p => (units (fst p), JSON.JString (units (snd p)))) (p :: l))))
  end.
  assert (Hhead : exists r, JSON.skip_ws lines = String "034" r).
  { subst lines. destruct p as [k v].
    assert (Hjoin : exists tail,
               join ("," +:+ String LF "  ")
                    (List.map (fun p => quote (fst p) +:+ ": " +:+ quote (snd p)) ((k, v) :: l))
               = quote k +:+ tail).
    { destruct l as [|q l]; cbn [List.map fst snd];
        [|rewrite join_cons]; rewrite ?append_assoc; eauto. }
    destruct Hjoin as (tail & ->).
    rewrite !append_assoc, quote_text.
    change ("  " +:+ String "034" ?x) with (String " " (String " " (String "034" x))).
    cbn [JSON.skip_ws]. change (JSON.is_ws LF) with true. change (JSON.is_ws " ") with true.
    change (JSON.is_ws "034") with false. cbv iota. eauto. }
  destruct Hhead as (r & Hr).
  cbn [JSON.value JSON.skip_ws]. change (JSON.is_ws "{") with false. cbv iota.
  rewrite Hr, Hm. reflexivity.
Qed.

Lemma outcome_process_argv (w : World) : outcome w process_argv = Ok (argv w).
Proof. reflexivity. Qed.

Lemma queries_process_argv (w : World) : queries w process_argv = [].
Proof. reflexivity. Qed.

(** [getVersion(getArgs())] is [getVersion({})]: the command line spread
    over itself is the command line. *)
Lemma getVersion_of_getArgs (w : World) (cli : gmap string value) :
  outcome w getArgs = Ok cli ->
  outcome w (getVersion cli) = outcome w (getVersion ∅)
  /\ queries w (getVersion cli) = queries w (getVersion ∅).
Proof.
  intros Hcli. unfold getVersion.
  rewrite !outcome_bind, !queries_bind, Hcli.
  rewrite (map_union_idemp cli), (map_empty_union cli). split; reflexivity.
Qed.

(** X20.  The script as a program.  When it is run as the main module it
    calls [getVersion] with the command line alone and prints one text,
    the release as JSON: read back with [JSON.parse], the text is an
    object with the properties [releaseTag], [releaseVersion], [npmTag]
    and [previousReleaseTag], in this order, whatever characters the four
    texts hold; an error of [getVersion] is not caught and nothing is
    printed.  When the module is imported, nothing is printed and no
    command is run. *)
Theorem main_prints_the_release (w : World) (module_path : string) :
  if match argv w !! 1%nat with
     | Some path => String.eqb path module_path
     | None => false
     end
  then
    queries w (main module_path) = queries w (getVersion ∅)
    /\ match outcome w (getVersion ∅) with
       | Ok r =>
           exists text,
             outcome w (main module_path) = Ok [text]
             /\ JSON.parse text =
                  Some (JSON.JObject
                          [ (units "releaseTag", JSON.JString (units (releaseTag r)));
                            (units "releaseVersion",
                             JSON.JString (units (releaseVersion (versionData r))));
                            (units "npmTag", JSON.JString (units (npmTag (versionData r))));
                            (units "previousReleaseTag",
                             JSON.JString (units (previousReleaseTag (versionData r)))) ])
       | Throw e => outcome w (main module_path) = Throw e
       end
  else outcome w (main module_path) = Ok [] /\ queries w (main module_path) = [].
Proof.
  unfold main.
  rewrite outcome_bind, queries_bind, outcome_process_argv, queries_process_argv, app_nil_l.
  destruct (match argv w !! 1%nat with
            | Some path => String.eqb path module_path
            | None => false
            end); [|by rewrite outcome_ret, queries_ret].
  destruct (getArgs_total w) as [cli Hcli].
  destruct (getVersion_of_getArgs w cli Hcli) as [Ho Hq].
  rewrite outcome_bind, queries_bind, Hcli, getArgs_queries, app_nil_l.
  rewrite outcome_bind, queries_bind, Ho, Hq.
  destruct (outcome w (getVersion ∅)) as [r|e].
  - rewrite outcome_ret, queries_ret, app_nil_r. split; [reflexivity|].
    eexists. split; [reflexivity|]. apply parse_stringify.
  - by rewrite app_nil_r.
Qed.

(** ** A registry that answers with one text *)

Lemma N_of_ascii_eqb (a b : ascii) : (N_of_ascii a =? N_of_ascii b)%N = Ascii.eqb a b.
Proof.
  destruct (Ascii.eqb_spec a b) as [->|Hne]; [apply N.eqb_refl|].
  apply N.eqb_neq. intros H. apply Hne.
  by rewrite <- (ascii_N_embedding a), <- (ascii_N_embedding b), H.
Qed.

Lemma units_cons (c : ascii) (s : string) : units (String c s) = N_of_ascii c :: units s.
Proof. reflexivity. Qed.

Lemma units_eqb_units (a b : string) : units_eqb (units a) (units b) = String.eqb a b.
Proof.
  revert b. induction a as [|c a IH]; intros [|d b]; try reflexivity.
  rewrite !units_cons. cbn [units_eqb String.eqb]. by rewrite N_of_ascii_eqb, IH.
Qed.

Lemma units_startsWith_units (p s : string) :
  units_startsWith (units p) (units s) = startsWith p s.
Proof.
  revert s. induction p as [|c p IH]; intros [|d s]; try reflexivity.
  rewrite !units_cons. cbn [units_startsWith startsWith]. by rewrite N_of_ascii_eqb, IH.
Qed.

Lemma units_includes_units (t s : string) :
  units_includes (units t) (units s) = includes t s.
Proof.
  induction s as [|d s IH].
  - cbn [includes units_includes]. by rewrite <- units_startsWith_units.
  - rewrite units_cons. cbn [includes units_includes].
    by rewrite <- units_cons, units_startsWith_units, IH.
Qed.

Lemma parse_quote (s : string) : JSON.parse (quote s) = Some (JSON.JString (units s)).
Proof.
  assert (Htext : quote s = String "034" (quote_body s +:+ String "034" "")).
  { by rewrite <- (append_nil_r (quote s)), quote_text. }
  rewrite Htext. unfold JSON.parse.
  cbn [String.length Nat.mul Nat.add JSON.value JSON.skip_ws].
  change (JSON.is_ws "034") with false. cbv iota.
  rewrite string_body_quote by (rewrite length_app; cbn [String.length]; lia).
  reflexivity.
Qed.

(** X22.  [allVersions.includes(newVersion)] on an answer of the registry
    that is, once trimmed, one JSON text and not an array, is a search for
    a part of the text: the conflict check reports every version that occurs inside the
    published one, as [0.4.1] inside [0.4.10], as already present in the
    registry. *)
Theorem registry_text_is_searched_for_a_part (w : World) (out published version : string) :
  process_output w "npm view @google/gemini-cli versions --json" = inl out ->
  trim out = quote published ->
  registry_has w version = includes version published
  /\ (includes version published = true ->
      exists conflicts,
        outcome w (validateVersionConflicts version) =
          Throw ("Version conflict! Cannot create " +:+ version +:+ ":" +:+ String LF ""
                 +:+ join (String LF "")
                       (("NPM registry already has version " +:+ version) :: conflicts))).
Proof.
  intros Hout Htrim.
  assert (Hhas : registry_has w version = includes version published).
  { unfold registry_has. rewrite Hout, Htrim, parse_quote.
    cbn [includes_version default from_option id]. apply units_includes_units. }
  split; [exact Hhas|]. intros Hin.
  rewrite validateVersionConflicts_outcome. unfold conflict_entries.
  rewrite Hhas, Hin. cbn [app]. eauto.
Qed.

Lemma registry_text_is_searched_for_a_part_witness :
  exists conflicts,
    outcome (table_world
               [("npm view @google/gemini-cli versions --json", inl (line (quote "0.4.10")))]
               example_date [])
            (validateVersionConflicts "0.4.1") =
      Throw ("Version conflict! Cannot create 0.4.1:" +:+ String LF ""
             +:+ join (String LF "")
                   ("NPM registry already has version 0.4.1" :: conflicts)).
Proof.
  apply (registry_text_is_searched_for_a_part
           (table_world
              [("npm view @google/gemini-cli versions --json", inl (line (quote "0.4.10")))]
              example_date [])
           (line (quote "0.4.10")) "0.4.10" "0.4.1" eq_refl); reflexivity.
Defined.

(** ** A registry that answers with a list *)

Lemma value_skip_ws (fuel : nat) (c : ascii) (s : string) :
  JSON.is_ws c = true -> JSON.value fuel (String c s) = JSON.value fuel s.
Proof.
  intros Hc. destruct fuel as [|fuel]; [reflexivity|].
  cbn [JSON.value JSON.skip_ws]. by rewrite Hc.
Qed.

(** Reading back one line of a list. *)
Lemma elements_step (fuel : nat) (x tail : string) :
  JSON.elements (S (S fuel)) (String LF ("  " +:+ quote x +:+ tail)) =
    match JSON.skip_ws tail with
    | String "]" r => Some ([JSON.JString (units x)], r)
    | String "," r =>
        '(l, r) ← JSON.elements (S fuel) r; Some (JSON.JString (units x) :: l, r)
    | _ => None
    end.
Proof.
  remember (S fuel) as f eqn:Ef.
  change (String LF ("  " +:+ quote x +:+ tail))
    with (String LF (String " " (String " " (quote x +:+ tail)))).
  cbn [JSON.elements].
  rewrite (value_skip_ws f LF) by reflexivity. rewrite (value_skip_ws f " ") by reflexivity.
  rewrite value_quote by lia. cbn [mbind option_bind].
  destruct (JSON.skip_ws tail) as [|c r]; [reflexivity|].
  destruct c as [[] [] [] [] [] [] [] []]; reflexivity.
Qed.

Lemma elements_strings (l : list string) (x : string) (fuel : nat) (rest : string) :
  (length l + 2 <= fuel)%nat ->
  JSON.elements fuel
    (String LF ("  " +:+ join ("," +:+ String LF "  ") (List.map quote (x :: l))
                +:+ String LF (String "]" rest)))
  = Some (List.map (fun x => JSON.JString (units x)) (x :: l), rest).
Proof.
  revert x fuel. induction l as [|y l IH]; intros x fuel Hfuel;
    destruct fuel as [|[|fuel]]; cbn [length] in Hfuel; try lia.
  - cbn [List.map join String.concat].
    rewrite elements_step. reflexivity.
  - cbn [List.map]. rewrite join_cons.
    rewrite !append_assoc, elements_step.
    rewrite !append_cons, append_nil_l. cbn [JSON.skip_ws].
    change (JSON.is_ws ",") with false. cbv iota.
    specialize (IH y (S fuel) ltac:(lia)). cbn [List.map] in IH.
    match type of IH with
    | ?lhs = _ =>
        match goal with
        | |- context [JSON.elements (S fuel) ?text] =>
            change (JSON.elements (S fuel) text) with lhs
        end
    end.
    rewrite IH. reflexivity.
Qed.

Lemma parse_stringify_list (l : list string) :
  JSON.parse (stringify_list l)
  = Some (JSON.JArray (List.map (fun x => JSON.JString (units x)) l)).
Proof.
  destruct l as [|x l]; [reflexivity|].
  unfold JSON.parse.
  set (text := stringify_list (x :: l)).
  assert (Hfuel : exists fuel, (2 * String.length text + 2 = S fuel)%nat
                               /\ (length l + 2 <= fuel)%nat).
  { exists (2 * String.length text + 1)%nat. split; [lia|].
    subst text. unfold stringify_list. rewrite !length_app.
    assert (H : forall xs : list string,
              (length xs <= S (String.length (join ("," +:+ String LF "  ") xs)))%nat).
    { intros xs. induction xs as [|a [|b xs] IH]; cbn [length] in *; [lia..|].
      rewrite join_cons, !length_app. cbn [String.length]. lia. }
    specialize (H (List.map quote (x :: l))).
    rewrite length_map in H. cbn [length String.length] in H |- *. lia. }
  destruct Hfuel as (fuel & -> & Hfuel). subst text. unfold stringify_list.
  pose proof (elements_strings l x fuel "" Hfuel) as Hm.
  match type of Hm with
  | JSON.elements _ ?text = _ =>
      set (lines := text) in *;
      change (JSON.value (S fuel) (String "[" lines) ≫=
                (fun '(v, r) => match JSON.skip_ws r with
                                | EmptyString => Some v
                                | String _ _ => None
                                end)
              = Some (JSON.JArray (List.map (fun x => JSON.JString (units x)) (x :: l))))
  end.
  assert (Hhead : exists r, JSON.skip_ws lines = String "034" r).
  { subst lines.
    assert (Hjoin : exists tail,
               join ("," +:+ String LF "  ") (List.map quote (x :: l)) = quote x +:+ tail).
    { destruct l as [|y l]; cbn [List.map];
        [exists ""; by rewrite append_nil_r|rewrite join_cons; eauto]. }
    destruct Hjoin as (tail & ->).
    rewrite !append_assoc, quote_text.
    change ("  " +:+ String "034" ?x) with (String " " (String " " (String "034" x))).
    cbn [JSON.skip_ws]. change (JSON.is_ws LF) with true. change (JSON.is_ws " ") with true.
    change (JSON.is_ws "034") with false. cbv iota. eauto. }
  destruct Hhead as (r & Hr).
  cbn [JSON.value JSON.skip_ws]. change (JSON.is_ws "[") with false. cbv iota.
  rewrite Hr, Hm. reflexivity.
Qed.

(** X24.  On an answer of the registry that is, once trimmed, the JSON
    text of a list of versions, the conflict check looks for the version
    as an element: the registry has a version exactly when it is in the
    list, so [0.4.1] is not found in a list that holds [0.4.10].  A
    version of the list fails the check with the registry's entry first;
    a version that is not in the list and that the tag store and the
    release host do not report passes. *)
Theorem registry_list_is_searched_for_an_element
  (w : World) (out version : string) (published : list string) :
  process_output w "npm view @google/gemini-cli versions --json" = inl out ->
  trim out = stringify_list published ->
  (registry_has w version = true <-> In version published)
  /\ (In version published ->
      exists conflicts,
        outcome w (validateVersionConflicts version) =
          Throw ("Version conflict! Cannot create " +:+ version +:+ ":" +:+ String LF ""
                 +:+ join (String LF "")
                       (("NPM registry already has version " +:+ version) :: conflicts)))
  /\ (~ In version published ->
      tag_store_has w version = false -> release_host_has w version = false ->
      outcome w (validateVersionConflicts version) = Ok tt).
Proof.
  intros Hout Htrim.
  assert (Hhas : registry_has w version = existsb (fun s => String.eqb s version) published).
  { unfold registry_has. rewrite Hout, Htrim, parse_stringify_list.
    cbn [includes_version default from_option id].
    clear Htrim. induction published as [|x l IH]; [reflexivity|].
    cbn [List.map existsb]. by rewrite IH, units_eqb_units. }
  assert (Hiff : registry_has w version = true <-> In version published).
  { rewrite Hhas, existsb_exists. split.
    - intros (x & Hx & E). apply String.eqb_eq in E. by subst.
    - intros H. exists version. split; [exact H|apply String.eqb_refl]. }
  split; [exact Hiff|]. split.
  - intros Hin. apply Hiff in Hin.
    rewrite validateVersionConflicts_outcome. unfold conflict_entries.
    rewrite Hin. cbn [app]. eauto.
  - intros Hnot Htag Hrelease.
    assert (Hno : registry_has w version = false).
    { destruct (registry_has w version); [|reflexivity]. destruct Hnot. by apply Hiff. }
    rewrite validateVersionConflicts_outcome. unfold conflict_entries.
    by rewrite Hno, Htag, Hrelease.
Qed.

Lemma registry_list_is_searched_for_an_element_witness :
  registry_has (table_world
                  [("npm view @google/gemini-cli versions --json",
                    inl (line (stringify_list ["0.4.0"; "0.4.10"])))]
                  example_date [])
               "0.4.10" = true.
Proof.
  apply (registry_list_is_searched_for_an_element
           (table_world
              [("npm view @google/gemini-cli versions --json",
                inl (line (stringify_list ["0.4.0"; "0.4.10"])))]
              example_date [])
           (line (stringify_list ["0.4.0"; "0.4.10"])) "0.4.10" ["0.4.0"; "0.4.10"]
           eq_refl ltac:(vm_compute; reflexivity)).
  right. by left.
Defined.

(** ** The command line is read once *)

Lemma ignores_argv_ret {A : Type} (a : A) : ignores_argv (mret a).
Proof. by intros w args. Qed.

Lemma ignores_argv_throw {A : Type} (e : string) : ignores_argv (@throw A e).
Proof. by intros w args. Qed.

Lemma ignores_argv_execSync (command : string) : ignores_argv (execSync command).
Proof. by intros w args. Qed.

Lemma ignores_argv_now : ignores_argv now.
Proof. by intros w args. Qed.

Lemma ignores_argv_bind {A B : Type} (m : Eff A) (k : A -> Eff B) :
  ignores_argv m -> (forall a, ignores_argv (k a)) -> ignores_argv (m ≫= k).
Proof.
  intros Hm Hk w args. unfold mbind, Eff_bind, bind. rewrite Hm.
  destruct (m w) as [[a|e] t]; [|reflexivity]. by rewrite Hk.
Qed.

Lemma ignores_argv_try_catch {A : Type} (m : Eff A) (h : string -> Eff A) :
  ignores_argv m -> (forall e, ignores_argv (h e)) -> ignores_argv (try_catch m h).
Proof.
  intros Hm Hh w args. unfold try_catch. rewrite Hm.
  destruct (m w) as [[a|e] t]; [reflexivity|]. by rewrite Hh.
Qed.

(** Break a computation into the combinators it is made of. *)
Ltac ignores_argv :=
  repeat first
    [ apply ignores_argv_ret | apply ignores_argv_throw | apply ignores_argv_execSync
    | apply ignores_argv_now
    | apply ignores_argv_bind | apply ignores_argv_try_catch
    | progress intros
    | match goal with
      | |- ignores_argv (if ?b then _ else _) => destruct b
      | |- ignores_argv (match ?x with _ => _ end) => destruct x
      end ].

Lemma getAndVerifyTags_ignores_argv (npmDistTag gitTagPattern : string) :
  ignores_argv (getAndVerifyTags npmDistTag gitTagPattern).
Proof.
  unfold getAndVerifyTags, getVersionFromNPM, getLatestTag, verifyGitHubReleaseExists.
  cbv zeta. ignores_argv.
Qed.

Lemma validateVersionConflicts_ignores_argv (newVersion : string) :
  ignores_argv (validateVersionConflicts newVersion).
Proof. unfold validateVersionConflicts. cbv zeta. ignores_argv. Qed.

Lemma overrideVersion_ignores_argv (o : option value) (format name : string) :
  ignores_argv (overrideVersion o format name).
Proof. unfold overrideVersion, validateVersion. cbv zeta. ignores_argv. Qed.

Lemma getNightlyVersion_ignores_argv : ignores_argv getNightlyVersion.
Proof.
  unfold getNightlyVersion.
  apply ignores_argv_bind; [apply getAndVerifyTags_ignores_argv|]. ignores_argv.
Qed.

Lemma getStableVersion_ignores_argv (args : gmap string value) :
  ignores_argv (getStableVersion args).
Proof.
  unfold getStableVersion.
  apply ignores_argv_bind; [apply getAndVerifyTags_ignores_argv|]. intros preview.
  apply ignores_argv_bind.
  { destruct (is_truthy _); [apply overrideVersion_ignores_argv|apply ignores_argv_ret]. }
  intros version.
  apply ignores_argv_bind; [apply getAndVerifyTags_ignores_argv|]. ignores_argv.
Qed.

Lemma getPreviewVersion_ignores_argv (args : gmap string value) :
  ignores_argv (getPreviewVersion args).
Proof.
  unfold getPreviewVersion.
  apply ignores_argv_bind; [apply getAndVerifyTags_ignores_argv|]. intros nightly.
  apply ignores_argv_bind.
  { destruct (is_truthy _); [apply overrideVersion_ignores_argv|apply ignores_argv_ret]. }
  intros version.
  apply ignores_argv_bind; [apply getAndVerifyTags_ignores_argv|]. ignores_argv.
Qed.

Lemma getPatchVersion_ignores_argv (patchFrom : option value) :
  ignores_argv (getPatchVersion patchFrom).
Proof.
  unfold getPatchVersion.
  destruct (_ || _); [apply ignores_argv_throw|]. cbv zeta.
  apply ignores_argv_bind; [apply getAndVerifyTags_ignores_argv|]. ignores_argv.
Qed.

(** X23.  The command line is read in one place.  Every function that
    [getVersion] calls, [getArgs] apart, does the same whatever
    [process.argv] holds; so flags on the command line and properties of
    [options] are interchangeable: [getVersion(options)] does what it
    would do without any flag for [options] spread over the arguments
    that [getArgs] reads. *)
Theorem getVersion_flags_are_options (w : World) (options cli : gmap string value) :
  outcome w getArgs = Ok cli ->
  (forall npmDistTag gitTagPattern, ignores_argv (getAndVerifyTags npmDistTag gitTagPattern))
  /\ (forall newVersion, ignores_argv (validateVersionConflicts newVersion))
  /\ ignores_argv getNightlyVersion
  /\ (forall args, ignores_argv (getStableVersion args))
  /\ (forall args, ignores_argv (getPreviewVersion args))
  /\ (forall patchFrom, ignores_argv (getPatchVersion patchFrom))
  /\ outcome w (getVersion options)
     = outcome (mkWorld (process_output w) (clock w) []) (getVersion (options ∪ cli))
  /\ queries w (getVersion options)
     = queries (mkWorld (process_output w) (clock w) []) (getVersion (options ∪ cli)).
Proof.
  intros Hcli.
  split; [exact getAndVerifyTags_ignores_argv|].
  split; [exact validateVersionConflicts_ignores_argv|].
  split; [exact getNightlyVersion_ignores_argv|].
  split; [exact getStableVersion_ignores_argv|].
  split; [exact getPreviewVersion_ignores_argv|].
  split; [exact getPatchVersion_ignores_argv|].
  assert (Hcli0 : outcome (mkWorld (process_output w) (clock w) []) getArgs
                  = Ok (∅ : gmap string value)) by reflexivity.
  assert (Hbody : forall args : gmap string value,
            ignores_argv
              (versionData ←
                 (if is_string "nightly" (Some (release_type args)) then getNightlyVersion
                  else if is_string "stable" (Some (release_type args))
                       then getStableVersion args
                  else if is_string "preview" (Some (release_type args))
                       then getPreviewVersion args
                  else if is_string "patch" (Some (release_type args))
                       then getPatchVersion (args !! "patch-from")
                  else throw ("Unknown release type: " +:+ value_text (release_type args)));
               _ ← validateVersionConflicts (releaseVersion versionData);
               mret {| releaseTag := "v" +:+ releaseVersion versionData;
                       versionData := versionData |})).
  { intros args. apply ignores_argv_bind.
    - repeat match goal with |- ignores_argv (if ?b then _ else _) => destruct b end;
        auto using getNightlyVersion_ignores_argv, getStableVersion_ignores_argv,
          getPreviewVersion_ignores_argv, getPatchVersion_ignores_argv, ignores_argv_throw.
    - intros data. apply ignores_argv_bind; [apply validateVersionConflicts_ignores_argv|].
      intros _. apply ignores_argv_ret. }
  unfold getVersion.
  rewrite !outcome_bind, !queries_bind, Hcli, Hcli0, !getArgs_queries, !app_nil_l.
  rewrite (map_union_empty (options ∪ cli)).
  unfold outcome, queries. by rewrite (Hbody (options ∪ cli) w []).
Qed.

Lemma getVersion_flags_are_options_witness :
  outcome patch_stable_cli_world (getVersion ∅)
  = outcome (mkWorld (process_output patch_stable_cli_world) (clock patch_stable_cli_world) [])
            (getVersion (∅ ∪ {[ "type" := VStr "patch"; "patch-from" := VStr "stable" ]})).
Proof.
  assert (Hcli : outcome patch_stable_cli_world getArgs
                 = Ok ({[ "type" := VStr "patch"; "patch-from" := VStr "stable" ]}
                         : gmap string value))
    by (vm_compute; reflexivity).
  destruct (getVersion_flags_are_options patch_stable_cli_world ∅ _ Hcli)
    as (_ & _ & _ & _ & _ & _ & H & _).
  exact H.
Defined.

(** ** The examples of the specification, end to end *)

Example nightly_resolution :
  outcome consistent_world (getVersion ∅) =
    Ok {| releaseTag := "v0.7.0-nightly.20250917.d3bf8a3d";
          versionData := {| releaseVersion := "0.7.0-nightly.20250917.d3bf8a3d";
                            npmTag := "nightly";
                            previousReleaseTag := "v0.6.0-nightly.20250910.a31830a3" |} |}.
Proof. vm_compute. reflexivity. Qed.

Example stable_resolution :
  outcome consistent_world (getVersion {[ "type" := VStr "stable" ]}) =
    Ok {| releaseTag := "v0.5.0";
          versionData := {| releaseVersion := "0.5.0";
                            npmTag := "latest";
                            previousReleaseTag := "v0.4.1" |} |}.
Proof. vm_compute. reflexivity. Qed.

Example preview_resolution :
  outcome consistent_world (getVersion {[ "type" := VStr "preview" ]}) =
    Ok {| releaseTag := "v0.6.0-preview.0";
          versionData := {| releaseVersion := "0.6.0-preview.0";
                            npmTag := "preview";
                            previousReleaseTag := "v0.5.0-preview.2" |} |}.
Proof. vm_compute. reflexivity. Qed.

Example patch_of_stable_resolution :
  outcome patch_stable_cli_world (getVersion ∅) =
    Ok {| releaseTag := "v0.4.2";
          versionData := {| releaseVersion := "0.4.2";
                            npmTag := "latest";
                            previousReleaseTag := "v0.4.1" |} |}.
Proof. vm_compute. reflexivity. Qed.

Example patch_of_preview_resolution :
  outcome consistent_world
    (getVersion {[ "type" := VStr "patch"; "patch-from" := VStr "preview" ]}) =
    Ok {| releaseTag := "v0.5.0-preview.3";
          versionData := {| releaseVersion := "0.5.0-preview.3";
                            npmTag := "preview";
                            previousReleaseTag := "v0.5.0-preview.2" |} |}.
Proof. vm_compute. reflexivity. Qed.

Example malformed_override_resolution :
  outcome consistent_world
    (getVersion {[ "type" := VStr "stable"; "stable_version_override" := VStr "1.2.3-beta" ]})
  = Throw "Invalid stable_version_override: 1.2.3-beta. Must be in X.Y.Z format.".
Proof. vm_compute. reflexivity. Qed.

Example drifted_resolution :
  outcome drifted_world
    (getVersion {[ "type" := VStr "patch"; "patch-from" := VStr "stable" ]})
  = Throw "Discrepancy found! NPM latest tag (0.4.1) does not match latest git latest tag (v0.4.2).".
Proof. vm_compute. reflexivity. Qed.

Example reused_version_resolution :
  outcome reused_version_world
    (getVersion {[ "type" := VStr "patch"; "patch-from" := VStr "stable" ]})
  = Throw ("Version conflict! Cannot create 0.4.2:" +:+ String LF ""
           +:+ "NPM registry already has version 0.4.2").
Proof. vm_compute. reflexivity. Qed.
